(** * An in-memory limit order book: model of [order_book/main.go]

    The Go program keeps every resting order behind a pointer ([*Order]) that
    is shared between the id-lookup map [OrderBook.Orders] and the slice of
    the price level the order is filed under.  Amendments and matching write
    through that pointer, so the model has an explicit store: a location
    [loc] stands for a non-nil [*Order] and [heap] gives the current contents
    of every location.

    Numbers.  [float64] prices and quantities are modelled by the exact
    rationals [Qc] (canonical fractions, Leibniz equality for Go's [==]);
    rounding, infinities and NaN are outside the model.  Every statement
    below is therefore about prices and quantities that are finite numbers,
    and about runs in which no subtraction rounds or overflows; a statement
    that needs this says so.  Two things the code does outside that scope
    are covered by no theorem below.  On a NaN price Go's [>] and [<] are
    both false, so [Less] finds the order a level of another price.  And
    [Inf - Inf] is NaN, which [==] never finds equal to 0, so [MatchOrders]
    never takes an order with such a quantity out of the book.

    The ordered index.  [github.com/google/btree] is an imported package and
    is modelled by its contract, see [Module btree].

    Output.  What the program prints is modelled by the arguments of the
    print calls: a [Trade] for each trade of [MatchOrders], a [line] for
    each line of [DisplayOrderBook]; the formatting of the numbers is not
    modelled. *)

From Stdlib Require Import QArith Qcanon Lqa.
From stdpp Require Import base numbers option list sorting strings gmap.

Local Open Scope string_scope.
Local Open Scope list_scope.

(** ** Data model *)

(** [*Order]: a non-nil pointer to a live order. *)
Definition loc := nat.

(** [type Order struct].  [Timestamp] is a [time.Time]; the program never
    reads it. *)
Record Order := mkOrder {
  OrderID : string;
  Price : Qc;
  Quantity : Qc;
  Timestamp : Z;
  Side : string
}.

(** [type PriceLevel struct { Price; Orders; Side }]. *)
Record PriceLevel := mkPriceLevel {
  LevelPrice : Qc;
  LevelOrders : list loc;
  LevelSide : string
}.

(** [func (p PriceLevel) Less(than btree.Item) bool]: the receiver's side
    decides the direction.  The prices compared are finite numbers: Go's
    [>] and [<] on a NaN price, both false, are outside the model. *)
Definition Less (p o : PriceLevel) : bool :=
  if bool_decide (LevelSide p = "buy")
  then bool_decide (LevelPrice o < LevelPrice p)%Qc
  else bool_decide (LevelPrice p < LevelPrice o)%Qc.

(** Modelled from the spec: the ordered index of section 4.1
    ([github.com/google/btree], not among the repository's sources).  A tree
    is the sequence of its items in ascending [Less] order; [Get],
    [ReplaceOrInsert] and [Delete] locate an item by [Less] alone, two items
    being the same key when neither is [Less] than the other. *)
Module btree.

Abbreviation BTree := (list PriceLevel).

Definition New : BTree := [].

Fixpoint Get (t : BTree) (key : PriceLevel) : option PriceLevel :=
  match t with
  | [] => None
  | x :: t' =>
      if Less key x then None
      else if Less x key then Get t' key
      else Some x
  end.

Fixpoint ReplaceOrInsert (t : BTree) (item : PriceLevel) : BTree :=
  match t with
  | [] => [item]
  | x :: t' =>
      if Less item x then item :: x :: t'
      else if Less x item then x :: ReplaceOrInsert t' item
      else item :: t'
  end.

Fixpoint Delete (t : BTree) (item : PriceLevel) : BTree :=
  match t with
  | [] => []
  | x :: t' =>
      if Less item x then x :: t'
      else if Less x item then x :: Delete t' item
      else t'
  end.

Definition Min (t : BTree) : option PriceLevel := head t.

Definition Len (t : BTree) : nat := length t.

(** [Ascend] with a visitor that always answers [true]: every item, best
    first. *)
Definition Ascend (t : BTree) : list PriceLevel := t.

End btree.

(** [type OrderBook struct]. *)
Record OrderBook := mkOrderBook {
  BuyTree : btree.BTree;
  SellTree : btree.BTree;
  Orders : gmap string loc;
  LastTradedPrice : Qc
}.

(** The program state: the orders the pointers refer to, and the book. *)
Record State := mkState {
  heap : loc → Order;
  book : OrderBook
}.

(** [func NewOrderBook() *OrderBook]; [LastTradedPrice] is the zero value. *)
Definition NewOrderBook : OrderBook :=
  mkOrderBook btree.New btree.New ∅ 0%Qc.

(** *** Field assignments *)

Definition set_Price (v : Qc) (o : Order) : Order :=
  mkOrder (OrderID o) v (Quantity o) (Timestamp o) (Side o).
Definition set_Quantity (v : Qc) (o : Order) : Order :=
  mkOrder (OrderID o) (Price o) v (Timestamp o) (Side o).
Definition set_Side (v : string) (o : Order) : Order :=
  mkOrder (OrderID o) (Price o) (Quantity o) (Timestamp o) v.
Definition set_LevelOrders (v : list loc) (p : PriceLevel) : PriceLevel :=
  mkPriceLevel (LevelPrice p) v (LevelSide p).

(** [*order = o]: a write through the pointer. *)
Definition store (h : loc → Order) (order : loc) (o : Order) : loc → Order :=
  λ l, if bool_decide (l = order) then o else h l.

(** The tree an order of side [side] is filed in: [BuyTree] for ["buy"],
    [SellTree] for every other string. *)
Definition is_buy (side : string) : bool := bool_decide (side = "buy").

Definition tree_of (buy : bool) (ob : OrderBook) : btree.BTree :=
  if buy then BuyTree ob else SellTree ob.

(** The tree methods mutate the tree the book points to. *)
Definition set_tree (buy : bool) (t : btree.BTree) (ob : OrderBook) : OrderBook :=
  if buy then mkOrderBook t (SellTree ob) (Orders ob) (LastTradedPrice ob)
  else mkOrderBook (BuyTree ob) t (Orders ob) (LastTradedPrice ob).

Definition set_Orders (m : gmap string loc) (ob : OrderBook) : OrderBook :=
  mkOrderBook (BuyTree ob) (SellTree ob) m (LastTradedPrice ob).

Definition set_LastTradedPrice (v : Qc) (ob : OrderBook) : OrderBook :=
  mkOrderBook (BuyTree ob) (SellTree ob) (Orders ob) v.

(** ** Operations *)

(** [func (ob *OrderBook) AddOrder(order *Order)]. *)
Definition AddOrder (st : State) (order : loc) : State :=
  let o := heap st order in
  let ob := set_Orders (<[OrderID o := order]> (Orders (book st))) (book st) in
  let priceLevel := mkPriceLevel (Price o) [] (Side o) in
  let buy := is_buy (Side o) in
  let tree := tree_of buy ob in
  match btree.Get tree priceLevel with
  | Some existingLevel =>
      let existingLevel' :=
        set_LevelOrders (LevelOrders existingLevel ++ [order]) existingLevel in
      mkState (heap st) (set_tree buy (btree.ReplaceOrInsert tree existingLevel') ob)
  | None =>
      let priceLevel' := set_LevelOrders [order] priceLevel in
      mkState (heap st) (set_tree buy (btree.ReplaceOrInsert tree priceLevel') ob)
  end.

(** The [for idx, ord := range existingLevel.Orders] loop of [removeOrder]:
    the first index whose order carries the identifier. *)
Fixpoint index_of_id (h : loc → Order) (id : string) (ords : list loc) : option nat :=
  match ords with
  | [] => None
  | ord :: rest =>
      if bool_decide (OrderID (h ord) = id) then Some 0%nat
      else S <$> index_of_id h id rest
  end.

(** [func (ob *OrderBook) removeOrder(order *Order)]. *)
Definition removeOrder (st : State) (order : loc) : State :=
  let o := heap st order in
  let priceLevel := mkPriceLevel (Price o) [] (Side o) in
  let buy := is_buy (Side o) in
  let tree := tree_of buy (book st) in
  match btree.Get tree priceLevel with
  | Some existingLevel =>
      match index_of_id (heap st) (OrderID o) (LevelOrders existingLevel) with
      | Some idx =>
          let existingLevel' :=
            set_LevelOrders (take idx (LevelOrders existingLevel)
                             ++ drop (S idx) (LevelOrders existingLevel))
                            existingLevel in
          if bool_decide (length (LevelOrders existingLevel') = 0%nat)
          then mkState (heap st) (set_tree buy (btree.Delete tree existingLevel') (book st))
          else mkState (heap st)
                 (set_tree buy (btree.ReplaceOrInsert tree existingLevel') (book st))
      | None => st
      end
  | None => st
  end.

(** Go's [error]: [nil] is [None], [fmt.Errorf(msg)] is [Some msg]. *)
Definition error := option string.

Definition ErrOrderNotFound : error := Some "order not found".
Definition ErrInvalidSide : error := Some "invalid side".
Definition ErrInvalidQuantity : error := Some "invalid quantity".

(** [delete(ob.Orders, orderID)]. *)
Definition delete_Orders (orderID : string) (st : State) : State :=
  mkState (heap st) (set_Orders (delete orderID (Orders (book st))) (book st)).

(** [func (ob *OrderBook) RemoveOrder(orderID string) error]. *)
Definition RemoveOrder (st : State) (orderID : string) : State * error :=
  match Orders (book st) !! orderID with
  | None => (st, ErrOrderNotFound)
  | Some order => (delete_Orders orderID (removeOrder st order), None)
  end.

(** [func (ob *OrderBook) ModifyOrderPrice(orderID string, newPrice float64) error]. *)
Definition ModifyOrderPrice (st : State) (orderID : string) (newPrice : Qc)
  : State * error :=
  match Orders (book st) !! orderID with
  | None => (st, ErrOrderNotFound)
  | Some order =>
      let st1 := removeOrder st order in
      let st2 := mkState (store (heap st1) order (set_Price newPrice (heap st1 order)))
                         (book st1) in
      (AddOrder st2 order, None)
  end.

(** [func (ob *OrderBook) ModifyOrderSide(orderID string, newSide string) error]. *)
Definition ModifyOrderSide (st : State) (orderID : string) (newSide : string)
  : State * error :=
  if bool_decide (newSide ≠ "buy") && bool_decide (newSide ≠ "sell")
  then (st, ErrInvalidSide)
  else
    match Orders (book st) !! orderID with
    | None => (st, ErrOrderNotFound)
    | Some order =>
        let st1 := removeOrder st order in
        let st2 := mkState (store (heap st1) order (set_Side newSide (heap st1 order)))
                           (book st1) in
        (AddOrder st2 order, None)
    end.

(** [func (ob *OrderBook) ModifyOrderQuantity(orderID string, newQuantity float64) error]. *)
Definition ModifyOrderQuantity (st : State) (orderID : string) (newQuantity : Qc)
  : State * error :=
  if bool_decide (newQuantity < 0)%Qc
  then (st, ErrInvalidQuantity)
  else
    match Orders (book st) !! orderID with
    | None => (st, ErrOrderNotFound)
    | Some order =>
        if bool_decide (newQuantity = 0%Qc)
        then (delete_Orders orderID (removeOrder st order), None)
        else (mkState (store (heap st) order (set_Quantity newQuantity (heap st order)))
                      (book st), None)
    end.

(** [func min(a, b float64) float64]. *)
Definition min (a b : Qc) : Qc :=
  if bool_decide (a < b)%Qc then a else b.

(** The arguments of the [fmt.Printf("Trade executed: ...")] call. *)
Record Trade := mkTrade {
  TradeBuyID : string;
  TradeSellID : string;
  TradePrice : Qc;
  TradeQuantity : Qc
}.

(** The [if highestBuy.Price >= lowestSell.Price] branch of [MatchOrders],
    from the two front orders on: the trade printed and the state left.
    Every read goes through the pointer at the moment the source reads.
    The two [-=] are exact subtractions of finite numbers: rounding,
    overflow and [Inf - Inf] are outside the model. *)
Definition execute_trade (st : State) (buyOrder sellOrder : loc) : Trade * State :=
  let tradePrice := Price (heap st sellOrder) in
  let ob1 := set_LastTradedPrice tradePrice (book st) in
  let tradeQuantity :=
    min (Quantity (heap st buyOrder)) (Quantity (heap st sellOrder)) in
  let trade := mkTrade (OrderID (heap st buyOrder)) (OrderID (heap st sellOrder))
                       tradePrice tradeQuantity in
  let h1 := store (heap st) buyOrder
              (set_Quantity (Quantity (heap st buyOrder) - tradeQuantity)%Qc
                            (heap st buyOrder)) in
  let h2 := store h1 sellOrder
              (set_Quantity (Quantity (h1 sellOrder) - tradeQuantity)%Qc
                            (h1 sellOrder)) in
  let st2 := mkState h2 ob1 in
  let st3 :=
    if bool_decide (Quantity (heap st2 buyOrder) = 0%Qc)
    then delete_Orders (OrderID (heap st2 buyOrder)) (removeOrder st2 buyOrder)
    else st2 in
  let st4 :=
    if bool_decide (Quantity (heap st3 sellOrder) = 0%Qc)
    then delete_Orders (OrderID (heap st3 sellOrder)) (removeOrder st3 sellOrder)
    else st3 in
  (trade, st4).

(** One pass through the body of the [for] loop of [MatchOrders]. *)
Inductive iteration :=
  | Break                               (* either [break] *)
  | Again (t : Trade) (st : State)      (* a trade was executed; loop again *)
  | Panic.                              (* [Orders[0]] on an empty slice *)

Definition MatchOrders_body (st : State) : iteration :=
  match btree.Min (BuyTree (book st)), btree.Min (SellTree (book st)) with
  | Some highestBuy, Some lowestSell =>
      if bool_decide (LevelPrice lowestSell ≤ LevelPrice highestBuy)%Qc then
        match LevelOrders highestBuy !! 0%nat, LevelOrders lowestSell !! 0%nat with
        | Some buyOrder, Some sellOrder =>
            let '(trade, st') := execute_trade st buyOrder sellOrder in
            Again trade st'
        | _, _ => Panic
        end
      else Break
  | _, _ => Break
  end.

(** [func (ob *OrderBook) MatchOrders()]: the loop, with a bound on the
    number of passes.  [Returned] carries the trades printed, oldest first. *)
Inductive outcome :=
  | Returned (trades : list Trade) (st : State)
  | Panicked
  | OutOfFuel.

Fixpoint MatchOrders (fuel : nat) (st : State) : outcome :=
  match fuel with
  | O => OutOfFuel
  | S fuel' =>
      match MatchOrders_body st with
      | Break => Returned [] st
      | Panic => Panicked
      | Again t st' =>
          match MatchOrders fuel' st' with
          | Returned ts st'' => Returned (t :: ts) st''
          | r => r
          end
      end
  end.

(** [func (ob *OrderBook) GetBestBid() (float64, bool)]. *)
Definition GetBestBid (ob : OrderBook) : Qc * bool :=
  if bool_decide (btree.Len (BuyTree ob) = 0%nat) then (0%Qc, false)
  else match btree.Min (BuyTree ob) with
       | Some bestBidItem => (LevelPrice bestBidItem, true)
       | None => (0%Qc, false)   (* not reached: [Len] is not 0 *)
       end.

(** [func (ob *OrderBook) GetBestAsk() (float64, bool)]. *)
Definition GetBestAsk (ob : OrderBook) : Qc * bool :=
  if bool_decide (btree.Len (SellTree ob) = 0%nat) then (0%Qc, false)
  else match btree.Min (SellTree ob) with
       | Some bestAskItem => (LevelPrice bestAskItem, true)
       | None => (0%Qc, false)   (* not reached: [Len] is not 0 *)
       end.

(** [func (ob *OrderBook) GetMidPrice() (float64, bool)]. *)
Definition GetMidPrice (ob : OrderBook) : Qc * bool :=
  let '(bestBid, hasBid) := GetBestBid ob in
  let '(bestAsk, hasAsk) := GetBestAsk ob in
  if hasBid && hasAsk then ((bestBid + bestAsk) / Qc_of_Z 2, true)%Qc
  else (0%Qc, false).

(** [func (ob *OrderBook) GetCurrentMarketPrice() (float64, bool)]. *)
Definition GetCurrentMarketPrice (ob : OrderBook) : Qc * bool :=
  if bool_decide (LastTradedPrice ob ≠ 0%Qc) then (LastTradedPrice ob, true)
  else
    let '(midPrice, ok) := GetMidPrice ob in
    if ok then (midPrice, true) else (0%Qc, false).

(** A line written to standard output by [DisplayOrderBook]: the string of
    a [fmt.Println], or the arguments of the
    [fmt.Printf("OrderID: %s, Price: %.2f, Quantity: %.2f\n", ...)] of an
    order. *)
Inductive line :=
  | Println (s : string)
  | OrderLine (id : string) (price quantity : Qc).

(** The callback of [Ascend] in [DisplayOrderBook]: one line per order of
    each level, the levels in the order of the index. *)
Definition order_lines (h : loc → Order) (t : btree.BTree) : list line :=
  concat ((λ item,
             (λ ord, OrderLine (OrderID (h ord)) (Price (h ord)) (Quantity (h ord)))
               <$> LevelOrders item)
            <$> btree.Ascend t).

(** [func (ob *OrderBook) DisplayOrderBook()]: the lines written. *)
Definition DisplayOrderBook (st : State) : list line :=
  [Println "Order Book:"; Println "Buy Orders:"]
  ++ order_lines (heap st) (BuyTree (book st))
  ++ [Println "Sell Orders:"]
  ++ order_lines (heap st) (SellTree (book st))
  ++ [Println "------------------------------"].

(** ** The demonstration run of [main] *)

Definition B1 : loc := 1%nat.
Definition S1 : loc := 2%nat.
Definition B2 : loc := 3%nat.
Definition S2 : loc := 4%nat.

Definition main_heap : loc → Order :=
  store (store (store (store (λ _, mkOrder "" 0%Qc 0%Qc 0 "")
    B1 (mkOrder "B1" (Qc_of_Z 100) (Qc_of_Z 10) 1 "buy"))
    S1 (mkOrder "S1" (Qc_of_Z 105) (Qc_of_Z 5) 2 "sell"))
    B2 (mkOrder "B2" (Qc_of_Z 102) (Qc_of_Z 7) 3 "buy"))
    S2 (mkOrder "S2" (Qc_of_Z 99) (Qc_of_Z 8) 4 "sell").

Definition main_added : State :=
  AddOrder (AddOrder (AddOrder (AddOrder (mkState main_heap NewOrderBook) B1) S1) B2) S2.

(** * Vocabulary of the specification *)

(** ** Well-formed side indexes *)

(** Best-first order of prices on one side: descending for bids, ascending
    for asks. *)
Definition before (buy : bool) (a b : Qc) : Prop :=
  if buy then (b < a)%Qc else (a < b)%Qc.

Global Instance before_dec buy a b : Decision (before buy a b).
Proof. destruct buy; simpl; apply _. Defined.

(** A level compares as a level of the [buy] side. *)
Definition side_ok (buy : bool) (p : PriceLevel) : Prop :=
  is_buy (LevelSide p) = buy.

(** A well-formed side index: every level compares in the index's own
    direction and the levels are strictly sorted, best price first. *)
Definition tree_ok (buy : bool) (t : btree.BTree) : Prop :=
  Forall (side_ok buy) t ∧
  StronglySorted (λ x y, before buy (LevelPrice x) (LevelPrice y)) t.

(** Both side indexes of a book are well formed. *)
Definition trees_ok (ob : OrderBook) : Prop :=
  ∀ buy, tree_ok buy (tree_of buy ob).

(** ** Filed orders and the consistency of the two views *)

(** The orders filed in a side index, level by level, and in the whole book
    (bids first). *)
Definition orders_of (t : btree.BTree) : list loc := concat (LevelOrders <$> t).

Definition filed (ob : OrderBook) : list loc :=
  orders_of (BuyTree ob) ++ orders_of (SellTree ob).

(** The identifiers the orders of a sequence carry. *)
Definition ids (h : loc → Order) (l : list loc) : list string :=
  (λ p, OrderID (h p)) <$> l.

(** The level left behind once an order is taken out of it: none when it
    was the last one. *)
Definition level_without (L : PriceLevel) (rest : list loc) : list PriceLevel :=
  match rest with
  | [] => []
  | _ => [set_LevelOrders rest L]
  end.

(** A level of a side index agrees with the orders it holds: it is not
    empty, and each order in it carries the level's price and belongs to the
    index's side. *)
Definition level_ok (h : loc → Order) (buy : bool) (L : PriceLevel) : Prop :=
  LevelOrders L ≠ [] ∧
  Forall (λ p, Price (h p) = LevelPrice L ∧ is_buy (Side (h p)) = buy) (LevelOrders L).

(** A side index is well formed and each of its levels agrees with the
    orders it holds. *)
Definition index_ok (h : loc → Order) (buy : bool) (t : btree.BTree) : Prop :=
  tree_ok buy t ∧ Forall (level_ok h buy) t.

(** The price levels are in order: both indexes are well formed and no two
    filed orders share an identifier. *)
Record filed_ok (st : State) : Prop := mk_filed_ok {
  fo_index : ∀ buy, index_ok (heap st) buy (tree_of buy (book st));
  fo_ids : NoDup (ids (heap st) (filed (book st)))
}.

(** The book is consistent: the levels are in order and the id-lookup map
    knows exactly the filed orders, each under its own identifier. *)
Record consistent (st : State) : Prop := mk_consistent {
  cons_filed : filed_ok st;
  cons_map : ∀ id p, Orders (book st) !! id = Some p ↔
                     p ∈ filed (book st) ∧ OrderID (heap st p) = id
}.

(** The order sits in level [L] of the index of side [buy]. *)
Definition in_level (st : State) (buy : bool) (L : PriceLevel) (p : loc) : Prop :=
  L ∈ tree_of buy (book st) ∧ p ∈ LevelOrders L.

(** The two views of the book agree: an order the id-lookup map leads to is
    in one level only, in the index of its own side and at its own price;
    and an order in a level is what the map holds under its identifier. *)
Definition views_agree (st : State) : Prop :=
  (∀ id p, Orders (book st) !! id = Some p →
     ∃ L, in_level st (is_buy (Side (heap st p))) L p ∧
          LevelPrice L = Price (heap st p) ∧
          ∀ buy' L', in_level st buy' L' p →
                     buy' = is_buy (Side (heap st p)) ∧ L' = L) ∧
  (∀ buy L p, in_level st buy L p →
     Orders (book st) !! OrderID (heap st p) = Some p).

(** ** Matching *)

(** The book is crossed: both sides have a best price and the best bid is
    at least the best ask. *)
Definition crossed (ob : OrderBook) : Prop :=
  ∃ bid ask, GetBestBid ob = (bid, true) ∧ GetBestAsk ob = (ask, true) ∧ (ask ≤ bid)%Qc.


(** ** Levels, trades, quantities and the display *)

(** Every level of both indexes holds at least one order. *)
Definition levels_nonempty (ob : OrderBook) : Prop :=
  ∀ buy, Forall (λ L, LevelOrders L ≠ []) (tree_of buy ob).

(** The trade is one between a buy order and a sell order that the
    id-lookup map of [st] holds under the identifiers printed, at the sell
    order's price, which is within the buy order's limit. *)
Definition trade_between (st : State) (t : Trade) : Prop :=
  ∃ b s, Orders (book st) !! TradeBuyID t = Some b ∧
         Orders (book st) !! TradeSellID t = Some s ∧
         is_buy (Side (heap st b)) = true ∧ is_buy (Side (heap st s)) = false ∧
         TradePrice t = Price (heap st s) ∧
         (Price (heap st s) ≤ Price (heap st b))%Qc.

(** Every filed order has a positive quantity. *)
Definition quantities_positive (st : State) : Prop :=
  Forall (λ p, (0 < Quantity (heap st p))%Qc) (filed (book st)).

(** The trade is printed under the identifier, as the buyer or the seller. *)
Definition involves (id : string) (t : Trade) : bool :=
  bool_decide (TradeBuyID t = id) || bool_decide (TradeSellID t = id).

(** The quantity traded under an identifier in a sequence of trades. *)
Definition filled_quantity (id : string) (trades : list Trade) : Qc :=
  foldr (λ t acc, if involves id t then (TradeQuantity t + acc)%Qc else acc) 0%Qc trades.

(** The identifier and the price on a line of the display (none, and 0, on
    a line that is not an order's). *)
Definition line_id (l : line) : option string :=
  match l with OrderLine id _ _ => Some id | Println _ => None end.

Definition line_price (l : line) : Qc :=
  match l with OrderLine _ price _ => price | Println _ => 0%Qc end.

(** The line [DisplayOrderBook] writes for an order. *)
Definition line_of (h : loc → Order) (ord : loc) : line :=
  OrderLine (OrderID (h ord)) (Price (h ord)) (Quantity (h ord)).

(** ** The states a client can reach *)

(** A call on the book's interface. *)
Inductive call :=
  | CallAddOrder (order : loc)
  | CallRemoveOrder (orderID : string)
  | CallModifyOrderPrice (orderID : string) (newPrice : Qc)
  | CallModifyOrderSide (orderID : string) (newSide : string)
  | CallModifyOrderQuantity (orderID : string) (newQuantity : Qc)
  | CallMatchOrders.

(** [run st c st']: the call [c] made in [st] returns and leaves [st']. *)
Definition run (st : State) (c : call) (st' : State) : Prop :=
  match c with
  | CallAddOrder order => st' = AddOrder st order
  | CallRemoveOrder orderID => st' = (RemoveOrder st orderID).1
  | CallModifyOrderPrice orderID newPrice => st' = (ModifyOrderPrice st orderID newPrice).1
  | CallModifyOrderSide orderID newSide => st' = (ModifyOrderSide st orderID newSide).1
  | CallModifyOrderQuantity orderID newQuantity =>
      st' = (ModifyOrderQuantity st orderID newQuantity).1
  | CallMatchOrders => ∃ fuel trades, MatchOrders fuel st = Returned trades st'
  end.

(** The states reached from a new book by calls the discipline [allowed]
    admits.  The orders the client hands in are whatever the store holds. *)
Inductive reachable (allowed : State → call → Prop) : State → Prop :=
  | reachable_new h : reachable allowed (mkState h NewOrderBook)
  | reachable_run st c st' :
      reachable allowed st → allowed st c → run st c st' → reachable allowed st'.

(** No discipline: every call is allowed. *)
Definition any_call : State → call → Prop := λ _ _, True.

(** The discipline of section 4.2: the client only adds an order whose
    identifier the id-lookup map does not hold. *)
Definition fresh_ids : State → call → Prop := λ st c,
  match c with
  | CallAddOrder order => Orders (book st) !! OrderID (heap st order) = None
  | _ => True
  end.

(** ** Example states *)

(** An order with side ["hold"], price -3 and quantity 0, added to the book
    of the demonstration run. *)
Definition odd_order_heap : loc → Order :=
  store main_heap 9%nat (mkOrder "Z" (Qc_of_Z (-3)) 0%Qc 0 "hold").

(** The book of the demonstration run, before matching, over that store. *)
Definition odd_order_state : State := mkState odd_order_heap (book main_added).

(** Two orders under one identifier.  [AddOrder] overwrites the map entry
    of an identifier that is already registered and leaves the earlier order
    in its level.  This store has three buy orders that share the
    identifier ["A"], and one sell order. *)
Definition dup_heap : loc → Order :=
  store (store (store (store (λ _, mkOrder "" 0%Qc 0%Qc 0 "")
    1%nat (mkOrder "A" (Qc_of_Z 100) (Qc_of_Z 4) 1 "buy"))
    2%nat (mkOrder "A" (Qc_of_Z 100) (Qc_of_Z 5) 2 "buy"))
    3%nat (mkOrder "A" (Qc_of_Z 100) (Qc_of_Z 7) 3 "buy"))
    4%nat (mkOrder "S" (Qc_of_Z 99) (Qc_of_Z 20) 4 "sell").

(** Orders 1 and 2 added: both sit in the level at 100, the map knows 2. *)
Definition dup_added : State :=
  AddOrder (AddOrder (mkState dup_heap NewOrderBook) 1%nat) 2%nat.

(** The book after orders 1 and 2, both ["A"], were added and ["A"] was
    removed: [removeOrder] took order 1, the first ["A"] in the level, and
    the map forgot ["A"]; order 2 is still in the level. *)
Definition dup_removed : State := (RemoveOrder dup_added "A").1.

(** The book after orders 1 and 2, both ["A"] at 100, were added, the price
    of ["A"] was changed to 98, and the sell order 4 at 99 was added.
    [ModifyOrderPrice] took order 1, the first ["A"], out of the level at
    100, and filed order 2 at 98: order 2 is now in both levels. *)
Definition dup_crossed : State :=
  AddOrder (ModifyOrderPrice dup_added "A" (Qc_of_Z 98)).1 4%nat.

(** A book on which the loop makes no progress: the only bid level, at 100,
    holds order 2, whose own price is 98 and whose quantity is zero; the
    only ask level, at 99, holds order 4 with some quantity left. *)
Definition stuck (st : State) : Prop :=
  BuyTree (book st) = [mkPriceLevel (Qc_of_Z 100) [2%nat] "buy"] ∧
  SellTree (book st) = [mkPriceLevel (Qc_of_Z 99) [4%nat] "sell"] ∧
  Side (heap st 2%nat) = "buy" ∧ Price (heap st 2%nat) = Qc_of_Z 98 ∧
  Quantity (heap st 2%nat) = 0%Qc ∧ (0 < Quantity (heap st 4%nat))%Qc.

(** The book of the demonstration run when the first [MatchOrders] of
    [main] has returned, and when the three modifications of [main] have
    been made: the price of B2 to 98, the side of S1 to buy, the quantity
    of B1 to 0. *)
Definition main_matched : State :=
  match MatchOrders 3 main_added with
  | Returned _ st => st
  | _ => main_added
  end.

Definition main_modified : State :=
  (ModifyOrderQuantity
     (ModifyOrderSide (ModifyOrderPrice main_matched "B2" (Qc_of_Z 98)).1 "S1" "buy").1
     "B1" 0%Qc).1.

Global Arguments AddOrder : simpl never.
Global Arguments removeOrder : simpl never.
Global Arguments execute_trade : simpl never.

(** * Lemmas *)

(** ** The ordered index: sortedness and how the tree methods find a level *)

Section order_facts.
Context (buy : bool).

Lemma before_irrefl a : ¬ before buy a a.
Proof. destruct buy; simpl; apply (irreflexivity Qclt). Qed.

Lemma before_trans a b c : before buy a b → before buy b c → before buy a c.
Proof. destruct buy; simpl; intros; by etrans. Qed.

Lemma before_asym a b : before buy a b → ¬ before buy b a.
Proof. intros H1 H2. exact (before_irrefl _ (before_trans _ _ _ H1 H2)). Qed.

Lemma before_total a b : ¬ before buy a b → ¬ before buy b a → a = b.
Proof.
  destruct buy; simpl; intros H1 H2;
    apply Qcle_antisym; apply Qcnot_lt_le; done.
Qed.

Lemma Less_before p o :
  side_ok buy p → Less p o = bool_decide (before buy (LevelPrice p) (LevelPrice o)).
Proof.
  unfold side_ok, is_buy, Less. intros <-.
  destruct (bool_decide (LevelSide p = "buy")); simpl; done.
Qed.

Lemma Less_true p o :
  side_ok buy p → before buy (LevelPrice p) (LevelPrice o) → Less p o = true.
Proof. intros Hp H. rewrite Less_before by done. by apply bool_decide_eq_true. Qed.

Lemma Less_false p o :
  side_ok buy p → ¬ before buy (LevelPrice p) (LevelPrice o) → Less p o = false.
Proof. intros Hp H. rewrite Less_before by done. by apply bool_decide_eq_false. Qed.

Lemma Less_same_price p o :
  side_ok buy p → LevelPrice p = LevelPrice o → Less p o = false.
Proof. intros Hp E. apply Less_false; [done|]. rewrite E. apply before_irrefl. Qed.

Lemma tree_ok_nil : tree_ok buy [].
Proof. split; constructor. Qed.

Lemma tree_ok_cons x t :
  tree_ok buy (x :: t) ↔
  side_ok buy x ∧ Forall (λ y, before buy (LevelPrice x) (LevelPrice y)) t ∧ tree_ok buy t.
Proof.
  unfold tree_ok. rewrite Forall_cons. split.
  - intros [[? ?] Hs]. inversion Hs; subst. done.
  - intros (? & ? & ? & ?). split; [done|]. by constructor.
Qed.

(** Removing a level, or swapping it for one of the same price, keeps the
    index sorted. *)
Lemma tree_ok_drop_middle t1 x t2 :
  tree_ok buy (t1 ++ x :: t2) → tree_ok buy (t1 ++ t2).
Proof.
  induction t1 as [|y t1 IH]; simpl.
  - rewrite tree_ok_cons. tauto.
  - rewrite !tree_ok_cons, !Forall_app, Forall_cons. tauto.
Qed.

Lemma tree_ok_swap_middle t1 x x' t2 :
  tree_ok buy (t1 ++ x :: t2) → side_ok buy x' → LevelPrice x' = LevelPrice x →
  tree_ok buy (t1 ++ x' :: t2).
Proof.
  intros H Hs E. induction t1 as [|y t1 IH]; simpl in *.
  - rewrite tree_ok_cons in *. rewrite E. tauto.
  - rewrite tree_ok_cons in *. rewrite !Forall_app, !Forall_cons in *.
    rewrite E. tauto.
Qed.

(** How the three lookups walk a sorted index towards a price that is
    present. *)
Lemma Get_middle t1 x t2 k :
  tree_ok buy (t1 ++ x :: t2) → side_ok buy k → LevelPrice k = LevelPrice x →
  btree.Get (t1 ++ x :: t2) k = Some x.
Proof.
  intros H Hk E. induction t1 as [|y t1 IH]; simpl in *.
  - apply tree_ok_cons in H as (Hx & _ & _).
    rewrite (Less_same_price k x), (Less_same_price x k); done.
  - apply tree_ok_cons in H as (Hy & Hall & Hrest).
    apply Forall_app in Hall as [_ Hall]. apply Forall_cons in Hall as [Hyx _].
    rewrite <- E in Hyx.
    rewrite (Less_false k y), (Less_true y k); auto using before_asym.
Qed.

Lemma ReplaceOrInsert_middle t1 x t2 k :
  tree_ok buy (t1 ++ x :: t2) → side_ok buy k → LevelPrice k = LevelPrice x →
  btree.ReplaceOrInsert (t1 ++ x :: t2) k = t1 ++ k :: t2.
Proof.
  intros H Hk E. induction t1 as [|y t1 IH]; simpl in *.
  - apply tree_ok_cons in H as (Hx & _ & _).
    rewrite (Less_same_price k x), (Less_same_price x k); done.
  - apply tree_ok_cons in H as (Hy & Hall & Hrest).
    apply Forall_app in Hall as [_ Hall]. apply Forall_cons in Hall as [Hyx _].
    rewrite <- E in Hyx.
    rewrite (Less_false k y), (Less_true y k), IH; auto using before_asym.
Qed.

Lemma Delete_middle t1 x t2 k :
  tree_ok buy (t1 ++ x :: t2) → side_ok buy k → LevelPrice k = LevelPrice x →
  btree.Delete (t1 ++ x :: t2) k = t1 ++ t2.
Proof.
  intros H Hk E. induction t1 as [|y t1 IH]; simpl in *.
  - apply tree_ok_cons in H as (Hx & _ & _).
    rewrite (Less_same_price k x), (Less_same_price x k); done.
  - apply tree_ok_cons in H as (Hy & Hall & Hrest).
    apply Forall_app in Hall as [_ Hall]. apply Forall_cons in Hall as [Hyx _].
    rewrite <- E in Hyx.
    rewrite (Less_false k y), (Less_true y k), IH; auto using before_asym.
Qed.

(** [Get] either finds the one level of the key's price, or the price is
    absent and [ReplaceOrInsert] opens a new level at its sorted place. *)
Lemma Get_cases t k :
  tree_ok buy t → side_ok buy k →
  (∃ t1 x t2, t = t1 ++ x :: t2 ∧ LevelPrice x = LevelPrice k ∧
              btree.Get t k = Some x) ∨
  (btree.Get t k = None ∧ Forall (λ x, LevelPrice x ≠ LevelPrice k) t ∧
   ∃ t1 t2, t = t1 ++ t2 ∧
     ∀ k', side_ok buy k' → LevelPrice k' = LevelPrice k →
           btree.ReplaceOrInsert t k' = t1 ++ k' :: t2 ∧
           tree_ok buy (t1 ++ k' :: t2)).
Proof.
  intros H Hk. induction t as [|y t IH]; simpl.
  - right. split_and!; [done|constructor|]. exists [], []. split; [done|].
    intros k' Hk' _. simpl. split; [done|].
    apply tree_ok_cons. split_and!; [done|constructor|apply tree_ok_nil].
  - pose proof H as H0.
    apply tree_ok_cons in H as (Hy & Hall & Hrest).
    destruct (decide (before buy (LevelPrice k) (LevelPrice y))) as [Hky|Hky].
    + right. rewrite (Less_true k y) by done. split_and!; [done| |].
      * constructor.
        -- intros E. rewrite E in Hky. by apply before_irrefl in Hky.
        -- eapply Forall_impl; [exact Hall|]. simpl. intros z Hz E.
           rewrite E in Hz. exact (before_asym _ _ Hky Hz).
      * exists [], (y :: t). split; [done|]. intros k' Hk' E. simpl.
        rewrite <- E in Hky. rewrite (Less_true k' y) by done. split; [done|].
        apply tree_ok_cons. split_and!; [done| |done].
        constructor; [done|].
        eapply Forall_impl; [exact Hall|]. simpl. eauto using before_trans.
    + rewrite (Less_false k y) by done.
      destruct (decide (before buy (LevelPrice y) (LevelPrice k))) as [Hyk|Hyk].
      * rewrite (Less_true y k) by done.
        destruct (IH Hrest) as [(t1 & x & t2 & -> & E & HG)|(HG & Hne & t1 & t2 & -> & Hins)].
        -- left. exists (y :: t1), x, t2. done.
        -- right. split_and!; [done| |].
           ++ constructor; [|done]. intros E. rewrite E in Hyk.
              by apply before_irrefl in Hyk.
           ++ exists (y :: t1), t2. split; [done|]. intros k' Hk' E.
              destruct (Hins k' Hk' E) as [Hr Hok]. simpl.
              rewrite <- E in Hky, Hyk.
              rewrite (Less_false k' y), (Less_true y k'), Hr by done.
              split; [done|]. apply tree_ok_cons. split_and!; [done| |done].
              apply Forall_app in Hall as [Ha1 Ha2].
              apply Forall_app. split; [done|]. by constructor.
      * left. exists [], y, t. rewrite (Less_false y k) by done.
        split_and!; [done| |done]. symmetry. by apply before_total.
Qed.

(** The tree methods keep a side index well formed. *)
Lemma tree_ok_ReplaceOrInsert t k :
  tree_ok buy t → side_ok buy k → tree_ok buy (btree.ReplaceOrInsert t k).
Proof.
  intros H Hk.
  destruct (Get_cases t k H Hk) as [(t1 & x & t2 & -> & E & _)|(_ & _ & t1 & t2 & -> & Hins)].
  - rewrite (ReplaceOrInsert_middle t1 x t2 k) by done.
    by apply (tree_ok_swap_middle t1 x k t2).
  - destruct (Hins k Hk eq_refl) as [-> ?]. done.
Qed.

Lemma tree_ok_Delete t k : tree_ok buy t → tree_ok buy (btree.Delete t k).
Proof.
  intros H. induction t as [|y t IH]; simpl; [done|].
  destruct (Less k y); [done|].
  apply tree_ok_cons in H as (Hy & Hall & Hrest).
  destruct (Less y k); [|done].
  apply tree_ok_cons. split_and!; [done| |by apply IH].
  clear IH Hrest. induction t as [|z t IHt]; simpl; [constructor|].
  apply Forall_cons in Hall as [Hz Hall].
  destruct (Less k z); [by constructor|].
  destruct (Less z k); [constructor; auto|done].
Qed.

Lemma tree_ok_middle_side t1 x t2 : tree_ok buy (t1 ++ x :: t2) → side_ok buy x.
Proof.
  intros [Hs _]. apply Forall_app in Hs as [_ Hs]. by apply Forall_cons in Hs as [? _].
Qed.

(** One level per price. *)
Lemma tree_ok_NoDup_prices t : tree_ok buy t → NoDup (LevelPrice <$> t).
Proof.
  induction t as [|y t IH]; simpl; [constructor|].
  rewrite tree_ok_cons. intros (_ & Hall & Hrest).
  constructor; [|by apply IH].
  rewrite list_elem_of_fmap. intros (z & E & Hz).
  rewrite Forall_forall in Hall. specialize (Hall z Hz). rewrite <- E in Hall.
  by apply before_irrefl in Hall.
Qed.

End order_facts.

(** ** What the operations do to a well-formed index *)

Global Instance ids_Permutation h : Proper ((≡ₚ) ==> (≡ₚ)) (ids h).
Proof. intros l1 l2 E. unfold ids. by rewrite E. Qed.

Lemma orders_of_app t1 t2 : orders_of (t1 ++ t2) = orders_of t1 ++ orders_of t2.
Proof. unfold orders_of. by rewrite fmap_app, concat_app. Qed.

Lemma orders_of_cons x t : orders_of (x :: t) = LevelOrders x ++ orders_of t.
Proof. done. Qed.

Lemma elem_of_orders_of p t :
  p ∈ orders_of t ↔ ∃ L, L ∈ t ∧ p ∈ LevelOrders L.
Proof.
  induction t as [|x t IH].
  - split; [by intros ?%elem_of_nil|]. by intros (L & ?%elem_of_nil & _).
  - rewrite orders_of_cons, elem_of_app, IH. split.
    + intros [Hp|(L & HL & Hp)]; [exists x|exists L]; split; try done;
        [apply list_elem_of_here|by apply list_elem_of_further].
    + intros (L & [->|HL]%elem_of_cons & Hp); eauto.
Qed.

Lemma tree_of_set_tree buy t ob : tree_of buy (set_tree buy t ob) = t.
Proof. by destruct buy. Qed.

Lemma tree_of_set_tree_ne buy t ob :
  tree_of (negb buy) (set_tree buy t ob) = tree_of (negb buy) ob.
Proof. by destruct buy. Qed.

Lemma filed_tree_of buy ob :
  filed ob ≡ₚ orders_of (tree_of buy ob) ++ orders_of (tree_of (negb buy) ob).
Proof. destruct buy; simpl; [done|]. unfold filed. apply Permutation_app_comm. Qed.

(** [index_of_id] stops at the first order carrying the identifier. *)
Lemma index_of_id_first h id l1 p l2 :
  Forall (λ q, OrderID (h q) ≠ id) l1 → OrderID (h p) = id →
  index_of_id h id (l1 ++ p :: l2) = Some (length l1).
Proof.
  intros Hl1 Hp. induction Hl1 as [|q l1 Hq _ IH]; simpl.
  - by rewrite bool_decide_eq_true_2.
  - by rewrite bool_decide_eq_false_2, IH.
Qed.

Lemma index_of_id_None h id l :
  Forall (λ q, OrderID (h q) ≠ id) l → index_of_id h id l = None.
Proof.
  induction 1 as [|q l Hq _ IH]; simpl; [done|].
  by rewrite bool_decide_eq_false_2, IH.
Qed.

Lemma take_drop_middle_app (l1 l2 : list loc) p :
  take (length l1) (l1 ++ p :: l2) ++ drop (S (length l1)) (l1 ++ p :: l2) = l1 ++ l2.
Proof.
  rewrite take_app_length.
  rewrite (cons_middle p l1 l2), app_assoc.
  replace (S (length l1)) with (length (l1 ++ [p])) by (rewrite length_app; simpl; lia).
  by rewrite drop_app_length.
Qed.

(** [removeOrder] on an order that sits in the level of its own price, in
    the index of its own side, behind orders of other identifiers only. *)
Lemma removeOrder_filed st p t1 L t2 l1 l2 :
  let buy := is_buy (Side (heap st p)) in
  tree_ok buy (tree_of buy (book st)) →
  tree_of buy (book st) = t1 ++ L :: t2 →
  LevelPrice L = Price (heap st p) →
  LevelOrders L = l1 ++ p :: l2 →
  Forall (λ q, OrderID (heap st q) ≠ OrderID (heap st p)) l1 →
  removeOrder st p =
    mkState (heap st) (set_tree buy (t1 ++ level_without L (l1 ++ l2) ++ t2) (book st)).
Proof.
  intros buy Hok Ht HP HL Hl1. unfold removeOrder. fold buy.
  rewrite Ht in *.
  assert (side_ok buy L) as HsL.
  { destruct Hok as [Hs _]. apply Forall_app in Hs as [_ Hs].
    by apply Forall_cons in Hs as [? _]. }
  rewrite (Get_middle buy t1 L t2) by done.
  rewrite HL, index_of_id_first by done.
  rewrite take_drop_middle_app. simpl LevelOrders.
  destruct (l1 ++ l2) as [|q rest] eqn:E; simpl.
  - by rewrite (Delete_middle buy t1 L t2).
  - by rewrite (ReplaceOrInsert_middle buy t1 L t2).
Qed.

(** [removeOrder] finds nothing to do when the level of the order's price
    is missing, or holds no order of that identifier. *)
Lemma removeOrder_absent st p :
  let buy := is_buy (Side (heap st p)) in
  tree_ok buy (tree_of buy (book st)) →
  (∀ L, L ∈ tree_of buy (book st) → LevelPrice L = Price (heap st p) →
        Forall (λ q, OrderID (heap st q) ≠ OrderID (heap st p)) (LevelOrders L)) →
  removeOrder st p = st.
Proof.
  intros buy Hok Hno. unfold removeOrder. fold buy.
  destruct (Get_cases buy (tree_of buy (book st))
              (mkPriceLevel (Price (heap st p)) [] (Side (heap st p))) Hok eq_refl)
    as [(t1 & x & t2 & Ht & E & ->)|(-> & _)]; [|done].
  rewrite index_of_id_None; [done|].
  apply Hno; [|done]. rewrite Ht. set_solver.
Qed.

(** [AddOrder] when the level of the order's price exists: the order goes to
    the back of that level. *)
Lemma AddOrder_existing st p t1 L t2 :
  let buy := is_buy (Side (heap st p)) in
  tree_ok buy (tree_of buy (book st)) →
  tree_of buy (book st) = t1 ++ L :: t2 →
  LevelPrice L = Price (heap st p) →
  AddOrder st p =
    mkState (heap st)
      (set_tree buy (t1 ++ set_LevelOrders (LevelOrders L ++ [p]) L :: t2)
         (set_Orders (<[OrderID (heap st p) := p]> (Orders (book st))) (book st))).
Proof.
  intros buy Hok Ht HP. unfold AddOrder. fold buy.
  assert (∀ m, tree_of buy (set_Orders m (book st)) = tree_of buy (book st)) as ->
    by (by destruct buy).
  rewrite Ht in *.
  assert (side_ok buy L) as HsL.
  { destruct Hok as [Hs _]. apply Forall_app in Hs as [_ Hs].
    by apply Forall_cons in Hs as [? _]. }
  rewrite (Get_middle buy t1 L t2) by done.
  by rewrite (ReplaceOrInsert_middle buy t1 L t2).
Qed.

(** [AddOrder] when no level has the order's price: a new level with the
    order alone opens at its sorted place. *)
Lemma AddOrder_new st p :
  let buy := is_buy (Side (heap st p)) in
  let o := heap st p in
  tree_ok buy (tree_of buy (book st)) →
  Forall (λ L, LevelPrice L ≠ Price o) (tree_of buy (book st)) →
  ∃ t1 t2, tree_of buy (book st) = t1 ++ t2 ∧
    tree_ok buy (t1 ++ mkPriceLevel (Price o) [p] (Side o) :: t2) ∧
    AddOrder st p =
      mkState (heap st)
        (set_tree buy (t1 ++ mkPriceLevel (Price o) [p] (Side o) :: t2)
           (set_Orders (<[OrderID o := p]> (Orders (book st))) (book st))).
Proof.
  intros buy o Hok Hne. unfold AddOrder. fold o buy.
  assert (∀ m, tree_of buy (set_Orders m (book st)) = tree_of buy (book st)) as ->
    by (by destruct buy).
  destruct (Get_cases buy (tree_of buy (book st))
              (mkPriceLevel (Price o) [] (Side o)) Hok eq_refl)
    as [(t1 & x & t2 & Ht & E & _)|(-> & _ & t1 & t2 & Ht & Hins)].
  - exfalso. rewrite Forall_forall in Hne. apply (Hne x); [|done].
    rewrite Ht. set_solver.
  - exists t1, t2. split; [done|]. unfold set_LevelOrders. simpl.
    destruct (Hins (mkPriceLevel (Price o) [p] (Side o)) eq_refl eq_refl) as [-> ?].
    done.
Qed.

(** ** Consistency of the two views of the book *)

Lemma orders_of_level_without L rest : orders_of (level_without L rest) = rest.
Proof. destruct rest; simpl; [done|]. unfold orders_of. simpl. by rewrite app_nil_r. Qed.

Lemma negb_cases (buy b : bool) : b = buy ∨ b = negb buy.
Proof. destruct buy, b; auto. Qed.

Lemma NoDup_ids_inj h l p q :
  NoDup (ids h l) → p ∈ l → q ∈ l → OrderID (h p) = OrderID (h q) → p = q.
Proof.
  unfold ids. induction l as [|x l IH]; simpl; [by intros _ ?%elem_of_nil|].
  rewrite NoDup_cons, !elem_of_cons. intros [Hx Hl] [->|Hp] [->|Hq] E; auto.
  - exfalso. apply Hx. rewrite E. by apply list_elem_of_fmap_2'  with q.
  - exfalso. apply Hx. rewrite <- E. by apply list_elem_of_fmap_2' with p.
Qed.

(** Where a filed order sits. *)
Lemma filed_locate st p :
  filed_ok st → p ∈ filed (book st) →
  let buy := is_buy (Side (heap st p)) in
  ∃ t1 L t2 l1 l2,
    tree_of buy (book st) = t1 ++ L :: t2 ∧
    LevelPrice L = Price (heap st p) ∧
    LevelOrders L = l1 ++ p :: l2 ∧
    Forall (λ q, OrderID (heap st q) ≠ OrderID (heap st p)) (l1 ++ l2).
Proof.
  intros [Hidx Hids] Hp buy.
  assert (∃ b L, L ∈ tree_of b (book st) ∧ p ∈ LevelOrders L) as (b & L & HL & HpL).
  { unfold filed in Hp. apply elem_of_app in Hp as [Hp|Hp];
      apply elem_of_orders_of in Hp as (L & ? & ?); [exists true|exists false]; eauto. }
  destruct (Hidx b) as [Htok Hlv].
  pose proof HL as HL'. rewrite Forall_forall in Hlv. apply Hlv in HL' as [_ HLall].
  rewrite Forall_forall in HLall. destruct (HLall p HpL) as [HP Hb].
  fold buy in Hb. subst b.
  apply list_elem_of_split in HL as (t1 & t2 & Ht).
  apply list_elem_of_split in HpL as (l1 & l2 & Hl).
  exists t1, L, t2, l1, l2. split_and!; [done..|].
  assert (NoDup (ids (heap st) (l1 ++ p :: l2))) as Hnd.
  { rewrite (filed_tree_of buy), Ht, orders_of_app, orders_of_cons, Hl in Hids.
    unfold ids in *. rewrite !fmap_app in Hids.
    apply NoDup_app in Hids as (Hids & _ & _).
    apply NoDup_app in Hids as (_ & _ & Hids).
    apply NoDup_app in Hids as (Hids & _ & _).
    by rewrite <- fmap_app in Hids. }
  apply Forall_forall. intros q Hq E.
  assert (q = p) as ->.
  { eapply NoDup_ids_inj; [exact Hnd| | |done].
    - rewrite elem_of_app, elem_of_cons in *. tauto.
    - rewrite elem_of_app, elem_of_cons. auto. }
  unfold ids in Hnd. rewrite fmap_app, fmap_cons in Hnd.
  apply NoDup_app in Hnd as (_ & Hd & Hnd). apply NoDup_cons in Hnd as [Hnd _].
  apply elem_of_app in Hq as [Hq|Hq].
  - apply (Hd (OrderID (heap st p))); [by apply list_elem_of_fmap_2' with p|].
    apply list_elem_of_here.
  - apply Hnd. by apply list_elem_of_fmap_2' with p.
Qed.

(** The state [removeOrder] leaves when the order is filed. *)
Lemma removeOrder_located st p t1 L t2 l1 l2 :
  let buy := is_buy (Side (heap st p)) in
  filed_ok st →
  tree_of buy (book st) = t1 ++ L :: t2 →
  LevelPrice L = Price (heap st p) →
  LevelOrders L = l1 ++ p :: l2 →
  Forall (λ q, OrderID (heap st q) ≠ OrderID (heap st p)) (l1 ++ l2) →
  removeOrder st p =
    mkState (heap st) (set_tree buy (t1 ++ level_without L (l1 ++ l2) ++ t2) (book st)).
Proof.
  intros buy [Hidx _] Ht HP HL Hne. apply Forall_app in Hne as [Hl1 _].
  apply removeOrder_filed; try done. apply Hidx.
Qed.

Lemma removeOrder_ok st p :
  filed_ok st → p ∈ filed (book st) →
  filed_ok (removeOrder st p) ∧
  heap (removeOrder st p) = heap st ∧
  Orders (book (removeOrder st p)) = Orders (book st) ∧
  LastTradedPrice (book (removeOrder st p)) = LastTradedPrice (book st) ∧
  filed (book st) ≡ₚ p :: filed (book (removeOrder st p)).
Proof.
  intros Hok Hp.
  destruct (filed_locate st p Hok Hp) as (t1 & L & t2 & l1 & l2 & Ht & HP & HL & Hne).
  rewrite (removeOrder_located st p t1 L t2 l1 l2) by done.
  set (buy := is_buy (Side (heap st p))) in *.
  destruct Hok as [Hidx Hids]. simpl.
  assert (filed (book st) ≡ₚ
          p :: filed (set_tree buy (t1 ++ level_without L (l1 ++ l2) ++ t2) (book st)))
    as Hperm.
  { rewrite !(filed_tree_of buy), tree_of_set_tree, tree_of_set_tree_ne, Ht.
    rewrite !orders_of_app, orders_of_cons, orders_of_level_without, HL.
    rewrite <- !app_assoc. simpl.
    rewrite (Permutation_middle (orders_of t1)).
    rewrite (Permutation_middle l1). done. }
  split_and!; [|done|by destruct buy|by destruct buy|done].
  split; simpl.
  - intros b. destruct (negb_cases buy b) as [->| ->].
    + rewrite tree_of_set_tree. destruct (Hidx buy) as [Htok Hlv].
      rewrite Ht in Htok, Hlv.
      apply Forall_app in Hlv as [Hlv1 Hlv2]. apply Forall_cons in Hlv2 as [HlvL Hlv2].
      destruct (l1 ++ l2) as [|q rest] eqn:E; simpl.
      * split; [by eapply tree_ok_drop_middle|]. by apply Forall_app.
      * split.
        { eapply tree_ok_swap_middle; [exact Htok| |done].
          exact (tree_ok_middle_side _ _ _ _ Htok). }
        apply Forall_app. split; [done|]. apply Forall_cons. split; [|done].
        split; [done|]. simpl. destruct HlvL as [_ HlvL]. rewrite HL in HlvL.
        rewrite <- E. apply Forall_app in HlvL as [? HlvL].
        apply Forall_cons in HlvL as [_ ?]. by apply Forall_app.
    + rewrite tree_of_set_tree_ne. apply Hidx.
  - unfold ids in *. rewrite Hperm, fmap_cons in Hids.
    by apply NoDup_cons in Hids as [_ ?].
Qed.

(** The state [AddOrder] leaves when no filed order has the identifier. *)
Lemma AddOrder_ok st p :
  filed_ok st → OrderID (heap st p) ∉ ids (heap st) (filed (book st)) →
  filed_ok (AddOrder st p) ∧
  heap (AddOrder st p) = heap st ∧
  Orders (book (AddOrder st p)) = <[OrderID (heap st p) := p]> (Orders (book st)) ∧
  LastTradedPrice (book (AddOrder st p)) = LastTradedPrice (book st) ∧
  filed (book (AddOrder st p)) ≡ₚ p :: filed (book st).
Proof.
  intros [Hidx Hids] Hfresh.
  set (buy := is_buy (Side (heap st p))).
  destruct (Hidx buy) as [Htok Hlv].
  assert (∀ t', tree_ok buy t' → Forall (level_ok (heap st) buy) t' →
            orders_of t' ≡ₚ p :: orders_of (tree_of buy (book st)) →
            let st' := mkState (heap st) (set_tree buy t'
              (set_Orders (<[OrderID (heap st p) := p]> (Orders (book st))) (book st))) in
            filed_ok st' ∧ heap st' = heap st ∧
            Orders (book st') = <[OrderID (heap st p) := p]> (Orders (book st)) ∧
            LastTradedPrice (book st') = LastTradedPrice (book st) ∧
            filed (book st') ≡ₚ p :: filed (book st)) as Hgen.
  { intros t' Htok' Hlv' Hperm st'.
    assert (filed (book st') ≡ₚ p :: filed (book st)) as HP.
    { unfold st'. simpl. rewrite !(filed_tree_of buy), tree_of_set_tree, tree_of_set_tree_ne.
      rewrite Hperm. by destruct buy. }
    split_and!; [|done|by destruct buy|by destruct buy|done].
    split.
    - intros b. destruct (negb_cases buy b) as [->| ->]; unfold st'; simpl.
      + by rewrite tree_of_set_tree.
      + rewrite tree_of_set_tree_ne.
        replace (tree_of (negb buy) (set_Orders _ (book st)))
          with (tree_of (negb buy) (book st)) by (by destruct buy).
        apply Hidx.
    - unfold ids in *. rewrite HP, fmap_cons. apply NoDup_cons. done. }
  destruct (Get_cases buy (tree_of buy (book st))
              (mkPriceLevel (Price (heap st p)) [] (Side (heap st p))) Htok eq_refl)
    as [(t1 & L & t2 & Ht & E & _)|(_ & Hne & _)].
  - simpl in E. rewrite (AddOrder_existing st p t1 L t2) by done. fold buy.
    rewrite Ht in Htok, Hlv.
    apply Forall_app in Hlv as [Hlv1 Hlv2]. apply Forall_cons in Hlv2 as [[_ HlvL] Hlv2].
    apply Hgen.
    + eapply tree_ok_swap_middle; [exact Htok| |done].
      exact (tree_ok_middle_side _ _ _ _ Htok).
    + apply Forall_app. split; [done|]. apply Forall_cons. split; [|done].
      split; simpl; [by destruct (LevelOrders L)|].
      apply Forall_app. split; [done|]. by repeat constructor.
    + rewrite Ht, !orders_of_app, !orders_of_cons. simpl.
      rewrite <- !app_assoc. simpl.
      rewrite (Permutation_middle (orders_of t1)).
      rewrite (Permutation_middle (LevelOrders L)). done.
  - simpl in Hne.
    destruct (AddOrder_new st p Htok Hne) as (t1 & t2 & Ht & Htok' & ->).
    fold buy in Ht, Htok' |- *. rewrite Ht in Hlv. apply Forall_app in Hlv as [Hlv1 Hlv2].
    apply Hgen.
    + done.
    + apply Forall_app. split; [done|]. apply Forall_cons. split; [|done].
      split; simpl; [done|]. by repeat constructor.
    + rewrite Ht, !orders_of_app, !orders_of_cons. simpl.
      by rewrite (Permutation_middle (orders_of t1)).
Qed.

(** The levels only depend on the identifier, price and side of the orders
    filed in them. *)
Lemma filed_ok_heap st h' :
  filed_ok st →
  (∀ q, q ∈ filed (book st) →
        OrderID (h' q) = OrderID (heap st q) ∧ Price (h' q) = Price (heap st q) ∧
        Side (h' q) = Side (heap st q)) →
  filed_ok (mkState h' (book st)).
Proof.
  intros [Hidx Hids] Hsame. split; simpl.
  - intros b. destruct (Hidx b) as [Htok Hlv]. split; [done|].
    apply Forall_forall. intros L HL.
    rewrite Forall_forall in Hlv. destruct (Hlv L HL) as [Hne Hall].
    split; [done|]. apply Forall_forall. intros q Hq.
    rewrite Forall_forall in Hall. destruct (Hall q Hq) as [? ?].
    assert (q ∈ filed (book st)) as Hqf.
    { rewrite (filed_tree_of b). apply elem_of_app. left.
      apply elem_of_orders_of. eauto. }
    destruct (Hsame q Hqf) as (_ & -> & ->). done.
  - replace (ids h' (filed (book st))) with (ids (heap st) (filed (book st))); [done|].
    unfold ids. apply Forall_fmap_ext, Forall_forall. intros q Hq.
    by destruct (Hsame q Hq) as (-> & _).
Qed.

(** *** The operations keep a consistent book consistent *)

Lemma consistent_fresh st id :
  consistent st → Orders (book st) !! id = None → id ∉ ids (heap st) (filed (book st)).
Proof.
  intros [_ Hmap] Hnone Hin. unfold ids in Hin.
  apply list_elem_of_fmap in Hin as (q & -> & Hq).
  assert (Orders (book st) !! OrderID (heap st q) = Some q) as E by (by apply Hmap).
  congruence.
Qed.

Lemma filed_ok_NoDup st : filed_ok st → NoDup (filed (book st)).
Proof. intros [_ Hids]. by apply NoDup_fmap_1 in Hids. Qed.

Lemma consistent_AddOrder st p :
  consistent st → Orders (book st) !! OrderID (heap st p) = None →
  consistent (AddOrder st p).
Proof.
  intros Hc Hnone. pose proof (consistent_fresh _ _ Hc Hnone) as Hfresh.
  destruct Hc as [Hok Hmap].
  destruct (AddOrder_ok st p Hok Hfresh) as (Hok' & Hh & Hm & _ & Hperm).
  split; [done|]. intros id q. rewrite Hm, Hperm, Hh, elem_of_cons.
  destruct (decide (id = OrderID (heap st p))) as [->|Hne].
  - rewrite lookup_insert_eq. split.
    + intros [= <-]. auto.
    + intros [[->|Hq] E]; [done|]. exfalso. apply Hfresh. rewrite <- E.
      by apply list_elem_of_fmap_2' with q.
  - rewrite lookup_insert_ne by done. rewrite Hmap. split; [tauto|].
    intros [[->|Hq] E]; [congruence|done].
Qed.

(** Taking a registered order out of its level and out of the map. *)
Lemma consistent_remove st p :
  consistent st → Orders (book st) !! OrderID (heap st p) = Some p →
  consistent (delete_Orders (OrderID (heap st p)) (removeOrder st p)) ∧
  filed (book st) ≡ₚ
    p :: filed (book (delete_Orders (OrderID (heap st p)) (removeOrder st p))).
Proof.
  intros [Hok Hmap] Hp.
  assert (p ∈ filed (book st)) as Hpf by (by apply Hmap in Hp as [? _]).
  destruct (removeOrder_ok st p Hok Hpf) as (Hok' & Hh & Hm & _ & Hperm).
  pose proof (filed_ok_NoDup _ Hok) as Hnd. rewrite Hperm in Hnd.
  apply NoDup_cons in Hnd as [Hpn _].
  assert (∀ m, filed (set_Orders m (book (removeOrder st p)))
               = filed (book (removeOrder st p))) as Hf by done.
  split; [|by simpl; rewrite Hf].
  split.
  - destruct Hok' as [Hidx Hids]. split; simpl; [|by rewrite Hf].
    intros b. specialize (Hidx b). by destruct b.
  - intros id q. simpl. rewrite Hf, Hm, Hh.
    destruct (decide (id = OrderID (heap st p))) as [->|Hne].
    + rewrite lookup_delete_eq. split; [done|]. intros [Hq E]. exfalso.
      assert (q = p) as ->; [|done].
      eapply (NoDup_ids_inj (heap st) (filed (book st))); [apply Hok| |done|done].
      rewrite Hperm. by apply list_elem_of_further.
    + rewrite lookup_delete_ne by done. rewrite Hmap, Hperm, elem_of_cons.
      split; [|tauto]. intros [[->|Hq] E]; [congruence|done].
Qed.

(** Writing to an order without touching its identifier, price or side. *)
Lemma consistent_heap st h' :
  consistent st →
  (∀ q, OrderID (h' q) = OrderID (heap st q) ∧ Price (h' q) = Price (heap st q) ∧
        Side (h' q) = Side (heap st q)) →
  consistent (mkState h' (book st)).
Proof.
  intros [Hok Hmap] Hsame. split; [apply filed_ok_heap; auto|].
  intros id q. simpl. destruct (Hsame q) as (-> & _). apply Hmap.
Qed.

Lemma store_lookup h p o q :
  store h p o q = if bool_decide (q = p) then o else h q.
Proof. done. Qed.

Lemma store_eq h p o : store h p o p = o.
Proof. unfold store. by rewrite bool_decide_eq_true_2. Qed.

Lemma store_ne h p o q : q ≠ p → store h p o q = h q.
Proof. intros. unfold store. by rewrite bool_decide_eq_false_2. Qed.

(** Amending the price or the side: out of the old level, to the back of
    the new one; the map entry stays. *)
Lemma consistent_refile st p o' :
  consistent st → Orders (book st) !! OrderID (heap st p) = Some p →
  OrderID o' = OrderID (heap st p) →
  consistent
    (AddOrder (mkState (store (heap (removeOrder st p)) p o') (book (removeOrder st p))) p).
Proof.
  intros [Hok Hmap] Hp Hid.
  assert (p ∈ filed (book st)) as Hpf by (by apply Hmap in Hp as [? _]).
  destruct (removeOrder_ok st p Hok Hpf) as (Hok1 & Hh1 & Hm1 & _ & Hperm1).
  pose proof (filed_ok_NoDup _ Hok) as Hnd. rewrite Hperm1 in Hnd.
  apply NoDup_cons in Hnd as [Hpn _].
  set (st1 := removeOrder st p) in *.
  set (st2 := mkState (store (heap st1) p o') (book st1)).
  assert (∀ q, q ∈ filed (book st1) → heap st2 q = heap st q) as Hsame.
  { intros q Hq. simpl. rewrite store_ne, Hh1; [done|]. by intros ->. }
  assert (filed_ok st2) as Hok2.
  { apply (filed_ok_heap st1); [done|]. intros q Hq.
    pose proof (Hsame q Hq) as E. simpl in E. by rewrite E, Hh1. }
  assert (heap st2 p = o') as Hp2 by apply store_eq.
  assert (ids (heap st2) (filed (book st2)) = ids (heap st) (filed (book st1))) as Hids2.
  { unfold ids. apply Forall_fmap_ext, Forall_forall. intros q Hq. by rewrite Hsame. }
  assert (OrderID (heap st2 p) ∉ ids (heap st2) (filed (book st2))) as Hfresh.
  { rewrite Hids2, Hp2, Hid.
    destruct Hok as [_ Hids]. rewrite Hperm1 in Hids. unfold ids in *.
    rewrite fmap_cons in Hids. by apply NoDup_cons in Hids as [? _]. }
  destruct (AddOrder_ok st2 p Hok2 Hfresh) as (Hok3 & Hh3 & Hm3 & _ & Hperm3).
  split; [done|]. intros id q.
  rewrite Hm3, Hperm3, Hh3, Hp2, Hid. simpl. rewrite Hm1, insert_id by done.
  change (filed (book st2)) with (filed (book st1)). rewrite <- Hperm1, Hmap.
  destruct (decide (q = p)) as [->|Hne].
  - by rewrite store_eq, Hid.
  - by rewrite store_ne, Hh1.
Qed.

Lemma consistent_RemoveOrder st id :
  consistent st → consistent (RemoveOrder st id).1.
Proof.
  intros Hc. unfold RemoveOrder.
  destruct (Orders (book st) !! id) as [p|] eqn:E; simpl; [|done].
  assert (OrderID (heap st p) = id) as <- by (by apply Hc in E as [_ ?]).
  by apply consistent_remove.
Qed.

Lemma consistent_ModifyOrderPrice st id newPrice :
  consistent st → consistent (ModifyOrderPrice st id newPrice).1.
Proof.
  intros Hc. unfold ModifyOrderPrice.
  destruct (Orders (book st) !! id) as [p|] eqn:E; simpl; [|done].
  assert (OrderID (heap st p) = id) as <- by (by apply Hc in E as [_ ?]).
  apply consistent_refile; [done..|].
  assert (heap (removeOrder st p) = heap st) as ->; [|done].
  apply removeOrder_ok; [apply Hc|]. by apply Hc in E as [? _].
Qed.

Lemma consistent_ModifyOrderSide st id newSide :
  consistent st → consistent (ModifyOrderSide st id newSide).1.
Proof.
  intros Hc. unfold ModifyOrderSide.
  destruct (_ && _); [done|].
  destruct (Orders (book st) !! id) as [p|] eqn:E; simpl; [|done].
  assert (OrderID (heap st p) = id) as <- by (by apply Hc in E as [_ ?]).
  apply consistent_refile; [done..|].
  assert (heap (removeOrder st p) = heap st) as ->; [|done].
  apply removeOrder_ok; [apply Hc|]. by apply Hc in E as [? _].
Qed.

Lemma consistent_set_Quantity st p v :
  consistent st →
  consistent (mkState (store (heap st) p (set_Quantity v (heap st p))) (book st)).
Proof.
  intros Hc. apply consistent_heap; [done|]. intros q. simpl.
  rewrite store_lookup. by case_bool_decide; subst.
Qed.

Lemma consistent_ModifyOrderQuantity st id newQuantity :
  consistent st → consistent (ModifyOrderQuantity st id newQuantity).1.
Proof.
  intros Hc. unfold ModifyOrderQuantity.
  case_bool_decide; [done|].
  destruct (Orders (book st) !! id) as [p|] eqn:E; simpl; [|done].
  assert (OrderID (heap st p) = id) as <- by (by apply Hc in E as [_ ?]).
  case_bool_decide; simpl.
  - by apply consistent_remove.
  - by apply consistent_set_Quantity.
Qed.

(** *** Matching on a consistent book *)

Lemma GetBestBid_cons ob hb tb :
  BuyTree ob = hb :: tb → GetBestBid ob = (LevelPrice hb, true).
Proof. unfold GetBestBid. by intros ->. Qed.

Lemma GetBestAsk_cons ob ls ts :
  SellTree ob = ls :: ts → GetBestAsk ob = (LevelPrice ls, true).
Proof. unfold GetBestAsk. by intros ->. Qed.

Lemma GetBestBid_nil ob : BuyTree ob = [] → GetBestBid ob = (0%Qc, false).
Proof. unfold GetBestBid. by intros ->. Qed.

Lemma GetBestAsk_nil ob : SellTree ob = [] → GetBestAsk ob = (0%Qc, false).
Proof. unfold GetBestAsk. by intros ->. Qed.

(** The loop only stops on a book that is not crossed. *)
Lemma MatchOrders_body_Break st : MatchOrders_body st = Break → ¬ crossed (book st).
Proof.
  unfold MatchOrders_body, btree.Min. intros Hb (bid & ask & Hbid & Hask & Hle).
  destruct (BuyTree (book st)) as [|hb tb] eqn:EB.
  { by rewrite (GetBestBid_nil _ EB) in Hbid. }
  destruct (SellTree (book st)) as [|ls ts] eqn:ES.
  { by rewrite (GetBestAsk_nil _ ES) in Hask. }
  rewrite (GetBestBid_cons _ _ _ EB) in Hbid. rewrite (GetBestAsk_cons _ _ _ ES) in Hask.
  simplify_eq. simpl in Hb. rewrite bool_decide_eq_true_2 in Hb by done.
  destruct (LevelOrders hb !! 0%nat), (LevelOrders ls !! 0%nat); done.
Qed.

Lemma min_cases a b : min a b = a ∨ min a b = b.
Proof. unfold min. case_bool_decide; auto. Qed.

Lemma Qcminus_diag (a : Qc) : (a - a = 0)%Qc.
Proof. apply Qcplus_opp_r. Qed.

(** A trade between the front orders of a consistent book leaves it
    consistent and takes at least one order out. *)
Lemma execute_trade_consistent st b0 s0 :
  consistent st → b0 ∈ filed (book st) → s0 ∈ filed (book st) → b0 ≠ s0 →
  consistent (execute_trade st b0 s0).2 ∧
  length (filed (book (execute_trade st b0 s0).2)) < length (filed (book st)).
Proof.
  intros Hc Hb Hs Hne. unfold execute_trade. cbv zeta. simpl snd.
  set (m := min (Quantity (heap st b0)) (Quantity (heap st s0))).
  set (h1 := store (heap st) b0 (set_Quantity (Quantity (heap st b0) - m)%Qc (heap st b0))).
  set (h2 := store h1 s0 (set_Quantity (Quantity (h1 s0) - m)%Qc (h1 s0))).
  set (st2 := mkState h2 (set_LastTradedPrice (Price (heap st s0)) (book st))).
  assert (consistent st2) as Hc2.
  { pose proof (consistent_set_Quantity _ s0 (Quantity (h1 s0) - m)%Qc
                  (consistent_set_Quantity _ b0 (Quantity (heap st b0) - m)%Qc Hc))
      as [[Hidx Hids] Hmap].
    split; [split|]; simpl in *; [|done..].
    intros b. specialize (Hidx b). by destruct b. }
  assert (filed (book st2) = filed (book st)) as Hf2 by done.
  assert (Quantity (h2 b0) = (Quantity (heap st b0) - m)%Qc) as Hqb.
  { unfold h2. rewrite store_ne by done. unfold h1. by rewrite store_eq. }
  assert (Quantity (h2 s0) = (Quantity (heap st s0) - m)%Qc) as Hqs.
  { unfold h2. rewrite store_eq. simpl. unfold h1. by rewrite store_ne. }
  assert (Quantity (h2 b0) = 0%Qc ∨ Quantity (h2 s0) = 0%Qc) as Hzero.
  { rewrite Hqb, Hqs. destruct (min_cases (Quantity (heap st b0)) (Quantity (heap st s0)))
      as [E|E]; fold m in E; rewrite E; auto using Qcminus_diag. }
  assert (∀ p, p ∈ filed (book st2) → Orders (book st2) !! OrderID (heap st2 p) = Some p)
    as Hreg by (intros p Hp; by apply Hc2).
  change (heap st2) with h2 in *.
  set (st3 := if bool_decide (Quantity (h2 b0) = 0%Qc)
              then delete_Orders (OrderID (h2 b0)) (removeOrder st2 b0) else st2).
  assert (consistent st3 ∧ heap st3 = h2 ∧ s0 ∈ filed (book st3) ∧
          (if bool_decide (Quantity (h2 b0) = 0%Qc)
           then filed (book st) ≡ₚ b0 :: filed (book st3)
           else filed (book st3) = filed (book st))) as (Hc3 & Hh3 & Hs3 & Hlen3).
  { unfold st3. case_bool_decide as Hz.
    - destruct (consistent_remove st2 b0 Hc2) as [Hc3 Hperm]; [by apply Hreg|].
      split_and!; [done| | |by rewrite <- Hf2].
      + simpl. by apply removeOrder_ok; [apply Hc2|].
      + rewrite <- Hf2, Hperm in Hs. apply elem_of_cons in Hs as [->|?]; done.
    - by rewrite Hf2. }
  rewrite Hh3. clearbody st3.
  destruct (decide (Quantity (h2 s0) = 0%Qc)) as [Hz|Hz];
    [rewrite (bool_decide_eq_true_2 _ Hz)|rewrite (bool_decide_eq_false_2 _ Hz)].
  - destruct (consistent_remove st3 s0 Hc3) as [Hc4 Hperm].
    { by apply Hc3. }
    rewrite Hh3 in Hc4, Hperm. split; [done|].
    assert (length (filed (book st3)) ≤ length (filed (book st)))%nat as Hle.
    { destruct (bool_decide (Quantity (h2 b0) = 0%Qc)).
      - apply Permutation_length in Hlen3. rewrite Hlen3. simpl. lia.
      - by rewrite Hlen3. }
    apply Permutation_length in Hperm. rewrite Hperm in Hle. simpl in Hle |- *. lia.
  - split; [done|]. destruct Hzero as [Hz'|Hz']; [|done].
    rewrite bool_decide_eq_true_2 in Hlen3 by done.
    apply Permutation_length in Hlen3. rewrite Hlen3. simpl. lia.
Qed.

(** The best level of each side of a consistent book has a front order, and
    the two front orders are different orders. *)
Lemma consistent_front st buy L t :
  consistent st → tree_of buy (book st) = L :: t →
  ∃ p rest, LevelOrders L = p :: rest ∧ p ∈ filed (book st) ∧
            Price (heap st p) = LevelPrice L ∧ is_buy (Side (heap st p)) = buy.
Proof.
  intros [[Hidx _] _] Ht. destruct (Hidx buy) as [_ Hlv]. rewrite Ht in Hlv.
  apply Forall_cons in Hlv as [[Hne Hall] _].
  destruct (LevelOrders L) as [|p rest] eqn:E; [done|].
  apply Forall_cons in Hall as [[? ?] _].
  exists p, rest. split_and!; [done| |done..].
  rewrite (filed_tree_of buy), Ht, orders_of_cons, E. apply elem_of_app. left.
  apply elem_of_app. left. apply list_elem_of_here.
Qed.

(** The loop body, read off the fronts of the two indexes. *)
Lemma MatchOrders_body_fronts st hb tb ls ts b0 rb s0 rs :
  BuyTree (book st) = hb :: tb → SellTree (book st) = ls :: ts →
  LevelOrders hb = b0 :: rb → LevelOrders ls = s0 :: rs →
  MatchOrders_body st =
    if bool_decide (LevelPrice ls ≤ LevelPrice hb)%Qc
    then Again (execute_trade st b0 s0).1 (execute_trade st b0 s0).2
    else Break.
Proof.
  intros EB ES Eb Es. unfold MatchOrders_body. rewrite EB, ES. simpl btree.Min. cbv iota beta.
  rewrite Eb, Es. simpl lookup. cbv iota beta.
  destruct (bool_decide _); [|done]. by destruct (execute_trade st b0 s0).
Qed.

Lemma MatchOrders_body_consistent st :
  consistent st →
  match MatchOrders_body st with
  | Break => ¬ crossed (book st)
  | Again _ st' =>
      consistent st' ∧ length (filed (book st')) < length (filed (book st))
  | Panic => False
  end.
Proof.
  intros Hc.
  destruct (BuyTree (book st)) as [|hb tb] eqn:EB.
  { unfold MatchOrders_body. rewrite EB. simpl. apply MatchOrders_body_Break.
    unfold MatchOrders_body. by rewrite EB. }
  destruct (SellTree (book st)) as [|ls ts] eqn:ES.
  { unfold MatchOrders_body. rewrite EB, ES. simpl. apply MatchOrders_body_Break.
    unfold MatchOrders_body. by rewrite EB, ES. }
  destruct (consistent_front st true hb tb Hc EB) as (b0 & rb & Eb & Hb & _ & Hbs).
  destruct (consistent_front st false ls ts Hc ES) as (s0 & rs & Es & Hs & _ & Hss).
  pose proof (MatchOrders_body_fronts st hb tb ls ts b0 rb s0 rs EB ES Eb Es) as E.
  destruct (bool_decide (LevelPrice ls ≤ LevelPrice hb)%Qc) eqn:Hx; rewrite E.
  - apply execute_trade_consistent; try done. intros ->. congruence.
  - apply MatchOrders_body_Break. by rewrite E.
Qed.

(** [MatchOrders] returns on every consistent book, after at most one pass
    per filed order and a last one that finds the book uncrossed. *)
Lemma MatchOrders_consistent fuel st :
  consistent st → length (filed (book st)) < fuel →
  ∃ ts st', MatchOrders fuel st = Returned ts st' ∧ consistent st' ∧ ¬ crossed (book st').
Proof.
  revert st. induction fuel as [|fuel IH]; intros st Hc Hlen; [lia|].
  simpl. pose proof (MatchOrders_body_consistent st Hc) as Hbody.
  destruct (MatchOrders_body st) as [|t st1|]; [by eauto| |done].
  destruct Hbody as [Hc1 Hlt].
  destruct (IH st1 Hc1) as (ts & st' & -> & ? & ?); [lia|]. eauto.
Qed.

Lemma MatchOrders_Returned_consistent fuel st ts st' :
  consistent st → MatchOrders fuel st = Returned ts st' → consistent st'.
Proof.
  revert st ts st'. induction fuel as [|fuel IH]; intros st ts st' Hc; simpl; [done|].
  pose proof (MatchOrders_body_consistent st Hc) as Hbody.
  destruct (MatchOrders_body st) as [|t st1|]; [by intros [= _ <-]| |done].
  destruct Hbody as [Hc1 _].
  destruct (MatchOrders fuel st1) as [ts1 st1'| |] eqn:E; [|done..].
  intros [= _ <-]. eauto.
Qed.

(** ** Sortedness of the indexes, whatever the identifiers *)

Lemma Get_side_ok buy t k x :
  tree_ok buy t → side_ok buy k → btree.Get t k = Some x →
  side_ok buy x ∧ LevelPrice x = LevelPrice k ∧ x ∈ t.
Proof.
  intros Hok Hk HG.
  destruct (Get_cases buy t k Hok Hk) as [(t1 & y & t2 & -> & E & HG')|(HG' & _)];
    [|congruence].
  assert (y = x) as -> by congruence.
  split_and!; [by eapply tree_ok_middle_side|done|].
  apply elem_of_app. right. apply list_elem_of_here.
Qed.

Lemma trees_ok_set_tree buy t ob :
  trees_ok ob → tree_ok buy t → trees_ok (set_tree buy t ob).
Proof.
  intros Hok Ht b. destruct (negb_cases buy b) as [->| ->].
  - by rewrite tree_of_set_tree.
  - rewrite tree_of_set_tree_ne. apply Hok.
Qed.

Lemma trees_ok_AddOrder st p : trees_ok (book st) → trees_ok (book (AddOrder st p)).
Proof.
  intros Hok. unfold AddOrder.
  set (buy := is_buy (Side (heap st p))).
  set (ob := set_Orders _ (book st)).
  assert (trees_ok ob) as Hob by (intros b; specialize (Hok b); by destruct b).
  pose proof (Hob buy) as Hbuy.
  destruct (btree.Get (tree_of buy ob) _) as [x|] eqn:HG; simpl.
  - apply Get_side_ok with (buy := buy) in HG as (Hx & _ & _); [|done..].
    apply trees_ok_set_tree; [done|]. by apply tree_ok_ReplaceOrInsert.
  - apply trees_ok_set_tree; [done|]. by apply tree_ok_ReplaceOrInsert.
Qed.

Lemma trees_ok_removeOrder st p : trees_ok (book st) → trees_ok (book (removeOrder st p)).
Proof.
  intros Hok. unfold removeOrder.
  set (buy := is_buy (Side (heap st p))).
  pose proof (Hok buy) as Hbuy.
  destruct (btree.Get (tree_of buy (book st)) _) as [x|] eqn:HG; [|done].
  apply Get_side_ok with (buy := buy) in HG as (Hx & _ & _); [|done..].
  destruct (index_of_id _ _ _) as [idx|]; [|done].
  case_bool_decide; simpl; apply trees_ok_set_tree; try done.
  - by apply tree_ok_Delete.
  - by apply tree_ok_ReplaceOrInsert.
Qed.

Lemma trees_ok_execute_trade st b0 s0 :
  trees_ok (book st) → trees_ok (book (execute_trade st b0 s0).2).
Proof.
  intros Hok. unfold execute_trade. cbv zeta. simpl snd.
  match goal with |- context [mkState ?h (set_LastTradedPrice ?v (book st))] =>
    set (st2 := mkState h (set_LastTradedPrice v (book st))) end.
  assert (trees_ok (book st2)) as Hok2 by (intros b; specialize (Hok b); by destruct b).
  assert (∀ s id q, trees_ok (book s) → trees_ok (book (delete_Orders id (removeOrder s q))))
    as Hrm.
  { intros s id q Hs. pose proof (trees_ok_removeOrder s q Hs) as H'.
    intros b. specialize (H' b). simpl. by destruct b. }
  repeat case_bool_decide; auto.
Qed.

(** ** Invariants of the reachable states *)

Lemma MatchOrders_trees_ok fuel st ts st' :
  trees_ok (book st) → MatchOrders fuel st = Returned ts st' → trees_ok (book st').
Proof.
  revert st ts st'. induction fuel as [|fuel IH]; intros st ts st' Hok; simpl; [done|].
  destruct (MatchOrders_body st) as [|t st1|] eqn:E; [by intros [= _ <-]| |done].
  assert (trees_ok (book st1)) as Hok1.
  { revert E. unfold MatchOrders_body.
    destruct (btree.Min (BuyTree (book st))); [|done].
    destruct (btree.Min (SellTree (book st))); [|done].
    destruct (bool_decide _); [|done].
    destruct (_ !! _) as [b0|]; [|done]. destruct (_ !! _) as [s0|]; [|done].
    pose proof (trees_ok_execute_trade st b0 s0 Hok) as H'.
    destruct (execute_trade st b0 s0). intros [= _ <-]. done. }
  destruct (MatchOrders fuel st1) as [ts1 st1'| |] eqn:E1; [|done..].
  intros [= _ <-]. eauto.
Qed.

Lemma run_trees_ok st c st' : trees_ok (book st) → run st c st' → trees_ok (book st').
Proof.
  intros Hok. destruct c; simpl.
  - intros ->. by apply trees_ok_AddOrder.
  - intros ->. unfold RemoveOrder. destruct (_ !! _); simpl; [|done].
    pose proof (trees_ok_removeOrder st l Hok) as H'.
    intros b. specialize (H' b). by destruct b.
  - intros ->. unfold ModifyOrderPrice. destruct (_ !! _); simpl; [|done].
    apply trees_ok_AddOrder. simpl. by apply trees_ok_removeOrder.
  - intros ->. unfold ModifyOrderSide. destruct (_ && _); [done|].
    destruct (_ !! _); simpl; [|done].
    apply trees_ok_AddOrder. simpl. by apply trees_ok_removeOrder.
  - intros ->. unfold ModifyOrderQuantity. case_bool_decide; [done|].
    destruct (_ !! _); simpl; [|done]. case_bool_decide; simpl; [|done].
    pose proof (trees_ok_removeOrder st l Hok) as H'.
    intros b. specialize (H' b). by destruct b.
  - intros (fuel & ts & E). by eapply MatchOrders_trees_ok.
Qed.

Lemma reachable_trees_ok allowed st : reachable allowed st → trees_ok (book st).
Proof.
  induction 1 as [h|st c st' _ IH _ Hrun].
  - intros []; apply tree_ok_nil.
  - by eapply run_trees_ok.
Qed.

Lemma consistent_new h : consistent (mkState h NewOrderBook).
Proof.
  split; [split|]; simpl.
  - intros []; simpl; (split; [apply tree_ok_nil|constructor]).
  - constructor.
  - intros id p. rewrite lookup_empty. split; [done|]. by intros [?%elem_of_nil _].
Qed.

Lemma run_consistent st c st' :
  consistent st → fresh_ids st c → run st c st' → consistent st'.
Proof.
  intros Hc Hfresh. destruct c; simpl in *.
  - intros ->. by apply consistent_AddOrder.
  - intros ->. by apply consistent_RemoveOrder.
  - intros ->. by apply consistent_ModifyOrderPrice.
  - intros ->. by apply consistent_ModifyOrderSide.
  - intros ->. by apply consistent_ModifyOrderQuantity.
  - intros (fuel & ts & E). by eapply MatchOrders_Returned_consistent.
Qed.

(** With fresh identifiers on every [AddOrder], the book stays consistent. *)
Lemma reachable_consistent st : reachable fresh_ids st → consistent st.
Proof.
  induction 1 as [h|st c st' _ IH Hall Hrun].
  - apply consistent_new.
  - by eapply run_consistent.
Qed.

(** More fuel does not change what [MatchOrders] returns. *)
Lemma MatchOrders_more_fuel fuel fuel' st ts st' :
  MatchOrders fuel st = Returned ts st' → (fuel ≤ fuel')%nat →
  MatchOrders fuel' st = Returned ts st'.
Proof.
  revert fuel' st ts st'. induction fuel as [|fuel IH]; intros fuel' st ts st'; simpl; [done|].
  intros E Hle. destruct fuel' as [|fuel']; [lia|]. simpl.
  destruct (MatchOrders_body st) as [|t st1|]; [done| |done].
  destruct (MatchOrders fuel st1) as [ts1 st1'| |] eqn:E1; [|done..].
  rewrite (IH fuel' st1 ts1 st1' E1) by lia. done.
Qed.

(** * Properties of the order book *)

Lemma Qc_eq_this (a b : Qc) : (this a == this b)%Q → a = b.
Proof. apply Qc_is_canon. Qed.

(** C1.  The demonstration run: on a new book, add buy B1 (price 100,
    quantity 10), sell S1 (105, 5), buy B2 (102, 7) and sell S2 (99, 8), then
    match.  [MatchOrders] returns after two trades and a third pass; the bid
    side then holds exactly B1 at 100 with quantity 9, the ask side exactly
    S1 at 105 with quantity 5, the map holds exactly these two, the last
    traded price is 99 and [GetCurrentMarketPrice] answers 99. *)
Theorem C1_main_scenario :
  ∀ extra : nat, ∃ trades st,
    MatchOrders (3 + extra) main_added = Returned trades st ∧
    BuyTree (book st) = [mkPriceLevel (Qc_of_Z 100) [B1] "buy"] ∧
    SellTree (book st) = [mkPriceLevel (Qc_of_Z 105) [S1] "sell"] ∧
    Orders (book st) = {[ "B1" := B1; "S1" := S1 ]} ∧
    OrderID (heap st B1) = "B1" ∧ Price (heap st B1) = Qc_of_Z 100 ∧
    Quantity (heap st B1) = Qc_of_Z 9 ∧ Side (heap st B1) = "buy" ∧
    OrderID (heap st S1) = "S1" ∧ Price (heap st S1) = Qc_of_Z 105 ∧
    Quantity (heap st S1) = Qc_of_Z 5 ∧ Side (heap st S1) = "sell" ∧
    LastTradedPrice (book st) = Qc_of_Z 99 ∧
    GetCurrentMarketPrice (book st) = (Qc_of_Z 99, true) ∧
    (TradeBuyID <$> trades) = ["B2"; "B1"] ∧ (TradeSellID <$> trades) = ["S2"; "S2"] ∧
    (TradePrice <$> trades) = [Qc_of_Z 99; Qc_of_Z 99] ∧
    (this ∘ TradeQuantity <$> trades) = [7%Q; 1%Q].
Proof.
  intros extra.
  destruct (MatchOrders 3 main_added) as [trades st| |] eqn:E;
    [|by vm_compute in E..].
  exists trades, st. split.
  { eapply MatchOrders_more_fuel; [exact E|lia]. }
  assert (Returned trades st = MatchOrders 3 main_added) as E' by done.
  clear E. vm_compute in E'. injection E' as -> ->.
  split_and!; try (by vm_compute); try (apply Qc_eq_this; by vm_compute).
Qed.

(** The book of the demonstration run, before matching, is reachable. *)
Lemma main_added_reachable allowed :
  (∀ st order, allowed st (CallAddOrder order)) → reachable allowed main_added.
Proof.
  intros Hall. unfold main_added.
  repeat (eapply (reachable_run _ _ (CallAddOrder _)); [|apply Hall|reflexivity]).
  apply reachable_new.
Qed.

(** C5.  In every reachable state, whatever calls led to it, enumerating a
    side index best first gives strictly monotone prices: strictly
    decreasing for the bids, strictly increasing for the asks; and no two
    entries of one index have the same price. *)
Theorem C5_best_first_prices_strictly_monotone (st : State) :
  reachable any_call st →
  StronglySorted (λ a b, (b < a)%Qc) (LevelPrice <$> btree.Ascend (BuyTree (book st))) ∧
  StronglySorted (λ a b, (a < b)%Qc) (LevelPrice <$> btree.Ascend (SellTree (book st))) ∧
  (∀ buy i j Li Lj,
     tree_of buy (book st) !! i = Some Li → tree_of buy (book st) !! j = Some Lj →
     LevelPrice Li = LevelPrice Lj → i = j).
Proof.
  intros Hr. pose proof (reachable_trees_ok _ _ Hr) as Hok.
  unfold btree.Ascend. split_and!.
  - destruct (Hok true) as [_ Hs]. by eapply StronglySorted_fmap; [|exact Hs].
  - destruct (Hok false) as [_ Hs]. by eapply StronglySorted_fmap; [|exact Hs].
  - intros buy i j Li Lj Hi Hj E.
    pose proof (tree_ok_NoDup_prices buy _ (Hok buy)) as Hnd.
    assert ((LevelPrice <$> tree_of buy (book st)) !! i = Some (LevelPrice Li)) as Hi'
      by (by rewrite list_lookup_fmap, Hi).
    assert ((LevelPrice <$> tree_of buy (book st)) !! j = Some (LevelPrice Li)) as Hj'
      by (by rewrite list_lookup_fmap, Hj, E).
    exact (proj1 (NoDup_alt _) Hnd i j _ Hi' Hj').
Qed.

Lemma C5_witness :
  StronglySorted (λ a b, (b < a)%Qc)
    (LevelPrice <$> btree.Ascend (BuyTree (book main_added))) ∧
  StronglySorted (λ a b, (a < b)%Qc)
    (LevelPrice <$> btree.Ascend (SellTree (book main_added))) ∧
  (∀ buy i j Li Lj,
     tree_of buy (book main_added) !! i = Some Li →
     tree_of buy (book main_added) !! j = Some Lj →
     LevelPrice Li = LevelPrice Lj → i = j).
Proof.
  apply (C5_best_first_prices_strictly_monotone main_added).
  apply main_added_reachable. intros; exact I.
Defined.

(** C6.  When [RemoveOrder], [ModifyOrderPrice], [ModifyOrderSide] or
    [ModifyOrderQuantity] returns an error, the state after the call is the
    state before it: both indexes, the id-lookup map, the last traded price
    and every order are untouched. *)
Theorem C6_error_leaves_state_unchanged
    (st : State) (orderID : string) (newPrice : Qc) (newSide : string)
    (newQuantity : Qc) (msg : string) :
  ((RemoveOrder st orderID).2 = Some msg → (RemoveOrder st orderID).1 = st) ∧
  ((ModifyOrderPrice st orderID newPrice).2 = Some msg →
   (ModifyOrderPrice st orderID newPrice).1 = st) ∧
  ((ModifyOrderSide st orderID newSide).2 = Some msg →
   (ModifyOrderSide st orderID newSide).1 = st) ∧
  ((ModifyOrderQuantity st orderID newQuantity).2 = Some msg →
   (ModifyOrderQuantity st orderID newQuantity).1 = st).
Proof.
  unfold RemoveOrder, ModifyOrderPrice, ModifyOrderSide, ModifyOrderQuantity.
  split_and!.
  - by destruct (Orders (book st) !! orderID).
  - by destruct (Orders (book st) !! orderID).
  - destruct (_ && _); [done|]. by destruct (Orders (book st) !! orderID).
  - case_bool_decide; [done|]. destruct (Orders (book st) !! orderID); [|done].
    by case_bool_decide.
Qed.

(** The four error returns, each on the book of the demonstration run. *)
Lemma C6_witness :
  (RemoveOrder main_added "X9").1 = main_added ∧
  (ModifyOrderPrice main_added "X9" (Qc_of_Z 98)).1 = main_added ∧
  (ModifyOrderSide main_added "B1" "hold").1 = main_added ∧
  (ModifyOrderQuantity main_added "B1" (Qc_of_Z (-1))).1 = main_added.
Proof.
  split_and!.
  - apply (C6_error_leaves_state_unchanged main_added "X9" 0%Qc "" 0%Qc "order not found").
    by vm_compute.
  - apply (C6_error_leaves_state_unchanged main_added "X9" (Qc_of_Z 98) "" 0%Qc
             "order not found").
    by vm_compute.
  - apply (C6_error_leaves_state_unchanged main_added "B1" 0%Qc "hold" 0%Qc "invalid side").
    by vm_compute.
  - apply (C6_error_leaves_state_unchanged main_added "B1" 0%Qc "" (Qc_of_Z (-1))
             "invalid quantity").
    by vm_compute.
Defined.

(** C9.  [GetCurrentMarketPrice] answers the last traded price when it is
    not zero; otherwise it answers what [GetMidPrice] answers.  [GetMidPrice]
    answers the arithmetic mean of the best bid and the best ask, and does so
    exactly when both indexes are non-empty.  With no trade yet and a side
    empty, [GetCurrentMarketPrice] reports that no price is available. *)
Theorem C9_current_market_price (ob : OrderBook) :
  (LastTradedPrice ob ≠ 0%Qc → GetCurrentMarketPrice ob = (LastTradedPrice ob, true)) ∧
  (LastTradedPrice ob = 0%Qc → GetCurrentMarketPrice ob = GetMidPrice ob) ∧
  (∀ bid ask, GetBestBid ob = (bid, true) → GetBestAsk ob = (ask, true) →
     GetMidPrice ob = ((bid + ask) / Qc_of_Z 2, true)%Qc) ∧
  ((GetMidPrice ob).2 = true ↔
     btree.Len (BuyTree ob) ≠ 0%nat ∧ btree.Len (SellTree ob) ≠ 0%nat) ∧
  (LastTradedPrice ob = 0%Qc →
   btree.Len (BuyTree ob) = 0%nat ∨ btree.Len (SellTree ob) = 0%nat →
   GetCurrentMarketPrice ob = (0%Qc, false)).
Proof.
  assert (GetMidPrice ob =
          if (GetBestBid ob).2 && (GetBestAsk ob).2
          then (((GetBestBid ob).1 + (GetBestAsk ob).1) / Qc_of_Z 2, true)%Qc
          else (0%Qc, false)) as Hmid.
  { unfold GetMidPrice. by destruct (GetBestBid ob), (GetBestAsk ob). }
  assert ((GetBestBid ob).2 = true ↔ btree.Len (BuyTree ob) ≠ 0%nat) as Hbid.
  { unfold GetBestBid, btree.Len, btree.Min. by destruct (BuyTree ob). }
  assert ((GetBestAsk ob).2 = true ↔ btree.Len (SellTree ob) ≠ 0%nat) as Hask.
  { unfold GetBestAsk, btree.Len, btree.Min. by destruct (SellTree ob). }
  assert (LastTradedPrice ob = 0%Qc → GetCurrentMarketPrice ob = GetMidPrice ob) as Hcur.
  { intros E. unfold GetCurrentMarketPrice.
    rewrite bool_decide_eq_false_2 by (by intros ?).
    rewrite Hmid. by destruct (_ && _). }
  split_and!.
  - intros Hne. unfold GetCurrentMarketPrice. by rewrite bool_decide_eq_true_2.
  - done.
  - intros bid ask Eb Ea. rewrite Hmid, Eb, Ea. done.
  - rewrite <- Hbid, <- Hask, Hmid.
    destruct (GetBestBid ob).2, (GetBestAsk ob).2; simpl; intuition congruence.
  - intros E Hempty. rewrite (Hcur E), Hmid.
    destruct (GetBestBid ob).2 eqn:E1, (GetBestAsk ob).2 eqn:E2; simpl; try done.
    exfalso. destruct Hempty as [H0|H0]; [apply Hbid in H0|apply Hask in H0]; done.
Qed.

(** The fallback chain on three books: after the demonstration run's trades,
    before them, and on a book with bids only. *)
Lemma C9_witness :
  GetCurrentMarketPrice (set_LastTradedPrice (Qc_of_Z 99) (book main_added))
    = (Qc_of_Z 99, true) ∧
  GetCurrentMarketPrice (book main_added) = GetMidPrice (book main_added) ∧
  GetMidPrice (book main_added) = ((Qc_of_Z 102 + Qc_of_Z 99) / Qc_of_Z 2, true)%Qc ∧
  GetCurrentMarketPrice (mkOrderBook (BuyTree (book main_added)) [] ∅ 0%Qc)
    = (0%Qc, false).
Proof.
  split_and!.
  - apply (C9_current_market_price (set_LastTradedPrice (Qc_of_Z 99) (book main_added))).
    by vm_compute.
  - by apply (C9_current_market_price (book main_added)).
  - by apply (C9_current_market_price (book main_added)).
  - apply (C9_current_market_price (mkOrderBook (BuyTree (book main_added)) [] ∅ 0%Qc));
      [done|by right].
Defined.


Lemma odd_order_state_eq :
  odd_order_state =
  AddOrder (AddOrder (AddOrder (AddOrder (mkState odd_order_heap NewOrderBook) B1) S1) B2) S2.
Proof. reflexivity. Qed.


Lemma dup_added_reachable : reachable any_call dup_added.
Proof.
  unfold dup_added.
  repeat (eapply (reachable_run _ _ (CallAddOrder _)); [|exact I|reflexivity]).
  apply reachable_new.
Qed.

Lemma in_level_filed st buy L p : in_level st buy L p → p ∈ filed (book st).
Proof.
  intros [HL Hp]. rewrite (filed_tree_of buy). apply elem_of_app. left.
  apply elem_of_orders_of. eauto.
Qed.

Lemma tree_ok_same_price buy t L L' :
  tree_ok buy t → L ∈ t → L' ∈ t → LevelPrice L = LevelPrice L' → L = L'.
Proof.
  intros Hok. apply tree_ok_NoDup_prices in Hok.
  induction t as [|x t IH]; simpl in *; [by intros ?%elem_of_nil|].
  apply NoDup_cons in Hok as [Hx Hok].
  rewrite !elem_of_cons. intros [->|HL] [->|HL'] E; auto.
  - exfalso. apply Hx. rewrite E. by apply list_elem_of_fmap_2.
  - exfalso. apply Hx. rewrite <- E. by apply list_elem_of_fmap_2.
Qed.

Lemma consistent_views_agree st : consistent st → views_agree st.
Proof.
  intros [Hok Hmap]. split.
  - intros id p Hp. apply Hmap in Hp as [Hpf _].
    destruct (filed_locate st p Hok Hpf) as (t1 & L & t2 & l1 & l2 & Ht & HP & HL & _).
    set (buy := is_buy (Side (heap st p))) in *.
    assert (L ∈ tree_of buy (book st)) as HLt.
    { rewrite Ht. apply elem_of_app. right. apply list_elem_of_here. }
    exists L. split_and!; [split; [done|]|done|].
    { rewrite HL. apply elem_of_app. right. apply list_elem_of_here. }
    intros buy' L' [HL' Hp'].
    destruct (fo_index _ Hok buy') as [Htok Hlv].
    rewrite Forall_forall in Hlv. destruct (Hlv L' HL') as [_ Hall].
    rewrite Forall_forall in Hall. destruct (Hall p Hp') as [HP' Hb'].
    fold buy in Hb'. subst buy'. split; [done|].
    eapply tree_ok_same_price; [exact Htok|done..|congruence].
  - intros buy L p Hin. apply Hmap. split; [|done]. by eapply in_level_filed.
Qed.

(** C4, amended.  In every state reached by calls that add an order only
    under an identifier the id-lookup map does not hold, with prices that
    are finite numbers (the model's; a NaN price is excluded), the two
    views agree: every order the map leads to is in exactly one level, in
    the index of its own side and at its own price, and every order in a
    level is what the map holds under its identifier. *)
Theorem C4_views_agree_with_fresh_ids (st : State) :
  reachable fresh_ids st → views_agree st.
Proof. intros Hr. by apply consistent_views_agree, reachable_consistent. Qed.

Lemma main_added_reachable_fresh : reachable fresh_ids main_added.
Proof.
  unfold main_added.
  repeat (eapply (reachable_run _ _ (CallAddOrder _)); [| |reflexivity];
          [|by vm_compute]).
  apply reachable_new.
Qed.

Lemma C4_witness : views_agree main_added.
Proof. exact (C4_views_agree_with_fresh_ids main_added main_added_reachable_fresh). Defined.

(** C4 as stated fails: after two [AddOrder] calls with orders that share
    the identifier ["A"], order 1 is in the bid level at 100 but the map
    holds order 2 under ["A"]. *)
Lemma C4_counterexample :
  reachable any_call dup_added ∧
  BuyTree (book dup_added) = [mkPriceLevel (Qc_of_Z 100) [1%nat; 2%nat] "buy"] ∧
  OrderID (heap dup_added 1%nat) = "A" ∧
  Orders (book dup_added) !! "A" = Some 2%nat ∧
  ¬ views_agree dup_added.
Proof.
  split_and!; [apply dup_added_reachable|by vm_compute..|].
  intros [_ Hback].
  assert (in_level dup_added true
            (mkPriceLevel (Qc_of_Z 100) [1%nat; 2%nat] "buy") 1%nat) as Hin.
  { split; [|apply list_elem_of_here].
    assert (tree_of true (book dup_added)
            = [mkPriceLevel (Qc_of_Z 100) [1%nat; 2%nat] "buy"]) as -> by (by vm_compute).
    apply list_elem_of_here. }
  apply Hback in Hin. by vm_compute in Hin.
Qed.

Lemma set_LevelOrders_same L : set_LevelOrders (LevelOrders L) L = L.
Proof. by destruct L. Qed.

Lemma set_LevelOrders_twice l l' L :
  set_LevelOrders l (set_LevelOrders l' L) = set_LevelOrders l L.
Proof. done. Qed.

Lemma book_roundtrip buy ob t' id order :
  Orders ob !! id = None →
  let ob1 := set_tree buy t' (set_Orders (<[id := order]> (Orders ob)) ob) in
  set_Orders (delete id (Orders (set_tree buy (tree_of buy ob) ob1)))
             (set_tree buy (tree_of buy ob) ob1) = ob.
Proof. intros. destruct buy, ob; simpl in *; by rewrite delete_insert_id. Qed.

(** C7, amended.  On a consistent book (as every book reached by calls that
    keep identifiers unique is), adding an order whose identifier the map
    does not hold and then removing that identifier succeeds and gives back
    the state before: the same levels with the same order sequences, the same
    map, the same last traded price and the same orders. *)
Theorem C7_add_then_remove_restores (st : State) (order : loc) :
  consistent st → Orders (book st) !! OrderID (heap st order) = None →
  RemoveOrder (AddOrder st order) (OrderID (heap st order)) = (st, None).
Proof.
  intros Hc Hnone. pose proof (consistent_fresh _ _ Hc Hnone) as Hfresh.
  destruct Hc as [[Hidx Hids] Hmap].
  set (buy := is_buy (Side (heap st order))).
  set (id := OrderID (heap st order)) in *.
  destruct (Hidx buy) as [Htok Hlv].
  assert (∀ L, L ∈ tree_of buy (book st) →
            Forall (λ q, OrderID (heap st q) ≠ id) (LevelOrders L)) as Hother.
  { intros L HL. apply Forall_forall. intros q Hq E. apply Hfresh. rewrite <- E.
    apply list_elem_of_fmap_2' with q; [|done].
    rewrite (filed_tree_of buy). apply elem_of_app. left.
    apply elem_of_orders_of. eauto. }
  destruct (Get_cases buy (tree_of buy (book st))
              (mkPriceLevel (Price (heap st order)) [] (Side (heap st order))) Htok eq_refl)
    as [(t1 & L & t2 & Ht & E & _)|(_ & Hne & _)].
  - simpl in E.
    pose proof (AddOrder_existing st order t1 L t2 Htok Ht E) as HA. fold buy id in HA.
    set (L' := set_LevelOrders (LevelOrders L ++ [order]) L) in *.
    set (st1 := AddOrder st order) in *.
    assert (L ∈ tree_of buy (book st)) as HLt.
    { rewrite Ht. apply elem_of_app. right. apply list_elem_of_here. }
    assert (LevelOrders L ≠ []) as HLne.
    { rewrite Forall_forall in Hlv. by destruct (Hlv L HLt). }
    assert (heap st1 = heap st) as Hh1 by (by rewrite HA).
    assert (tree_of buy (book st1) = t1 ++ L' :: t2) as Ht1
      by (by rewrite HA; simpl; rewrite tree_of_set_tree).
    pose proof (removeOrder_filed st1 order t1 L' t2 (LevelOrders L) []) as Hrm.
    cbv zeta in Hrm. rewrite Hh1 in Hrm. fold buy id in Hrm.
    rewrite Ht1 in Hrm. rewrite Ht in Htok.
    specialize (Hrm (tree_ok_swap_middle buy t1 L L' t2 Htok
                       (tree_ok_middle_side _ _ _ _ Htok) eq_refl)
                    eq_refl E eq_refl (Hother L HLt)).
    unfold RemoveOrder.
    assert (Orders (book st1) !! id = Some order) as ->
      by (rewrite HA; simpl; destruct buy; apply lookup_insert_eq).
    rewrite Hrm, app_nil_r. unfold delete_Orders. simpl.
    destruct (LevelOrders L) as [|q l] eqn:EL; [done|]. simpl level_without.
    unfold L'. rewrite set_LevelOrders_twice, <- EL, set_LevelOrders_same.
    rewrite HA. simpl. rewrite <- Ht.
    rewrite (book_roundtrip buy (book st)) by done. by destruct st.
  - simpl in Hne.
    destruct (AddOrder_new st order Htok Hne) as (t1 & t2 & Ht & Htok' & HA).
    fold buy id in HA, Htok'.
    set (K := mkPriceLevel (Price (heap st order)) [order] (Side (heap st order))) in *.
    set (st1 := AddOrder st order) in *.
    assert (heap st1 = heap st) as Hh1 by (by rewrite HA).
    assert (tree_of buy (book st1) = t1 ++ K :: t2) as Ht1
      by (by rewrite HA; simpl; rewrite tree_of_set_tree).
    pose proof (removeOrder_filed st1 order t1 K t2 [] []) as Hrm.
    cbv zeta in Hrm. rewrite Hh1 in Hrm. fold buy id in Hrm.
    rewrite Ht1 in Hrm.
    specialize (Hrm Htok' eq_refl eq_refl eq_refl (Forall_nil_2 _)).
    unfold RemoveOrder.
    assert (Orders (book st1) !! id = Some order) as ->
      by (rewrite HA; simpl; destruct buy; apply lookup_insert_eq).
    rewrite Hrm. unfold delete_Orders. simpl.
    rewrite HA. simpl. rewrite <- Ht.
    rewrite (book_roundtrip buy (book st)) by done. by destruct st.
Qed.

Lemma odd_order_state_consistent : consistent odd_order_state.
Proof.
  apply reachable_consistent. rewrite odd_order_state_eq.
  repeat (eapply (reachable_run _ _ (CallAddOrder _)); [| |reflexivity];
          [|by vm_compute]).
  apply reachable_new.
Qed.

Lemma C7_witness :
  RemoveOrder (AddOrder odd_order_state 9%nat) (OrderID (heap odd_order_state 9%nat))
  = (odd_order_state, None).
Proof.
  apply (C7_add_then_remove_restores odd_order_state 9%nat).
  - exact odd_order_state_consistent.
  - by vm_compute.
Defined.

Lemma dup_removed_reachable : reachable any_call dup_removed.
Proof.
  eapply (reachable_run _ _ (CallRemoveOrder "A")); [|exact I|reflexivity].
  apply dup_added_reachable.
Qed.

(** C7 as stated fails: in [dup_removed] the map does not hold ["A"], yet
    adding order 3 under ["A"] and removing ["A"] again leaves order 3 in the
    level in place of order 2. *)
Lemma C7_counterexample :
  reachable any_call dup_removed ∧
  Orders (book dup_removed) !! OrderID (heap dup_removed 3%nat) = None ∧
  BuyTree (book dup_removed) = [mkPriceLevel (Qc_of_Z 100) [2%nat] "buy"] ∧
  (RemoveOrder (AddOrder dup_removed 3%nat) (OrderID (heap dup_removed 3%nat))).2 = None ∧
  BuyTree (book (RemoveOrder (AddOrder dup_removed 3%nat)
                             (OrderID (heap dup_removed 3%nat))).1)
    = [mkPriceLevel (Qc_of_Z 100) [3%nat] "buy"] ∧
  (RemoveOrder (AddOrder dup_removed 3%nat) (OrderID (heap dup_removed 3%nat))).1
    ≠ dup_removed.
Proof.
  split_and!; [apply dup_removed_reachable|by vm_compute..|].
  intros E. apply (f_equal (λ s, LevelOrders <$> BuyTree (book s))) in E.
  by vm_compute in E.
Qed.

(** C8, amended.  [ModifyOrderQuantity] answers "invalid quantity" for every
    negative quantity; otherwise "order not found" when the map does not hold
    the identifier.  For a quantity of exactly zero and a registered order
    of a consistent book, the order is taken out of the level it is filed
    in, that level is deleted when nothing is left in it, and the identifier
    is deleted from the map.  For any other quantity the order's quantity is
    overwritten in place: no level and no map entry changes, so the order
    keeps its position. *)
Theorem C8_ModifyOrderQuantity (st : State) (orderID : string) (newQuantity : Qc) :
  ((newQuantity < 0)%Qc →
     ModifyOrderQuantity st orderID newQuantity = (st, ErrInvalidQuantity)) ∧
  (¬ (newQuantity < 0)%Qc → Orders (book st) !! orderID = None →
     ModifyOrderQuantity st orderID newQuantity = (st, ErrOrderNotFound)) ∧
  (∀ order, consistent st → Orders (book st) !! orderID = Some order →
     newQuantity = 0%Qc →
     let buy := is_buy (Side (heap st order)) in
     ∃ t1 L t2 l1 l2,
       tree_of buy (book st) = t1 ++ L :: t2 ∧
       LevelOrders L = l1 ++ order :: l2 ∧
       ModifyOrderQuantity st orderID newQuantity =
         (mkState (heap st)
            (set_Orders (delete orderID (Orders (book st)))
               (set_tree buy (t1 ++ level_without L (l1 ++ l2) ++ t2) (book st))),
          None) ∧
       order ∉ filed (book (ModifyOrderQuantity st orderID newQuantity).1)) ∧
  (∀ order, ¬ (newQuantity < 0)%Qc → Orders (book st) !! orderID = Some order →
     newQuantity ≠ 0%Qc →
     ModifyOrderQuantity st orderID newQuantity =
       (mkState (store (heap st) order (set_Quantity newQuantity (heap st order)))
                (book st), None)).
Proof.
  unfold ModifyOrderQuantity. split_and!.
  - intros Hneg. by rewrite bool_decide_eq_true_2.
  - intros Hneg ->. by rewrite bool_decide_eq_false_2.
  - intros order Hc Hreg ->. set (buy := is_buy (Side (heap st order))).
    rewrite bool_decide_eq_false_2 by (by vm_compute).
    rewrite Hreg, bool_decide_eq_true_2 by done.
    assert (OrderID (heap st order) = orderID) as Hid by (by apply Hc in Hreg as [_ ?]).
    assert (order ∈ filed (book st)) as Hf by (by apply Hc in Hreg as [? _]).
    destruct (filed_locate st order (cons_filed _ Hc) Hf)
      as (t1 & L & t2 & l1 & l2 & Ht & HP & HL & Hne).
    exists t1, L, t2, l1, l2. fold buy in Ht.
    rewrite (removeOrder_located st order t1 L t2 l1 l2 (cons_filed _ Hc) Ht HP HL Hne).
    fold buy. unfold delete_Orders. simpl.
    assert (∀ t, Orders (set_tree buy t (book st)) = Orders (book st)) as Ho
      by (by destruct buy).
    rewrite Ho. split_and!; [done..|].
    assert (∀ m ob, filed (set_Orders m ob) = filed ob) as -> by done.
    intros Hin.
    pose proof (filed_ok_NoDup _ (cons_filed _ Hc)) as Hnd.
    rewrite (filed_tree_of buy), Ht, orders_of_app, orders_of_cons, HL in Hnd.
    rewrite (filed_tree_of buy), tree_of_set_tree, tree_of_set_tree_ne in Hin.
    rewrite !orders_of_app, orders_of_level_without in Hin.
    rewrite <- !app_assoc in Hnd. simpl in Hnd.
    rewrite <- (Permutation_middle l1) in Hnd.
    rewrite <- (Permutation_middle (orders_of t1)) in Hnd.
    apply NoDup_cons in Hnd as [Hnd _]. apply Hnd.
    rewrite <- !app_assoc in Hin. done.
  - intros order Hneg Hreg Hnz.
    by rewrite bool_decide_eq_false_2, Hreg, bool_decide_eq_false_2.
Qed.

(** The four cases on the book of the demonstration run. *)
Lemma C8_witness :
  ModifyOrderQuantity main_added "B1" (Qc_of_Z (-2)) = (main_added, ErrInvalidQuantity) ∧
  ModifyOrderQuantity main_added "X9" (Qc_of_Z 3) = (main_added, ErrOrderNotFound) ∧
  (B1 ∉ filed (book (ModifyOrderQuantity main_added "B1" 0%Qc).1)) ∧
  ModifyOrderQuantity main_added "B1" (Qc_of_Z 3) =
    (mkState (store main_heap B1 (set_Quantity (Qc_of_Z 3) (main_heap B1)))
             (book main_added), None).
Proof.
  split_and!.
  - apply (C8_ModifyOrderQuantity main_added "B1" (Qc_of_Z (-2))). by vm_compute.
  - apply (C8_ModifyOrderQuantity main_added "X9" (Qc_of_Z 3)); by vm_compute.
  - destruct (C8_ModifyOrderQuantity main_added "B1" 0%Qc) as (_ & _ & Hz & _).
    destruct (Hz B1 (reachable_consistent _ main_added_reachable_fresh) eq_refl eq_refl)
      as (t1 & L & t2 & l1 & l2 & _ & _ & _ & Hout).
    exact Hout.
  - apply (C8_ModifyOrderQuantity main_added "B1" (Qc_of_Z 3)); by vm_compute.
Defined.

(** C8 as stated fails on zero: in [dup_added] the map holds order 2 under
    ["A"], and setting the quantity of ["A"] to zero takes order 1 out of the
    level and leaves order 2 in it. *)
Lemma C8_counterexample :
  reachable any_call dup_added ∧
  Orders (book dup_added) !! "A" = Some 2%nat ∧
  (ModifyOrderQuantity dup_added "A" 0%Qc).2 = None ∧
  BuyTree (book (ModifyOrderQuantity dup_added "A" 0%Qc).1)
    = [mkPriceLevel (Qc_of_Z 100) [2%nat] "buy"] ∧
  Orders (book (ModifyOrderQuantity dup_added "A" 0%Qc).1) !! "A" = None.
Proof. split_and!; [apply dup_added_reachable|by vm_compute..]. Qed.

(** ** One pass of the matching loop, exactly *)



Lemma main_added_consistent : consistent main_added.
Proof. exact (reachable_consistent _ main_added_reachable_fresh). Qed.


Lemma Again_inj t s t' s' : Again t s = Again t' s' → t = t' ∧ s = s'.
Proof. by intros [= -> ->]. Qed.

Lemma dup_crossed_reachable : reachable any_call dup_crossed.
Proof.
  eapply (reachable_run _ _ (CallAddOrder 4%nat)); [|exact I|reflexivity].
  eapply (reachable_run _ _ (CallModifyOrderPrice "A" (Qc_of_Z 98)));
    [|exact I|reflexivity].
  apply dup_added_reachable.
Qed.

Lemma dup_crossed_body :
  MatchOrders_body dup_crossed =
  Again (execute_trade dup_crossed 2%nat 4%nat).1 (execute_trade dup_crossed 2%nat 4%nat).2.
Proof.
  rewrite (MatchOrders_body_fronts dup_crossed
             (mkPriceLevel (Qc_of_Z 100) [2%nat] "buy")
             [mkPriceLevel (Qc_of_Z 98) [2%nat] "buy"]
             (mkPriceLevel (Qc_of_Z 99) [4%nat] "sell") [] 2%nat [] 4%nat [])
    by (by vm_compute).
  by rewrite bool_decide_eq_true_2 by (by vm_compute).
Qed.


(** ** Termination of the matching loop *)

(** C3, amended.  In every state reached by calls that add an order only
    under an identifier the id-lookup map does not hold, with prices and
    quantities that are finite numbers subtracted without overflow (the
    model's; NaN and infinite values are excluded), [MatchOrders] returns,
    after at most one pass per filed order and a last pass that stops, and
    the book it leaves is not crossed: [GetBestBid] and [GetBestAsk] are
    not both available with the best bid at or above the best ask. *)
Theorem C3_MatchOrders_terminates (st : State) :
  reachable fresh_ids st →
  ∃ trades st',
    (∀ fuel, length (filed (book st)) < fuel →
             MatchOrders fuel st = Returned trades st') ∧
    ¬ crossed (book st').
Proof.
  intros Hr. pose proof (reachable_consistent _ Hr) as Hc.
  destruct (MatchOrders_consistent (S (length (filed (book st)))) st Hc)
    as (ts & st' & E & _ & Hx); [lia|].
  exists ts, st'. split; [|done].
  intros fuel Hlt. eapply MatchOrders_more_fuel; [exact E|lia].
Qed.

Lemma C3_witness :
  ∃ trades st',
    (∀ fuel, length (filed (book main_added)) < fuel →
             MatchOrders fuel main_added = Returned trades st') ∧
    ¬ crossed (book st').
Proof. exact (C3_MatchOrders_terminates main_added main_added_reachable_fresh). Defined.

Lemma Qcminus_0_r (a : Qc) : (a - 0 = a)%Qc.
Proof. apply Qc_is_canon. unfold Qcminus, Qcplus, Qcopp. simpl. rewrite !Qred_correct. ring. Qed.

(** A pass on a stuck book trades quantity zero, looks for order 2 in a
    level at 98 that does not exist, and leaves the book stuck. *)
Lemma stuck_again st :
  stuck st → ∃ t st', MatchOrders_body st = Again t st' ∧ stuck st'.
Proof.
  intros (EB & ES & Hs2 & HP2 & HQ2 & HQ4).
  exists (execute_trade st 2%nat 4%nat).1, (execute_trade st 2%nat 4%nat).2.
  split.
  { rewrite (MatchOrders_body_fronts st _ [] _ [] 2%nat [] 4%nat [] EB ES) by done.
    by rewrite bool_decide_eq_true_2 by (by vm_compute). }
  unfold execute_trade. cbv zeta. simpl snd.
  assert (min (Quantity (heap st 2%nat)) (Quantity (heap st 4%nat)) = 0%Qc) as ->.
  { unfold min. by rewrite HQ2, bool_decide_eq_true_2. }
  rewrite HQ2, Qcminus_diag.
  set (h1 := store (heap st) 2%nat (set_Quantity 0%Qc (heap st 2%nat))).
  set (h2 := store h1 4%nat (set_Quantity (Quantity (h1 4%nat) - 0)%Qc (h1 4%nat))).
  set (st2 := mkState h2 (set_LastTradedPrice (Price (heap st 4%nat)) (book st))).
  assert (h2 2%nat = set_Quantity 0%Qc (heap st 2%nat)) as Hh2 by done.
  assert (h2 4%nat = set_Quantity (Quantity (heap st 4%nat)) (heap st 4%nat))
    as Hh4.
  { unfold h2. rewrite store_eq. unfold h1. rewrite store_ne by done. by rewrite Qcminus_0_r. }
  pose proof (removeOrder_absent st2 2%nat) as Hrm. cbv zeta in Hrm.
  change (heap st2) with h2 in Hrm. rewrite Hh2 in Hrm.
  change (Side (set_Quantity 0%Qc (heap st 2%nat))) with (Side (heap st 2%nat)) in Hrm.
  change (Price (set_Quantity 0%Qc (heap st 2%nat))) with (Price (heap st 2%nat)) in Hrm.
  rewrite Hs2, HP2 in Hrm.
  change (tree_of (is_buy "buy") (book st2)) with (BuyTree (book st)) in Hrm.
  rewrite EB in Hrm.
  assert (removeOrder st2 2%nat = st2) as ->.
  { apply Hrm.
    - apply tree_ok_cons. split_and!; [done|constructor|apply tree_ok_nil].
    - intros L ->%list_elem_of_singleton. by vm_compute. }
  rewrite (bool_decide_eq_true_2 (0%Qc = 0%Qc)) by done.
  change (heap (delete_Orders (OrderID (heap st 2%nat)) st2)) with h2. rewrite Hh4.
  change (Quantity (set_Quantity (Quantity (heap st 4%nat)) (heap st 4%nat)))
    with (Quantity (heap st 4%nat)).
  rewrite bool_decide_eq_false_2.
  2:{ intros E. rewrite E in HQ4. by vm_compute in HQ4. }
  unfold stuck. simpl. split_and!; try done.
  unfold h1. by rewrite store_ne, Qcminus_0_r.
Qed.

Lemma MatchOrders_Again fuel st t st' :
  MatchOrders_body st = Again t st' →
  MatchOrders (S fuel) st =
    match MatchOrders fuel st' with
    | Returned ts st'' => Returned (t :: ts) st''
    | r => r
    end.
Proof. intros E. simpl. by rewrite E. Qed.

Lemma stuck_forever fuel st : stuck st → MatchOrders fuel st = OutOfFuel.
Proof.
  revert st. induction fuel as [|fuel IH]; intros st Hst; simpl; [done|].
  destruct (stuck_again st Hst) as (t & st' & -> & Hst'). by rewrite IH.
Qed.

(** C3 as stated fails: [dup_crossed] is reached by [AddOrder],
    [ModifyOrderPrice] and [AddOrder] calls, every quantity in it is
    positive, and [MatchOrders] never returns on it: the first pass fills
    order 2 and takes it out of the level at 98, and every later pass finds
    order 2, with quantity zero, at the front of the level at 100. *)
Lemma C3_counterexample :
  reachable any_call dup_crossed ∧
  Forall (λ p, (0 ≤ Quantity (heap dup_crossed p))%Qc) (filed (book dup_crossed)) ∧
  ∀ fuel, MatchOrders fuel dup_crossed = OutOfFuel.
Proof.
  split_and!.
  - apply dup_crossed_reachable.
  - assert (filed (book dup_crossed) = [2%nat; 2%nat; 4%nat]) as -> by (by vm_compute).
    repeat (apply Forall_cons; split; [by vm_compute|]). apply Forall_nil_2.
  - intros [|fuel]; [done|].
    rewrite (MatchOrders_Again _ _ _ _ dup_crossed_body).
    rewrite stuck_forever; [done|].
    unfold stuck. split_and!; [by vm_compute..|apply Qc_eq_this; by vm_compute|by vm_compute].
Qed.

(** * Further properties of the operations *)

(** ** The comparison of price levels *)

(** X1.  On prices that are finite numbers (the model's; on a NaN price
    Go's comparisons are false both ways and the part on equal prices
    fails), [Less]
    never puts a level before itself.  Between two levels that are both
    bids, or both asks, it is asymmetric and transitive, and two levels
    neither of which is before the other have the same price.  Between a
    bid level and an ask level it answers the same both ways. *)
Theorem Less_strict_within_a_side (p o q : PriceLevel) :
  Less p p = false ∧
  (is_buy (LevelSide p) = is_buy (LevelSide o) →
     Less p o = true → Less o p = false) ∧
  (is_buy (LevelSide p) = is_buy (LevelSide o) →
   is_buy (LevelSide o) = is_buy (LevelSide q) →
     Less p o = true → Less o q = true → Less p q = true) ∧
  (is_buy (LevelSide p) = is_buy (LevelSide o) →
     Less p o = false → Less o p = false → LevelPrice p = LevelPrice o) ∧
  (is_buy (LevelSide p) ≠ is_buy (LevelSide o) → Less p o = Less o p).
Proof.
  set (b := is_buy (LevelSide p)).
  assert (side_ok b p) as Hp by done.
  split_and!.
  - by apply (Less_same_price b).
  - intros Ho. assert (side_ok b o) as Ho' by done.
    rewrite (Less_before b p o), (Less_before b o p) by done.
    intros H1%bool_decide_eq_true. apply bool_decide_eq_false.
    by apply before_asym.
  - intros Ho Hq. assert (side_ok b o) as Ho' by done.
    assert (side_ok b q) as Hq' by (unfold side_ok; congruence).
    rewrite (Less_before b p o), (Less_before b o q), (Less_before b p q) by done.
    intros H1%bool_decide_eq_true H2%bool_decide_eq_true. apply bool_decide_eq_true.
    by eapply before_trans.
  - intros Ho. assert (side_ok b o) as Ho' by done.
    rewrite (Less_before b p o), (Less_before b o p) by done.
    intros H1%bool_decide_eq_false H2%bool_decide_eq_false.
    by apply (before_total b).
  - unfold Less, is_buy. fold b.
    destruct (bool_decide (LevelSide p = "buy")) eqn:E1,
             (bool_decide (LevelSide o = "buy")) eqn:E2; try done.
    all: unfold b, is_buy; rewrite E1; by intros [].
Qed.

(** A bid at 100, a bid at 98 and an ask at 99. *)
Lemma Less_strict_within_a_side_witness :
  Less (mkPriceLevel (Qc_of_Z 98) [] "buy") (mkPriceLevel (Qc_of_Z 100) [] "buy") = false ∧
  Less (mkPriceLevel (Qc_of_Z 100) [] "buy") (mkPriceLevel (Qc_of_Z 99) [] "sell")
  = Less (mkPriceLevel (Qc_of_Z 99) [] "sell") (mkPriceLevel (Qc_of_Z 100) [] "buy").
Proof.
  split.
  - apply (Less_strict_within_a_side (mkPriceLevel (Qc_of_Z 100) [] "buy")
             (mkPriceLevel (Qc_of_Z 98) [] "buy") (mkPriceLevel 0%Qc [] "")); by vm_compute.
  - apply (Less_strict_within_a_side (mkPriceLevel (Qc_of_Z 100) [] "buy")
             (mkPriceLevel (Qc_of_Z 99) [] "sell") (mkPriceLevel 0%Qc [] "")).
    by vm_compute.
Defined.

(** ** [removeOrder] and [AddOrder] on any book with sorted indexes *)

Lemma index_of_id_Some h id l idx :
  index_of_id h id l = Some idx →
  ∃ l1 p l2, l = l1 ++ p :: l2 ∧ length l1 = idx ∧ OrderID (h p) = id ∧
             Forall (λ q, OrderID (h q) ≠ id) l1.
Proof.
  revert idx. induction l as [|q l IH]; simpl; intros idx; [done|].
  case_bool_decide as Hq.
  - intros [= <-]. exists [], q, l. split_and!; [done..|constructor].
  - destruct (index_of_id h id l) as [i|]; simpl; [|done].
    intros [= <-]. destruct (IH i eq_refl) as (l1 & p & l2 & -> & <- & Hp & Hl1).
    exists (q :: l1), p, l2. split_and!; [done..|by constructor].
Qed.

Lemma index_of_id_None_inv h id l :
  index_of_id h id l = None → Forall (λ q, OrderID (h q) ≠ id) l.
Proof.
  induction l as [|q l IH]; simpl; [constructor|].
  case_bool_decide as Hq; [done|].
  destruct (index_of_id h id l); simpl; [done|]. intros _. constructor; auto.
Qed.

(** What [removeOrder] does on a sorted index, whatever else holds of the
    book: nothing, or it takes the first order that carries the
    identifier out of the level at the order's price. *)
Lemma removeOrder_cases st p :
  let buy := is_buy (Side (heap st p)) in
  tree_ok buy (tree_of buy (book st)) →
  (removeOrder st p = st ∧
   ∀ L, L ∈ tree_of buy (book st) → LevelPrice L = Price (heap st p) →
        Forall (λ q, OrderID (heap st q) ≠ OrderID (heap st p)) (LevelOrders L)) ∨
  (∃ t1 L t2 l1 q l2,
     tree_of buy (book st) = t1 ++ L :: t2 ∧ LevelPrice L = Price (heap st p) ∧
     LevelOrders L = l1 ++ q :: l2 ∧ OrderID (heap st q) = OrderID (heap st p) ∧
     Forall (λ q', OrderID (heap st q') ≠ OrderID (heap st p)) l1 ∧
     removeOrder st p =
       mkState (heap st) (set_tree buy (t1 ++ level_without L (l1 ++ l2) ++ t2) (book st))).
Proof.
  intros buy Hok.
  destruct (Get_cases buy (tree_of buy (book st))
              (mkPriceLevel (Price (heap st p)) [] (Side (heap st p))) Hok eq_refl)
    as [(t1 & L & t2 & Ht & E & HG)|(HG & Hne & _)]; simpl in *.
  - destruct (index_of_id (heap st) (OrderID (heap st p)) (LevelOrders L)) as [idx|] eqn:Ei.
    + right. apply index_of_id_Some in Ei as (l1 & q & l2 & HL & <- & Hq & Hl1).
      exists t1, L, t2, l1, q, l2. split_and!; try done.
      unfold removeOrder. fold buy. rewrite HG, HL, (index_of_id_first _ _ l1 q l2) by done.
      rewrite take_drop_middle_app. simpl LevelOrders.
      assert (side_ok buy L) as HsL by (rewrite Ht in Hok; by eapply tree_ok_middle_side).
      rewrite Ht in *.
      destruct (l1 ++ l2) as [|r rest] eqn:E'; simpl.
      * by rewrite (Delete_middle buy t1 L t2).
      * by rewrite (ReplaceOrInsert_middle buy t1 L t2).
    + left. split.
      * unfold removeOrder. fold buy. by rewrite HG, Ei.
      * intros L' HL' EP. apply index_of_id_None_inv in Ei.
        assert (L' = L) as ->; [|done].
        eapply (tree_ok_same_price buy); [exact Hok|done| |congruence].
        rewrite Ht. apply elem_of_app. right. apply list_elem_of_here.
  - left. split.
    + unfold removeOrder. fold buy. by rewrite HG.
    + intros L HL EP. exfalso. rewrite Forall_forall in Hne. by apply (Hne L).
Qed.

(** ** No level is ever left empty, and the loop never indexes an empty level *)

Lemma levels_nonempty_set_tree buy t ob :
  levels_nonempty ob → Forall (λ L, LevelOrders L ≠ []) t →
  levels_nonempty (set_tree buy t ob).
Proof.
  intros Hne Ht b. destruct (negb_cases buy b) as [->| ->].
  - by rewrite tree_of_set_tree.
  - rewrite tree_of_set_tree_ne. apply Hne.
Qed.

Lemma levels_nonempty_AddOrder st p :
  trees_ok (book st) → levels_nonempty (book st) →
  levels_nonempty (book (AddOrder st p)).
Proof.
  intros Hok Hne. set (buy := is_buy (Side (heap st p))).
  pose proof (Hok buy) as Htok. pose proof (Hne buy) as Hlv.
  assert (∀ m, levels_nonempty (set_Orders m (book st))) as Hne'
    by (intros m b; specialize (Hne b); by destruct b).
  destruct (Get_cases buy (tree_of buy (book st))
              (mkPriceLevel (Price (heap st p)) [] (Side (heap st p))) Htok eq_refl)
    as [(t1 & L & t2 & Ht & E & _)|(_ & Hnone & _)]; simpl in *.
  - rewrite (AddOrder_existing st p t1 L t2) by done. simpl.
    apply levels_nonempty_set_tree; [done|]. fold buy in Ht. rewrite Ht in Hlv.
    apply Forall_app in Hlv as [H1 H2]. apply Forall_cons in H2 as [_ H2].
    apply Forall_app. split; [done|]. apply Forall_cons. split; [|done].
    simpl. by destruct (LevelOrders L).
  - destruct (AddOrder_new st p Htok Hnone) as (t1 & t2 & Ht & _ & ->). simpl.
    apply levels_nonempty_set_tree; [done|]. fold buy in Ht. rewrite Ht in Hlv.
    apply Forall_app in Hlv as [H1 H2].
    apply Forall_app. split; [done|]. by apply Forall_cons.
Qed.

Lemma levels_nonempty_removeOrder st p :
  trees_ok (book st) → levels_nonempty (book st) →
  levels_nonempty (book (removeOrder st p)).
Proof.
  intros Hok Hne. set (buy := is_buy (Side (heap st p))).
  destruct (removeOrder_cases st p (Hok buy))
    as [[-> _]|(t1 & L & t2 & l1 & q & l2 & Ht & _ & _ & _ & _ & ->)]; [done|].
  simpl. apply levels_nonempty_set_tree; [done|].
  pose proof (Hne buy) as Hlv. fold buy in Ht. rewrite Ht in Hlv.
  apply Forall_app in Hlv as [H1 H2]. apply Forall_cons in H2 as [_ H2].
  apply Forall_app. split; [done|]. apply Forall_app. split; [|done].
  destruct (l1 ++ l2) eqn:E; simpl; [constructor|]. by repeat constructor.
Qed.

Lemma levels_nonempty_delete_Orders id st :
  levels_nonempty (book (delete_Orders id st)) ↔ levels_nonempty (book st).
Proof. split; intros H b; specialize (H b); by destruct b. Qed.

Lemma trees_ok_delete_Orders id st :
  trees_ok (book (delete_Orders id st)) ↔ trees_ok (book st).
Proof. split; intros H b; specialize (H b); by destruct b. Qed.

Lemma levels_nonempty_execute_trade st b0 s0 :
  trees_ok (book st) → levels_nonempty (book st) →
  levels_nonempty (book (execute_trade st b0 s0).2).
Proof.
  intros Hok Hne. unfold execute_trade. cbv zeta. simpl snd.
  match goal with |- context [mkState ?h (set_LastTradedPrice ?v (book st))] =>
    set (st2 := mkState h (set_LastTradedPrice v (book st))) end.
  assert (trees_ok (book st2)) as Hok2 by (intros b; specialize (Hok b); by destruct b).
  assert (levels_nonempty (book st2)) as Hne2
    by (intros b; specialize (Hne b); by destruct b).
  assert (∀ s id q, trees_ok (book s) → levels_nonempty (book s) →
            trees_ok (book (delete_Orders id (removeOrder s q))) ∧
            levels_nonempty (book (delete_Orders id (removeOrder s q)))) as Hrm.
  { intros s id q Hs Hs'. split.
    - apply trees_ok_delete_Orders. by apply trees_ok_removeOrder.
    - apply levels_nonempty_delete_Orders. by apply levels_nonempty_removeOrder. }
  match goal with |- context [if ?c then delete_Orders ?i (removeOrder st2 b0) else st2] =>
    set (st3 := if c then delete_Orders i (removeOrder st2 b0) else st2) end.
  assert (trees_ok (book st3) ∧ levels_nonempty (book st3)) as [Hok3 Hne3].
  { unfold st3. destruct (bool_decide _); [by apply Hrm|done]. }
  clearbody st3. destruct (bool_decide _); [by apply Hrm|done].
Qed.

Lemma MatchOrders_body_sound st :
  trees_ok (book st) → levels_nonempty (book st) →
  match MatchOrders_body st with
  | Break => True
  | Again _ st' => trees_ok (book st') ∧ levels_nonempty (book st')
  | Panic => False
  end.
Proof.
  intros Hok Hne.
  destruct (BuyTree (book st)) as [|hb tb] eqn:EB.
  { unfold MatchOrders_body. by rewrite EB. }
  destruct (SellTree (book st)) as [|ls ts] eqn:ES.
  { unfold MatchOrders_body. by rewrite EB, ES. }
  pose proof (Hne true) as HB. pose proof (Hne false) as HS. simpl in HB, HS.
  rewrite EB in HB. rewrite ES in HS.
  apply Forall_cons in HB as [HB _]. apply Forall_cons in HS as [HS _].
  destruct (LevelOrders hb) as [|b0 rb] eqn:Eb; [done|].
  destruct (LevelOrders ls) as [|s0 rs] eqn:Es; [done|].
  rewrite (MatchOrders_body_fronts st hb tb ls ts b0 rb s0 rs) by done.
  destruct (bool_decide _); [|done].
  split; [by apply trees_ok_execute_trade|by apply levels_nonempty_execute_trade].
Qed.

Lemma MatchOrders_sound fuel st :
  trees_ok (book st) → levels_nonempty (book st) →
  match MatchOrders fuel st with
  | Returned _ st' => trees_ok (book st') ∧ levels_nonempty (book st')
  | Panicked => False
  | OutOfFuel => True
  end.
Proof.
  revert st. induction fuel as [|fuel IH]; intros st Hok Hne; simpl; [done|].
  pose proof (MatchOrders_body_sound st Hok Hne) as Hb.
  destruct (MatchOrders_body st) as [|t st1|]; [done| |done].
  destruct Hb as [Hok1 Hne1]. specialize (IH st1 Hok1 Hne1).
  by destruct (MatchOrders fuel st1).
Qed.

Lemma run_levels_nonempty st c st' :
  trees_ok (book st) → levels_nonempty (book st) → run st c st' →
  levels_nonempty (book st').
Proof.
  intros Hok Hne. destruct c; simpl.
  - intros ->. by apply levels_nonempty_AddOrder.
  - intros ->. unfold RemoveOrder. destruct (_ !! _); simpl; [|done].
    apply (levels_nonempty_delete_Orders orderID (removeOrder st l)).
    by apply levels_nonempty_removeOrder.
  - intros ->. unfold ModifyOrderPrice. destruct (_ !! _); simpl; [|done].
    apply levels_nonempty_AddOrder; simpl.
    + by apply trees_ok_removeOrder.
    + by apply levels_nonempty_removeOrder.
  - intros ->. unfold ModifyOrderSide. destruct (_ && _); [done|].
    destruct (_ !! _); simpl; [|done].
    apply levels_nonempty_AddOrder; simpl.
    + by apply trees_ok_removeOrder.
    + by apply levels_nonempty_removeOrder.
  - intros ->. unfold ModifyOrderQuantity. case_bool_decide; [done|].
    destruct (_ !! _); simpl; [|done]. case_bool_decide; simpl; [|done].
    apply (levels_nonempty_delete_Orders orderID (removeOrder st l)).
    by apply levels_nonempty_removeOrder.
  - intros (fuel & ts & E).
    pose proof (MatchOrders_sound fuel st Hok Hne) as H'. rewrite E in H'. apply H'.
Qed.

Lemma reachable_sound st :
  reachable any_call st → trees_ok (book st) ∧ levels_nonempty (book st).
Proof.
  induction 1 as [h|st c st' Hr [IH1 IH2] _ Hrun].
  - split; intros []; simpl; try apply tree_ok_nil; constructor.
  - split; [by eapply run_trees_ok|by eapply run_levels_nonempty].
Qed.

(** X2.  In every reachable state, whatever the identifiers, no price level
    of either index is empty: [AddOrder] opens a level with one order and
    [removeOrder] deletes the level it empties. *)
Theorem reachable_levels_nonempty (st : State) :
  reachable any_call st → levels_nonempty (book st).
Proof. intros Hr. by apply reachable_sound. Qed.

Lemma reachable_levels_nonempty_witness : levels_nonempty (book dup_crossed).
Proof. exact (reachable_levels_nonempty dup_crossed dup_crossed_reachable). Defined.

(** X3.  In every reachable state, whatever the identifiers, [MatchOrders]
    never panics: each time it reads [Orders[0]] of a best level, the level
    has a first order. *)
Theorem MatchOrders_never_panics (st : State) (fuel : nat) :
  reachable any_call st → MatchOrders fuel st ≠ Panicked.
Proof.
  intros [Hok Hne]%reachable_sound E.
  pose proof (MatchOrders_sound fuel st Hok Hne) as H'. by rewrite E in H'.
Qed.

Lemma MatchOrders_never_panics_witness : MatchOrders 5 dup_crossed ≠ Panicked.
Proof. exact (MatchOrders_never_panics dup_crossed 5 dup_crossed_reachable). Defined.

(** ** What [removeOrder] and a trade leave alone, on any book *)

Lemma removeOrder_untouched st p :
  heap (removeOrder st p) = heap st ∧
  Orders (book (removeOrder st p)) = Orders (book st) ∧
  LastTradedPrice (book (removeOrder st p)) = LastTradedPrice (book st) ∧
  tree_of (negb (is_buy (Side (heap st p)))) (book (removeOrder st p))
    = tree_of (negb (is_buy (Side (heap st p)))) (book st).
Proof.
  unfold removeOrder. destruct (btree.Get _ _); [|done].
  destruct (index_of_id _ _ _); [|done].
  case_bool_decide; simpl; by destruct (is_buy _).
Qed.

(** The loop body, read backwards from a pass that traded. *)
Lemma MatchOrders_body_Again st t st1 :
  MatchOrders_body st = Again t st1 →
  ∃ hb tb ls ts b0 rb s0 rs,
    BuyTree (book st) = hb :: tb ∧ SellTree (book st) = ls :: ts ∧
    LevelOrders hb = b0 :: rb ∧ LevelOrders ls = s0 :: rs ∧
    (LevelPrice ls ≤ LevelPrice hb)%Qc ∧
    t = (execute_trade st b0 s0).1 ∧ st1 = (execute_trade st b0 s0).2.
Proof.
  intros E.
  destruct (BuyTree (book st)) as [|hb tb] eqn:EB.
  { unfold MatchOrders_body in E. by rewrite EB in E. }
  destruct (SellTree (book st)) as [|ls ts] eqn:ES.
  { unfold MatchOrders_body in E. by rewrite EB, ES in E. }
  destruct (LevelOrders hb) as [|b0 rb] eqn:Eb.
  { unfold MatchOrders_body in E. rewrite EB, ES in E. simpl in E. rewrite Eb in E.
    simpl in E. by destruct (bool_decide _). }
  destruct (LevelOrders ls) as [|s0 rs] eqn:Es.
  { unfold MatchOrders_body in E. rewrite EB, ES in E. simpl in E. rewrite Eb, Es in E.
    simpl in E. by destruct (bool_decide _). }
  rewrite (MatchOrders_body_fronts st hb tb ls ts b0 rb s0 rs) in E by done.
  case_bool_decide; [|done]. apply Again_inj in E as [<- <-].
  by exists hb, tb, ls, ts, b0, rb, s0, rs.
Qed.

Lemma execute_trade_trade st b0 s0 :
  (execute_trade st b0 s0).1 =
  mkTrade (OrderID (heap st b0)) (OrderID (heap st s0)) (Price (heap st s0))
          (min (Quantity (heap st b0)) (Quantity (heap st s0))).
Proof. done. Qed.

Lemma execute_trade_LastTradedPrice st b0 s0 :
  LastTradedPrice (book (execute_trade st b0 s0).2) = Price (heap st s0).
Proof.
  unfold execute_trade. cbv zeta. simpl snd.
  assert (∀ s id q, LastTradedPrice (book (delete_Orders id (removeOrder s q)))
                    = LastTradedPrice (book s)) as Hrm.
  { intros s id q. simpl. apply removeOrder_untouched. }
  repeat (destruct (bool_decide _)); rewrite ?Hrm; done.
Qed.

(** ** What [MatchOrders] guarantees on any book *)

(** X4.  Whenever [MatchOrders] returns, on any book at all, the book it
    leaves is not crossed: the loop has no exit but the two [break]s. *)
Theorem MatchOrders_returns_uncrossed
    (fuel : nat) (st : State) (trades : list Trade) (st' : State) :
  MatchOrders fuel st = Returned trades st' → ¬ crossed (book st').
Proof.
  revert st trades. induction fuel as [|fuel IH]; intros st trades; simpl; [done|].
  destruct (MatchOrders_body st) as [|t st1|] eqn:E; [|  |done].
  - intros [= _ <-]. by apply MatchOrders_body_Break.
  - destruct (MatchOrders fuel st1) as [ts1 st1'| |] eqn:E1; [|done..].
    intros [= _ <-]. eauto.
Qed.

Lemma MatchOrders_returns_uncrossed_witness :
  ∃ trades st', MatchOrders 3 main_added = Returned trades st' ∧ ¬ crossed (book st').
Proof.
  destruct (MatchOrders 3 main_added) as [trades st'| |] eqn:E; [|by vm_compute in E..].
  exists trades, st'. split; [done|].
  exact (MatchOrders_returns_uncrossed 3 main_added trades st' E).
Defined.

(** X5.  When [MatchOrders] returns, on any book, the last traded price is
    the price of the last trade it printed, and is what it was before when
    it printed none. *)
Theorem MatchOrders_last_traded_price
    (fuel : nat) (st : State) (trades : list Trade) (st' : State) :
  MatchOrders fuel st = Returned trades st' →
  LastTradedPrice (book st')
    = default (LastTradedPrice (book st)) (TradePrice <$> last trades).
Proof.
  revert st trades. induction fuel as [|fuel IH]; intros st trades; simpl; [done|].
  destruct (MatchOrders_body st) as [|t st1|] eqn:E; [|  |done].
  - by intros [= <- <-].
  - destruct (MatchOrders fuel st1) as [ts1 st1'| |] eqn:E1; [|done..].
    intros [= <- <-]. rewrite (IH _ _ E1).
    apply MatchOrders_body_Again in E
      as (hb & tb & ls & ts & b0 & rb & s0 & rs & _ & _ & _ & _ & _ & -> & ->).
    rewrite execute_trade_LastTradedPrice.
    destruct ts1 as [|t1 ts1]; [by rewrite execute_trade_trade|].
    change (last (?x :: t1 :: ts1)) with (last (t1 :: ts1)).
    destruct (last (t1 :: ts1)) eqn:El; [done|]. by apply last_None in El.
Qed.

Lemma MatchOrders_last_traded_price_witness :
  ∃ trades st', MatchOrders 3 main_added = Returned trades st' ∧
    LastTradedPrice (book st')
      = default (LastTradedPrice (book main_added)) (TradePrice <$> last trades).
Proof.
  destruct (MatchOrders 3 main_added) as [trades st'| |] eqn:E; [|by vm_compute in E..].
  exists trades, st'. split; [done|].
  exact (MatchOrders_last_traded_price 3 main_added trades st' E).
Defined.

(** ** Cancelling *)

(** X6.  Once [RemoveOrder] has succeeded for an identifier, on any book,
    removing the same identifier again answers "order not found" and
    changes nothing. *)
Theorem RemoveOrder_twice (st st' : State) (orderID : string) :
  RemoveOrder st orderID = (st', None) →
  RemoveOrder st' orderID = (st', ErrOrderNotFound).
Proof.
  unfold RemoveOrder at 1. destruct (Orders (book st) !! orderID) as [p|]; [|done].
  intros [= <-]. unfold RemoveOrder. simpl. by rewrite lookup_delete_eq.
Qed.

Lemma RemoveOrder_twice_witness :
  RemoveOrder (RemoveOrder main_added "B1").1 "B1"
  = ((RemoveOrder main_added "B1").1, ErrOrderNotFound).
Proof.
  apply (RemoveOrder_twice main_added). 
  assert (Orders (book main_added) !! "B1" = Some B1) as E by (by vm_compute).
  unfold RemoveOrder. by rewrite E.
Defined.

(** X7.  Setting a quantity to exactly zero is cancelling: on any book and
    for any identifier, registered or not, [ModifyOrderQuantity] with zero
    leaves the state and returns the error that [RemoveOrder] does. *)
Theorem ModifyOrderQuantity_zero_is_RemoveOrder (st : State) (orderID : string) :
  ModifyOrderQuantity st orderID 0%Qc = RemoveOrder st orderID.
Proof.
  unfold ModifyOrderQuantity, RemoveOrder.
  rewrite bool_decide_eq_false_2 by (by vm_compute).
  destruct (Orders (book st) !! orderID); [|done].
  by rewrite bool_decide_eq_true_2.
Qed.

(** ** Amendments: cancel and resubmit *)

(** What [removeOrder], a change of the order's price or side, and
    [AddOrder] do together on a consistent book: the order is re-filed at
    the back of the level at its new price in the index of its new side,
    and nothing else changes. *)
Lemma refile_spec st p o' :
  consistent st → Orders (book st) !! OrderID (heap st p) = Some p →
  OrderID o' = OrderID (heap st p) →
  let st1 := removeOrder st p in
  let st3 := AddOrder (mkState (store (heap st1) p o') (book st1)) p in
  heap st3 = store (heap st) p o' ∧
  Orders (book st3) = Orders (book st) ∧
  LastTradedPrice (book st3) = LastTradedPrice (book st) ∧
  filed (book st3) ≡ₚ filed (book st) ∧
  ∃ t1 L t2 older,
    tree_of (is_buy (Side o')) (book st3) = t1 ++ L :: t2 ∧
    LevelPrice L = Price o' ∧ LevelOrders L = older ++ [p] ∧ p ∉ older.
Proof.
  intros [Hok Hmap] Hp Hid st1 st3.
  assert (p ∈ filed (book st)) as Hpf by (by apply Hmap in Hp as [? _]).
  destruct (removeOrder_ok st p Hok Hpf) as (Hok1 & Hh1 & Hm1 & Hl1 & Hperm1).
  pose proof (filed_ok_NoDup _ Hok) as Hnd. rewrite Hperm1 in Hnd.
  apply NoDup_cons in Hnd as [Hpn _].
  fold st1 in Hok1, Hh1, Hm1, Hl1, Hperm1, Hpn.
  set (st2 := mkState (store (heap st1) p o') (book st1)) in *.
  assert (∀ q, q ∈ filed (book st1) → heap st2 q = heap st q) as Hsame.
  { intros q Hq. simpl. rewrite store_ne, Hh1; [done|]. by intros ->. }
  assert (filed_ok st2) as Hok2.
  { apply (filed_ok_heap st1); [done|]. intros q Hq.
    pose proof (Hsame q Hq) as E. simpl in E. by rewrite E, Hh1. }
  assert (heap st2 p = o') as Hp2 by apply store_eq.
  assert (ids (heap st2) (filed (book st2)) = ids (heap st) (filed (book st1))) as Hids2.
  { unfold ids. apply Forall_fmap_ext, Forall_forall. intros q Hq. by rewrite Hsame. }
  assert (OrderID (heap st2 p) ∉ ids (heap st2) (filed (book st2))) as Hfresh.
  { rewrite Hids2, Hp2, Hid.
    destruct Hok as [_ Hids]. rewrite Hperm1 in Hids. unfold ids in *.
    rewrite fmap_cons in Hids. by apply NoDup_cons in Hids as [? _]. }
  destruct (AddOrder_ok st2 p Hok2 Hfresh) as (_ & Hh3 & Hm3 & Hl3 & Hperm3).
  fold st3 in Hh3, Hm3, Hl3, Hperm3.
  split_and!.
  - rewrite Hh3. simpl. by rewrite Hh1.
  - rewrite Hm3, Hp2, Hid. simpl. by rewrite Hm1, insert_id.
  - rewrite Hl3. simpl. done.
  - rewrite Hperm3. change (filed (book st2)) with (filed (book st1)). by rewrite Hperm1.
  - destruct Hok2 as [Hidx2 _].
    pose proof (Hidx2 (is_buy (Side (heap st2 p)))) as [Htok _].
    destruct (Get_cases _ _ (mkPriceLevel (Price (heap st2 p)) [] (Side (heap st2 p)))
                Htok eq_refl)
      as [(t1 & x & t2 & Ht & E & _)|(_ & Hne & _)].
    + unfold st3. rewrite (AddOrder_existing st2 p t1 x t2) by done.
      rewrite Hp2. simpl.
      assert (∀ m, tree_of (is_buy (Side o'))
                (set_tree (is_buy (Side o')) m
                   (set_Orders (<[OrderID o':=p]> (Orders (book st1))) (book st1))) = m)
        as -> by (by intros; destruct (is_buy (Side o'))).
      eexists t1, _, t2, (LevelOrders x). split_and!; [done|simpl|done|].
      * simpl in E. by rewrite store_eq in E.
      * intros Hin. apply Hpn.
        rewrite (filed_tree_of (is_buy (Side (heap st2 p)))).
        apply elem_of_app. left. apply elem_of_orders_of. exists x.
        split; [|done]. change (book st1) with (book st2). rewrite Ht.
        apply elem_of_app. right. apply list_elem_of_here.
    + unfold st3. destruct (AddOrder_new st2 p Htok Hne) as (t1 & t2 & _ & _ & ->).
      rewrite Hp2. simpl.
      assert (∀ m, tree_of (is_buy (Side o'))
                (set_tree (is_buy (Side o')) m
                   (set_Orders (<[OrderID o':=p]> (Orders (book st1))) (book st1))) = m)
        as -> by (by intros; destruct (is_buy (Side o'))).
      eexists t1, _, t2, []. split_and!; [done|done|done|]. apply not_elem_of_nil.
Qed.

(** X8. [ModifyOrderPrice] on a consistent book accepts any new price
    that is a finite number (zero and negative prices included; a NaN
    price is outside the model) for a registered order, returns no error,
    and costs the order its time priority: the order is re-filed at the
    back of the level at the new price on its own side, behind every order
    already there.  Only the order's price changes; the id-lookup map, the
    last traded price and the set of filed orders stay as they were, and
    the book stays consistent. *)
Theorem ModifyOrderPrice_refiles_at_the_back
  (st : State) (orderID : string) (newPrice : Qc) (p : loc) :
  consistent st → Orders (book st) !! orderID = Some p →
  let r := ModifyOrderPrice st orderID newPrice in
  r.2 = None ∧ consistent r.1 ∧
  heap r.1 = store (heap st) p (set_Price newPrice (heap st p)) ∧
  Orders (book r.1) = Orders (book st) ∧
  LastTradedPrice (book r.1) = LastTradedPrice (book st) ∧
  filed (book r.1) ≡ₚ filed (book st) ∧
  ∃ t1 L t2 older,
    tree_of (is_buy (Side (heap st p))) (book r.1) = t1 ++ L :: t2 ∧
    LevelPrice L = newPrice ∧ LevelOrders L = older ++ [p] ∧ p ∉ older.
Proof.
  intros Hc Hp r. pose proof Hc as [Hok Hmap].
  assert (OrderID (heap st p) = orderID) as Hid by (by apply Hmap in Hp as [_ ?]).
  assert (heap (removeOrder st p) = heap st) as Hh.
  { apply removeOrder_ok; [done|]. by apply Hmap in Hp as [? _]. }
  split; [by unfold r, ModifyOrderPrice; rewrite Hp|].
  split; [by apply consistent_ModifyOrderPrice|].
  unfold r, ModifyOrderPrice. rewrite Hp. cbv zeta. unfold fst.
  rewrite <- Hid in Hp.
  pose proof (refile_spec st p (set_Price newPrice (heap st p)) Hc Hp eq_refl) as H.
  cbv zeta in H. rewrite Hh in *. exact H.
Qed.

Lemma ModifyOrderPrice_refiles_at_the_back_witness :
  consistent main_added ∧ Orders (book main_added) !! "B2" = Some B2 ∧
  ∃ t1 L t2 older,
    BuyTree (book (ModifyOrderPrice main_added "B2" (Qc_of_Z 100)).1) = t1 ++ L :: t2 ∧
    LevelPrice L = Qc_of_Z 100 ∧ LevelOrders L = older ++ [B2] ∧ B2 ∉ older.
Proof.
  assert (Orders (book main_added) !! "B2" = Some B2) as Hp by (by vm_compute).
  split_and!; [apply main_added_consistent|done|].
  apply (ModifyOrderPrice_refiles_at_the_back main_added "B2" (Qc_of_Z 100) B2
           main_added_consistent Hp).
Defined.

(** X9. [ModifyOrderSide] on a consistent book, with one of the two side
    names and a registered identifier, returns no error and moves the order
    to the back of the level at its unchanged price in the index of the new
    side (also when the new side is the side it was on).  Only the order's
    side changes; the id-lookup map, the last traded price and the set of
    filed orders stay as they were, and the book stays consistent. *)
Theorem ModifyOrderSide_refiles_at_the_back
  (st : State) (orderID newSide : string) (p : loc) :
  consistent st → Orders (book st) !! orderID = Some p →
  newSide = "buy" ∨ newSide = "sell" →
  let r := ModifyOrderSide st orderID newSide in
  r.2 = None ∧ consistent r.1 ∧
  heap r.1 = store (heap st) p (set_Side newSide (heap st p)) ∧
  Orders (book r.1) = Orders (book st) ∧
  LastTradedPrice (book r.1) = LastTradedPrice (book st) ∧
  filed (book r.1) ≡ₚ filed (book st) ∧
  ∃ t1 L t2 older,
    tree_of (is_buy newSide) (book r.1) = t1 ++ L :: t2 ∧
    LevelPrice L = Price (heap st p) ∧ LevelOrders L = older ++ [p] ∧ p ∉ older.
Proof.
  intros Hc Hp Hside r. pose proof Hc as [Hok Hmap].
  assert (OrderID (heap st p) = orderID) as Hid by (by apply Hmap in Hp as [_ ?]).
  assert (heap (removeOrder st p) = heap st) as Hh.
  { apply removeOrder_ok; [done|]. by apply Hmap in Hp as [? _]. }
  assert (bool_decide (newSide ≠ "buy") && bool_decide (newSide ≠ "sell") = false) as Hv.
  { by destruct Hside as [-> | ->]. }
  split; [by unfold r, ModifyOrderSide; rewrite Hv, Hp|].
  split; [by apply consistent_ModifyOrderSide|].
  unfold r, ModifyOrderSide. rewrite Hv, Hp. cbv zeta. unfold fst.
  rewrite <- Hid in Hp.
  pose proof (refile_spec st p (set_Side newSide (heap st p)) Hc Hp eq_refl) as H.
  cbv zeta in H. rewrite Hh in *. exact H.
Qed.

Lemma ModifyOrderSide_refiles_at_the_back_witness :
  consistent main_added ∧ Orders (book main_added) !! "S1" = Some S1 ∧
  ∃ t1 L t2 older,
    BuyTree (book (ModifyOrderSide main_added "S1" "buy").1) = t1 ++ L :: t2 ∧
    LevelPrice L = Qc_of_Z 105 ∧ LevelOrders L = older ++ [S1] ∧ S1 ∉ older.
Proof.
  assert (Orders (book main_added) !! "S1" = Some S1) as Hp by (by vm_compute).
  split_and!; [apply main_added_consistent|done|].
  apply (ModifyOrderSide_refiles_at_the_back main_added "S1" "buy" S1
           main_added_consistent Hp (or_introl eq_refl)).
Defined.

(** [AddOrder] reads the id-lookup map only to write the order into it. *)
Lemma AddOrder_set_Orders h m ob p :
  AddOrder (mkState h (set_Orders m ob)) p =
  mkState h (set_Orders (<[OrderID (h p) := p]> m) (book (AddOrder (mkState h ob) p))).
Proof.
  unfold AddOrder. simpl.
  assert (∀ m', tree_of (is_buy (Side (h p))) (set_Orders m' (set_Orders m ob)) =
                tree_of (is_buy (Side (h p))) (set_Orders m' ob)) as ->
    by (by destruct (is_buy (Side (h p)))).
  destruct (btree.Get _ _); simpl; by destruct (is_buy (Side (h p))).
Qed.

(** X10. A price amendment is a cancellation followed by a resubmission:
    when the identifier leads to an order that carries it,
    [ModifyOrderPrice] leaves the state that [RemoveOrder], the change of
    the order's price, and [AddOrder] of the same order leave, one after
    the other.  Nothing is assumed of the book. *)
Theorem ModifyOrderPrice_is_cancel_then_add
  (st : State) (orderID : string) (newPrice : Qc) (p : loc) :
  Orders (book st) !! orderID = Some p → OrderID (heap st p) = orderID →
  let cancelled := (RemoveOrder st orderID).1 in
  (ModifyOrderPrice st orderID newPrice).1 =
  AddOrder (mkState (store (heap cancelled) p (set_Price newPrice (heap cancelled p)))
                    (book cancelled)) p.
Proof.
  intros Hp Hid cancelled. unfold cancelled, ModifyOrderPrice, RemoveOrder.
  rewrite Hp. cbv zeta. unfold fst, delete_Orders. simpl heap. simpl book.
  destruct (removeOrder_untouched st p) as (Hh & Hm & _).
  rewrite AddOrder_set_Orders. rewrite store_eq. simpl OrderID. rewrite Hh, Hid, Hm.
  rewrite insert_delete_eq.
  set (st2 := mkState _ (book (removeOrder st p))).
  assert (AddOrder st2 p =
          mkState (heap (AddOrder st2 p)) (book (AddOrder st2 p))) as E
    by (by destruct (AddOrder st2 p)).
  rewrite E at 1. f_equal.
  - unfold AddOrder. by destruct (btree.Get _ _).
  - assert (Orders (book (AddOrder st2 p)) = <[orderID := p]> (Orders (book st))) as <-.
    { unfold AddOrder. unfold st2 at 1 2. simpl heap. rewrite store_eq. simpl OrderID.
      rewrite Hid. destruct (btree.Get _ _); simpl; destruct (is_buy _); simpl;
        by rewrite Hm. }
    by destruct (book (AddOrder st2 p)).
Qed.

Lemma ModifyOrderPrice_is_cancel_then_add_witness :
  let cancelled := (RemoveOrder main_added "B2").1 in
  (ModifyOrderPrice main_added "B2" (Qc_of_Z 98)).1 =
  AddOrder (mkState (store (heap cancelled) B2 (set_Price (Qc_of_Z 98) (heap cancelled B2)))
                    (book cancelled)) B2.
Proof.
  apply (ModifyOrderPrice_is_cancel_then_add main_added "B2" (Qc_of_Z 98) B2);
    by vm_compute.
Defined.

(** ** Submission on any book *)

(** [AddOrder] on well-formed indexes files the order and drops none. *)
Lemma AddOrder_filed st p :
  trees_ok (book st) → filed (book (AddOrder st p)) ≡ₚ p :: filed (book st).
Proof.
  intros Hok. set (buy := is_buy (Side (heap st p))).
  pose proof (Hok buy) as Htok.
  assert (∀ t' m, orders_of t' ≡ₚ p :: orders_of (tree_of buy (book st)) →
            filed (set_tree buy t' (set_Orders m (book st))) ≡ₚ p :: filed (book st))
    as Hgen.
  { intros t' m Hperm.
    rewrite !(filed_tree_of buy), tree_of_set_tree, tree_of_set_tree_ne, Hperm.
    by destruct buy. }
  destruct (Get_cases buy (tree_of buy (book st))
              (mkPriceLevel (Price (heap st p)) [] (Side (heap st p))) Htok eq_refl)
    as [(t1 & L & t2 & Ht & E & _)|(_ & Hne & _)].
  - simpl in E. rewrite (AddOrder_existing st p t1 L t2) by done. fold buy. simpl.
    apply Hgen. rewrite Ht, !orders_of_app, !orders_of_cons. simpl.
    rewrite <- !app_assoc. simpl.
    rewrite (Permutation_middle (orders_of t1)).
    by rewrite (Permutation_middle (LevelOrders L)).
  - simpl in Hne. destruct (AddOrder_new st p Htok Hne) as (t1 & t2 & Ht & _ & ->).
    fold buy in Ht |- *. simpl. apply Hgen.
    rewrite Ht, !orders_of_app, !orders_of_cons. simpl.
    by rewrite (Permutation_middle (orders_of t1)).
Qed.

Lemma AddOrder_untouched st p :
  heap (AddOrder st p) = heap st ∧
  Orders (book (AddOrder st p)) = <[OrderID (heap st p) := p]> (Orders (book st)) ∧
  LastTradedPrice (book (AddOrder st p)) = LastTradedPrice (book st) ∧
  tree_of (negb (is_buy (Side (heap st p)))) (book (AddOrder st p))
    = tree_of (negb (is_buy (Side (heap st p)))) (book st).
Proof.
  unfold AddOrder. destruct (btree.Get _ _); simpl; by destruct (is_buy _).
Qed.

(** X11. After any sequence of calls, [AddOrder] files the order it is
    given and keeps every order that was filed, whatever the order's
    identifier, price, quantity and side: the filed orders afterwards are
    the order and the ones before.  The id-lookup map then leads from the
    order's identifier to the order, so an order filed earlier under the
    same identifier stays in its level and can no longer be looked up.
    The index of the other side, the orders' fields and the last traded
    price are not touched. *)
Theorem AddOrder_files_and_keeps (st : State) (order : loc) :
  reachable any_call st →
  let st' := AddOrder st order in
  filed (book st') ≡ₚ order :: filed (book st) ∧
  Orders (book st') = <[OrderID (heap st order) := order]> (Orders (book st)) ∧
  heap st' = heap st ∧
  LastTradedPrice (book st') = LastTradedPrice (book st) ∧
  tree_of (negb (is_buy (Side (heap st order)))) (book st')
    = tree_of (negb (is_buy (Side (heap st order)))) (book st).
Proof.
  intros Hr st'. destruct (AddOrder_untouched st order) as (Hh & Hm & Hl & Ht).
  split_and!; try done. apply AddOrder_filed. by eapply reachable_trees_ok.
Qed.

Lemma AddOrder_files_and_keeps_witness :
  filed (book (AddOrder dup_added 2%nat)) ≡ₚ 2%nat :: filed (book dup_added).
Proof.
  apply (AddOrder_files_and_keeps dup_added 2%nat dup_added_reachable).
Defined.

(** ** Best prices *)

(** X12. After any sequence of calls, as soon as a side has a level
    [GetBestBid] (for the bids) and [GetBestAsk] (for the asks) report a
    price, and that price is the best of the side: no bid level has a
    higher price than the best bid and no ask level a lower price than the
    best ask. *)
Theorem best_prices_are_extremal (st : State) :
  reachable any_call st →
  (∀ L, L ∈ BuyTree (book st) →
        ∃ bid, GetBestBid (book st) = (bid, true) ∧ (LevelPrice L ≤ bid)%Qc) ∧
  (∀ L, L ∈ SellTree (book st) →
        ∃ ask, GetBestAsk (book st) = (ask, true) ∧ (ask ≤ LevelPrice L)%Qc).
Proof.
  intros Hr. pose proof (reachable_trees_ok _ _ Hr) as Hok.
  split; intros L HL.
  - pose proof (Hok true) as Ht. simpl in Ht.
    destruct (BuyTree (book st)) as [|hb tb] eqn:E; [by apply elem_of_nil in HL|].
    exists (LevelPrice hb). split; [by apply (GetBestBid_cons _ hb tb)|].
    apply elem_of_cons in HL as [->|HL]; [apply Qcle_refl|].
    apply tree_ok_cons in Ht as (_ & Hb & _).
    rewrite Forall_forall in Hb. by apply Qclt_le_weak, (Hb L).
  - pose proof (Hok false) as Ht. simpl in Ht.
    destruct (SellTree (book st)) as [|ls ts] eqn:E; [by apply elem_of_nil in HL|].
    exists (LevelPrice ls). split; [by apply (GetBestAsk_cons _ ls ts)|].
    apply elem_of_cons in HL as [->|HL]; [apply Qcle_refl|].
    apply tree_ok_cons in Ht as (_ & Hb & _).
    rewrite Forall_forall in Hb. by apply Qclt_le_weak, (Hb L).
Qed.

Lemma best_prices_are_extremal_witness :
  ∃ bid, GetBestBid (book main_added) = (bid, true) ∧ (Qc_of_Z 100 ≤ bid)%Qc.
Proof.
  destruct (best_prices_are_extremal main_added (main_added_reachable any_call (λ _ _, I)))
    as [H _].
  apply (H (mkPriceLevel (Qc_of_Z 100) [B1] "buy")).
  assert (BuyTree (book main_added) =
          [mkPriceLevel (Qc_of_Z 102) [B2] "buy"; mkPriceLevel (Qc_of_Z 100) [B1] "buy"])
    as -> by (by vm_compute).
  apply list_elem_of_further, list_elem_of_here.
Defined.

Lemma Qc_mean_between (a b : Qc) :
  (a ≤ b)%Qc → (a ≤ (a + b) / Qc_of_Z 2)%Qc ∧ ((a + b) / Qc_of_Z 2 ≤ b)%Qc.
Proof.
  unfold Qcle, Qcdiv, Qcmult, Qcplus, Qcinv. simpl.
  rewrite !Qred_correct. change (/ inject_Z 2)%Q with (1#2)%Q.
  generalize (this a) (this b). intros x y H. split; lra.
Qed.

(** X13. When [GetMidPrice] reports a price, both sides have a best
    price and the price reported is their mean: it lies between the best
    bid and the best ask, whichever of the two is the larger. *)
Theorem GetMidPrice_between (ob : OrderBook) (mid : Qc) :
  GetMidPrice ob = (mid, true) →
  ∃ bid ask,
    GetBestBid ob = (bid, true) ∧ GetBestAsk ob = (ask, true) ∧
    mid = ((bid + ask) / Qc_of_Z 2)%Qc ∧
    ((bid ≤ ask)%Qc → (bid ≤ mid)%Qc ∧ (mid ≤ ask)%Qc) ∧
    ((ask ≤ bid)%Qc → (ask ≤ mid)%Qc ∧ (mid ≤ bid)%Qc).
Proof.
  unfold GetMidPrice.
  destruct (GetBestBid ob) as [bid [|]], (GetBestAsk ob) as [ask [|]]; simpl; try done.
  intros [= <-]. exists bid, ask. split_and!; try done.
  - apply Qc_mean_between.
  - rewrite (Qcplus_comm bid ask). apply Qc_mean_between.
Qed.

Lemma GetMidPrice_between_witness :
  ∃ bid ask,
    GetBestBid (book main_added) = (bid, true) ∧
    GetBestAsk (book main_added) = (ask, true) ∧
    (Qc_of_Z 201 / Qc_of_Z 2)%Qc = ((bid + ask) / Qc_of_Z 2)%Qc ∧
    ((bid ≤ ask)%Qc → (bid ≤ Qc_of_Z 201 / Qc_of_Z 2)%Qc ∧ (Qc_of_Z 201 / Qc_of_Z 2 ≤ ask)%Qc) ∧
    ((ask ≤ bid)%Qc → (ask ≤ Qc_of_Z 201 / Qc_of_Z 2)%Qc ∧ (Qc_of_Z 201 / Qc_of_Z 2 ≤ bid)%Qc).
Proof.
  apply (GetMidPrice_between (book main_added)).
  apply pair_equal_spec. split; [apply Qc_eq_this|]; by vm_compute.
Defined.

(** ** Matching on a consistent book *)

(** A trade only writes the two quantities. *)
Lemma execute_trade_heap st b0 s0 :
  let m := min (Quantity (heap st b0)) (Quantity (heap st s0)) in
  let h1 := store (heap st) b0
              (set_Quantity (Quantity (heap st b0) - m)%Qc (heap st b0)) in
  heap (execute_trade st b0 s0).2 =
    store h1 s0 (set_Quantity (Quantity (h1 s0) - m)%Qc (h1 s0)).
Proof.
  intros m h1. unfold execute_trade. cbv zeta. simpl snd.
  assert (∀ s id q, heap (delete_Orders id (removeOrder s q)) = heap s) as Hrm.
  { intros s id q. simpl. apply removeOrder_untouched. }
  repeat (destruct (bool_decide _)); rewrite ?Hrm; done.
Qed.

Lemma execute_trade_static st b0 s0 q :
  OrderID (heap (execute_trade st b0 s0).2 q) = OrderID (heap st q) ∧
  Price (heap (execute_trade st b0 s0).2 q) = Price (heap st q) ∧
  Side (heap (execute_trade st b0 s0).2 q) = Side (heap st q).
Proof.
  rewrite execute_trade_heap. cbv zeta. rewrite !store_lookup.
  repeat case_bool_decide; subst; simpl; rewrite ?store_lookup;
    repeat case_bool_decide; done.
Qed.

(** A trade only takes entries out of the id-lookup map. *)
Lemma execute_trade_Orders st b0 s0 id p :
  Orders (book (execute_trade st b0 s0).2) !! id = Some p →
  Orders (book st) !! id = Some p.
Proof.
  unfold execute_trade. cbv zeta. simpl snd.
  assert (∀ s id' q, Orders (book (delete_Orders id' (removeOrder s q))) !! id = Some p →
                     Orders (book s) !! id = Some p) as Hrm.
  { intros s id' q. simpl. intros [_ H]%lookup_delete_Some.
    by rewrite (proj1 (proj2 (removeOrder_untouched s q))) in H. }
  repeat (destruct (bool_decide _)); intros H; repeat (apply Hrm in H); done.
Qed.

Lemma min_le a b : (min a b ≤ a)%Qc ∧ (min a b ≤ b)%Qc.
Proof.
  unfold min. case_bool_decide as H.
  - split; [apply Qcle_refl|by apply Qclt_le_weak].
  - split; [by apply Qcnot_lt_le|apply Qcle_refl].
Qed.

(** A trade on a consistent book: the orders left with quantity zero leave
    the levels, and no other order does. *)
Lemma execute_trade_filed st b0 s0 :
  consistent st → b0 ∈ filed (book st) → s0 ∈ filed (book st) → b0 ≠ s0 →
  let st' := (execute_trade st b0 s0).2 in
  let m := min (Quantity (heap st b0)) (Quantity (heap st s0)) in
  Quantity (heap st' b0) = (Quantity (heap st b0) - m)%Qc ∧
  Quantity (heap st' s0) = (Quantity (heap st s0) - m)%Qc ∧
  (∀ q, q ≠ b0 → q ≠ s0 → heap st' q = heap st q) ∧
  filed (book st) ≡ₚ
    (if bool_decide (Quantity (heap st' b0) = 0%Qc) then [b0] else []) ++
    (if bool_decide (Quantity (heap st' s0) = 0%Qc) then [s0] else []) ++
    filed (book st').
Proof.
  intros Hc Hb Hs Hne st' m.
  pose proof (execute_trade_heap st b0 s0) as Hh. cbv zeta in Hh.
  unfold st', m. rewrite !Hh. clear Hh st'. unfold execute_trade. cbv zeta. simpl snd.
  clear m. set (m := min (Quantity (heap st b0)) (Quantity (heap st s0))).
  set (h1 := store (heap st) b0 (set_Quantity (Quantity (heap st b0) - m)%Qc (heap st b0))).
  set (h2 := store h1 s0 (set_Quantity (Quantity (h1 s0) - m)%Qc (h1 s0))).
  set (st2 := mkState h2 (set_LastTradedPrice (Price (heap st s0)) (book st))).
  assert (consistent st2) as Hc2.
  { pose proof (consistent_set_Quantity _ s0 (Quantity (h1 s0) - m)%Qc
                  (consistent_set_Quantity _ b0 (Quantity (heap st b0) - m)%Qc Hc))
      as [[Hidx Hids] Hmap].
    split; [split|]; simpl in *; [|done..].
    intros b. specialize (Hidx b). by destruct b. }
  assert (filed (book st2) = filed (book st)) as Hf2 by done.
  assert (Quantity (h2 b0) = (Quantity (heap st b0) - m)%Qc) as Hqb.
  { unfold h2. rewrite store_ne by done. unfold h1. by rewrite store_eq. }
  assert (Quantity (h2 s0) = (Quantity (heap st s0) - m)%Qc) as Hqs.
  { unfold h2. rewrite store_eq. simpl. unfold h1. by rewrite store_ne. }
  split; [done|]. split; [done|]. split.
  { intros q Hq1 Hq2. unfold h2. rewrite store_ne by done. unfold h1. by rewrite store_ne. }
  assert (∀ p, p ∈ filed (book st2) → Orders (book st2) !! OrderID (heap st2 p) = Some p)
    as Hreg by (intros p Hp; by apply Hc2).
  change (heap st2) with h2 in *.
  set (st3 := if bool_decide (Quantity (h2 b0) = 0%Qc)
              then delete_Orders (OrderID (h2 b0)) (removeOrder st2 b0) else st2).
  assert (consistent st3 ∧ heap st3 = h2 ∧ s0 ∈ filed (book st3) ∧
          filed (book st) ≡ₚ
            (if bool_decide (Quantity (h2 b0) = 0%Qc) then [b0] else [])
            ++ filed (book st3)) as (Hc3 & Hh3 & Hs3 & Hperm3).
  { unfold st3. case_bool_decide as Hz.
    - destruct (consistent_remove st2 b0 Hc2) as [Hc3 Hperm]; [by apply Hreg|].
      split_and!; [done| | |by rewrite <- Hf2].
      + simpl. by apply removeOrder_ok; [apply Hc2|].
      + rewrite <- Hf2, Hperm in Hs. apply elem_of_cons in Hs as [->|?]; done.
    - by rewrite Hf2. }
  rewrite Hh3. clearbody st3. rewrite Hperm3. apply Permutation_app_head.
  destruct (decide (Quantity (h2 s0) = 0%Qc)) as [Hz|Hz];
    [rewrite !(bool_decide_eq_true_2 _ Hz)|rewrite !(bool_decide_eq_false_2 _ Hz)];
    [|done].
  destruct (consistent_remove st3 s0 Hc3) as [_ Hperm]; [by apply Hc3|].
  by rewrite Hh3 in Hperm.
Qed.

(** One pass that trades, on a consistent book. *)
Lemma MatchOrders_body_trade st t st1 :
  consistent st → MatchOrders_body st = Again t st1 →
  ∃ b0 s0,
    t = (execute_trade st b0 s0).1 ∧ st1 = (execute_trade st b0 s0).2 ∧
    b0 ∈ filed (book st) ∧ s0 ∈ filed (book st) ∧ b0 ≠ s0 ∧
    is_buy (Side (heap st b0)) = true ∧ is_buy (Side (heap st s0)) = false ∧
    (Price (heap st s0) ≤ Price (heap st b0))%Qc.
Proof.
  intros Hc E.
  destruct (MatchOrders_body_Again st t st1 E)
    as (hb & tb & ls & ts & b0 & rb & s0 & rs & EB & ES & Eb & Es & Hle & -> & ->).
  destruct (consistent_front st true hb tb Hc EB) as (b & rb' & Eb' & Hb & HPb & Hbs).
  destruct (consistent_front st false ls ts Hc ES) as (s & rs' & Es' & Hs & HPs & Hss).
  rewrite Eb in Eb'. injection Eb' as <- <-. rewrite Es in Es'. injection Es' as <- <-.
  exists b0, s0. split_and!; try done.
  - intros ->. congruence.
  - by rewrite HPb, HPs.
Qed.

Lemma MatchOrders_trades_between fuel st0 st trades st' :
  (∀ q, OrderID (heap st q) = OrderID (heap st0 q) ∧ Price (heap st q) = Price (heap st0 q)
        ∧ Side (heap st q) = Side (heap st0 q)) →
  (∀ id p, Orders (book st) !! id = Some p → Orders (book st0) !! id = Some p) →
  consistent st → MatchOrders fuel st = Returned trades st' →
  Forall (trade_between st0) trades.
Proof.
  revert st trades. induction fuel as [|fuel IH]; intros st trades Hst Hm Hc E; [done|].
  simpl in E. destruct (MatchOrders_body st) as [|t st1|] eqn:Eb; [|..|done].
  { injection E as <- <-. constructor. }
  destruct (MatchOrders fuel st1) as [ts1 st1'| |] eqn:E1; [|done..].
  injection E as <- <-.
  destruct (MatchOrders_body_trade st t st1 Hc Eb)
    as (b0 & s0 & -> & -> & Hb & Hs & Hne & Hbs & Hss & Hle).
  apply Forall_cons. split.
  - exists b0, s0. rewrite execute_trade_trade. simpl.
    destruct (Hst b0) as (Eib & Epb & Esb), (Hst s0) as (Eis & Eps & Ess).
    rewrite <- Esb, <- Ess, <- Epb, <- Eps.
    split_and!; try done; apply Hm; by apply Hc.
  - apply (IH (execute_trade st b0 s0).2); [| |by apply execute_trade_consistent|done].
    + intros q. destruct (execute_trade_static st b0 s0 q) as (-> & -> & ->). apply Hst.
    + intros id p H. by apply Hm, (execute_trade_Orders st b0 s0).
Qed.

(** X14. Every trade of a [MatchOrders] run on a consistent book is
    between a buy order and a sell order that the id-lookup map held, under
    the identifiers printed, when the run began; it is made at the sell
    order's price, and that price is within the buy order's limit. *)
Theorem MatchOrders_trades_within_limits
  (fuel : nat) (st : State) (trades : list Trade) (st' : State) :
  consistent st → MatchOrders fuel st = Returned trades st' →
  Forall (trade_between st) trades.
Proof. intros Hc E. by apply (MatchOrders_trades_between fuel st st trades st'). Qed.

Lemma MatchOrders_trades_within_limits_witness :
  ∃ trades st', MatchOrders 3 main_added = Returned trades st' ∧
                length trades = 2%nat ∧ Forall (trade_between main_added) trades.
Proof.
  destruct (MatchOrders 3 main_added) as [trades st'| |] eqn:E; [|by vm_compute in E..].
  exists trades, st'. split_and!; [done| |].
  - assert (Returned trades st' = MatchOrders 3 main_added) as E' by done.
    vm_compute in E'. by injection E' as -> _.
  - exact (MatchOrders_trades_within_limits 3 main_added trades st' main_added_consistent E).
Defined.

Lemma Qc_pos_minus (a m : Qc) : (m ≤ a)%Qc → (a - m)%Qc ≠ 0%Qc → (0 < a - m)%Qc.
Proof.
  intros Hle Hne. apply Qcle_minus_iff in Hle. unfold Qcminus in *.
  destruct (Qcle_lt_or_eq _ _ Hle) as [?|E]; [done|]. by rewrite <- E in Hne.
Qed.

Lemma min_pos a b : (0 < a)%Qc → (0 < b)%Qc → (0 < min a b)%Qc.
Proof. intros. by destruct (min_cases a b) as [-> | ->]. Qed.

Lemma execute_trade_positive st b0 s0 :
  consistent st → b0 ∈ filed (book st) → s0 ∈ filed (book st) → b0 ≠ s0 →
  quantities_positive st →
  (0 < TradeQuantity (execute_trade st b0 s0).1)%Qc ∧
  quantities_positive (execute_trade st b0 s0).2.
Proof.
  intros Hc Hb Hs Hne Hpos. unfold quantities_positive in *.
  rewrite Forall_forall in Hpos.
  split; [rewrite execute_trade_trade; simpl; apply min_pos; by apply Hpos|].
  destruct (execute_trade_filed st b0 s0 Hc Hb Hs Hne) as (Hqb & Hqs & Hoth & Hperm).
  pose proof (filed_ok_NoDup _ (cons_filed _ Hc)) as Hnd. rewrite Hperm in Hnd.
  set (st' := (execute_trade st b0 s0).2) in *.
  set (m := min (Quantity (heap st b0)) (Quantity (heap st s0))) in *.
  destruct (min_le (Quantity (heap st b0)) (Quantity (heap st s0))) as [Hmb Hms].
  fold m in Hmb, Hms.
  apply Forall_forall. intros q Hq.
  assert (q ∈ filed (book st)) as Hq0.
  { rewrite Hperm. apply elem_of_app. right. apply elem_of_app. by right. }
  destruct (decide (q = b0)) as [->|Hqb0].
  { rewrite Hqb. apply Qc_pos_minus; [done|]. rewrite <- Hqb. intros Hz.
    rewrite (bool_decide_eq_true_2 _ Hz) in Hnd.
    apply NoDup_app in Hnd as (_ & Hdis & _).
    apply (Hdis b0); [apply list_elem_of_here|]. apply elem_of_app. by right. }
  destruct (decide (q = s0)) as [->|Hqs0].
  { rewrite Hqs. apply Qc_pos_minus; [done|]. rewrite <- Hqs. intros Hz.
    rewrite (bool_decide_eq_true_2 _ Hz) in Hnd.
    apply NoDup_app in Hnd as (_ & _ & Hnd). apply NoDup_app in Hnd as (_ & Hdis & _).
    apply (Hdis s0); [apply list_elem_of_here|done]. }
  rewrite Hoth by done. by apply Hpos.
Qed.

(** An order that is not filed is not written by [MatchOrders]. *)
Lemma MatchOrders_unfiled fuel st trades st' p :
  consistent st → MatchOrders fuel st = Returned trades st' →
  p ∉ filed (book st) → heap st' p = heap st p.
Proof.
  revert st trades. induction fuel as [|fuel IH]; intros st trades Hc E Hp; [done|].
  simpl in E. destruct (MatchOrders_body st) as [|t st1|] eqn:Eb; [|..|done].
  { by injection E as <- <-. }
  destruct (MatchOrders fuel st1) as [ts1 st1'| |] eqn:E1; [|done..].
  injection E as <- <-.
  destruct (MatchOrders_body_trade st t st1 Hc Eb)
    as (b0 & s0 & -> & -> & Hb & Hs & Hne & _).
  destruct (execute_trade_filed st b0 s0 Hc Hb Hs Hne) as (_ & _ & Hoth & Hperm).
  rewrite (IH (execute_trade st b0 s0).2 ts1); [| |done|].
  - apply Hoth; by intros ->.
  - by apply execute_trade_consistent.
  - intros Hin. apply Hp. rewrite Hperm. apply elem_of_app. right.
    apply elem_of_app. by right.
Qed.

(** X15. On a consistent book in which every filed order has a positive
    quantity, with quantities that are finite numbers (the model's;
    infinite and NaN quantities are excluded), a [MatchOrders] run only
    takes out the orders it fills.  Every trade is for a positive
    quantity.  The orders filed when the run returns are exactly the
    orders that were filed before and are left with a quantity that is not
    zero: none is added, none with quantity left is dropped, and none left
    with quantity zero stays.  Every order still filed has a positive
    quantity, and no order that was filed is left with more than it had or
    with less than zero. *)
Theorem MatchOrders_keeps_quantities_positive
  (fuel : nat) (st : State) (trades : list Trade) (st' : State) :
  consistent st → quantities_positive st →
  MatchOrders fuel st = Returned trades st' →
  Forall (λ t, (0 < TradeQuantity t)%Qc) trades ∧
  quantities_positive st' ∧
  (∀ p, p ∈ filed (book st') ↔
        p ∈ filed (book st) ∧ Quantity (heap st' p) ≠ 0%Qc) ∧
  (∀ p, p ∈ filed (book st) →
        (0 ≤ Quantity (heap st' p))%Qc ∧
        (Quantity (heap st' p) ≤ Quantity (heap st p))%Qc).
Proof.
  revert st trades. induction fuel as [|fuel IH]; intros st trades Hc Hpos E; [done|].
  simpl in E. destruct (MatchOrders_body st) as [|t st1|] eqn:Eb; [|..|done].
  { injection E as <- <-. unfold quantities_positive in Hpos.
    rewrite Forall_forall in Hpos.
    split_and!; [constructor|by apply Forall_forall| |].
    - intros p. split; [|by intros [? _]]. intros Hp. split; [done|].
      intros Hz. apply (Qclt_not_eq _ _ (Hpos p Hp)). by rewrite Hz.
    - intros p Hp. split; [by apply Qclt_le_weak, Hpos|apply Qcle_refl]. }
  destruct (MatchOrders fuel st1) as [ts1 st1'| |] eqn:E1; [|done..].
  injection E as <- <-.
  destruct (MatchOrders_body_trade st t st1 Hc Eb)
    as (b0 & s0 & -> & -> & Hb & Hs & Hne & _).
  destruct (execute_trade_positive st b0 s0 Hc Hb Hs Hne Hpos) as [Hq Hpos1].
  destruct (execute_trade_consistent st b0 s0 Hc Hb Hs Hne) as [Hc1 _].
  destruct (execute_trade_filed st b0 s0 Hc Hb Hs Hne) as (Hqb & Hqs & Hoth & Hperm).
  destruct (min_le (Quantity (heap st b0)) (Quantity (heap st s0))) as [Hmb Hms].
  unfold quantities_positive in Hpos. rewrite Forall_forall in Hpos.
  pose proof (min_pos _ _ (Hpos b0 Hb) (Hpos s0 Hs)) as Hm.
  set (st1 := (execute_trade st b0 s0).2) in *.
  set (m := min (Quantity (heap st b0)) (Quantity (heap st s0))) in *.
  destruct (IH st1 ts1 Hc1 Hpos1 E1) as (Hts & Hpos' & Hfiled & Hbound).
  assert (∀ p, p ∈ filed (book st1) → p ∈ filed (book st)) as Hsub.
  { intros p Hp. rewrite Hperm. apply elem_of_app. right. apply elem_of_app. by right. }
  assert (∀ p, p ∈ filed (book st) → p ∉ filed (book st1) →
               Quantity (heap st1 p) = 0%Qc) as Hgone.
  { intros p Hp Hout. rewrite Hperm in Hp.
    apply elem_of_app in Hp as [Hp|Hp]; [|apply elem_of_app in Hp as [Hp|Hp]]; [| |done].
    - case_bool_decide as Hz; [|by apply elem_of_nil in Hp].
      by apply list_elem_of_singleton in Hp as ->.
    - case_bool_decide as Hz; [|by apply elem_of_nil in Hp].
      by apply list_elem_of_singleton in Hp as ->. }
  assert (∀ p, p ∈ filed (book st) →
               (0 ≤ Quantity (heap st1 p))%Qc ∧
               (Quantity (heap st1 p) ≤ Quantity (heap st p))%Qc) as Hstep.
  { intros p Hp.
    assert (∀ a, (m ≤ a)%Qc → (0 ≤ a - m)%Qc ∧ (a - m ≤ a)%Qc) as Hsubtr.
    { intros a Ha. split; [by apply Qcle_minus_iff in Ha|].
      apply Qcle_minus_iff. replace (a + - (a - m))%Qc with m by ring.
      by apply Qclt_le_weak. }
    destruct (decide (p = b0)) as [->|Hpb]; [rewrite Hqb; by apply Hsubtr|].
    destruct (decide (p = s0)) as [->|Hps]; [rewrite Hqs; by apply Hsubtr|].
    rewrite Hoth by done. split; [by apply Qclt_le_weak, Hpos|apply Qcle_refl]. }
  split_and!; [by apply Forall_cons|done| |].
  - intros p. rewrite Hfiled. split; [intros [Hp Hz]; auto|].
    intros [Hp Hz]. split; [|done].
    destruct (decide (p ∈ filed (book st1))) as [|Hout]; [done|]. exfalso. apply Hz.
    rewrite (MatchOrders_unfiled fuel st1 ts1 st1' p) by done. by apply Hgone.
  - intros p Hp. destruct (Hstep p Hp) as [H0 Hle].
    destruct (decide (p ∈ filed (book st1))) as [Hin|Hout].
    + destruct (Hbound p Hin) as [H0' Hle']. split; [done|]. by eapply Qcle_trans.
    + by rewrite (MatchOrders_unfiled fuel st1 ts1 st1' p).
Qed.

Lemma MatchOrders_keeps_quantities_positive_witness :
  ∃ trades st', MatchOrders 3 main_added = Returned trades st' ∧
                length trades = 2%nat ∧
                Forall (λ t, (0 < TradeQuantity t)%Qc) trades ∧ quantities_positive st' ∧
                (B2 ∈ filed (book st') ↔
                 B2 ∈ filed (book main_added) ∧ Quantity (heap st' B2) ≠ 0%Qc) ∧
                (0 ≤ Quantity (heap st' B1))%Qc ∧
                (Quantity (heap st' B1) ≤ Quantity (heap main_added B1))%Qc.
Proof.
  destruct (MatchOrders 3 main_added) as [trades st'| |] eqn:E; [|by vm_compute in E..].
  assert (quantities_positive main_added) as Hpos.
  { unfold quantities_positive. vm_compute filed.
    repeat (apply Forall_cons; split; [by vm_compute|]). constructor. }
  destruct (MatchOrders_keeps_quantities_positive 3 main_added trades st'
              main_added_consistent Hpos E) as (Hts & Hpos' & Hfiled & Hbound).
  exists trades, st'. split_and!; [done| |done|done|apply Hfiled|..].
  - assert (Returned trades st' = MatchOrders 3 main_added) as E' by done.
    vm_compute in E'. by injection E' as -> _.
  - apply Hbound, list_elem_of_In. vm_compute. tauto.
  - apply Hbound, list_elem_of_In. vm_compute. tauto.
Defined.

(** No trade is printed under an identifier that no filed order carries. *)
Lemma MatchOrders_unfiled_id fuel st trades st' id :
  consistent st → MatchOrders fuel st = Returned trades st' →
  id ∉ ids (heap st) (filed (book st)) → filled_quantity id trades = 0%Qc.
Proof.
  intros Hc E Hid.
  pose proof (MatchOrders_trades_between fuel st st trades st'
                (λ _, conj eq_refl (conj eq_refl eq_refl)) (λ _ _ H, H) Hc E) as Hall.
  clear E. induction Hall as [|t ts (b & s & Hb & Hs & _) _ IH]; [done|].
  simpl. rewrite IH. unfold involves.
  apply Hc in Hb as [Hbf Hbi]. apply Hc in Hs as [Hsf Hsi].
  rewrite !bool_decide_eq_false_2; [done|..]; intros <-; apply Hid;
    apply list_elem_of_fmap; eauto.
Qed.

(** X16. The fills of a [MatchOrders] run on a consistent book add up, as
    long as the subtractions of the run are exact (the model's; [float64]
    rounding of [-=] is excluded): for every order the id-lookup map held
    when the run began, the quantity the order is left with is the
    quantity it had less the quantities of the trades printed under its
    identifier. *)
Theorem MatchOrders_fills_add_up
  (fuel : nat) (st : State) (trades : list Trade) (st' : State)
  (id : string) (p : loc) :
  consistent st → MatchOrders fuel st = Returned trades st' →
  Orders (book st) !! id = Some p →
  Quantity (heap st' p) = (Quantity (heap st p) - filled_quantity id trades)%Qc.
Proof.
  intros Hc E Hp. apply Hc in Hp as [Hp <-].
  revert st trades Hc E Hp.
  induction fuel as [|fuel IH]; intros st trades Hc E Hp; [done|].
  simpl in E. destruct (MatchOrders_body st) as [|t st1|] eqn:Eb; [|..|done].
  { injection E as <- <-. simpl. by rewrite Qcminus_0_r. }
  destruct (MatchOrders fuel st1) as [ts1 st1'| |] eqn:E1; [|done..].
  injection E as <- <-.
  destruct (MatchOrders_body_trade st t st1 Hc Eb)
    as (b0 & s0 & -> & -> & Hb & Hs & Hne & _).
  destruct (execute_trade_filed st b0 s0 Hc Hb Hs Hne) as (Hqb & Hqs & Hoth & Hperm).
  destruct (execute_trade_consistent st b0 s0 Hc Hb Hs Hne) as [Hc1 _].
  pose proof (cons_filed _ Hc) as [_ Hids].
  assert (∀ q, q ∈ filed (book st) → OrderID (heap st q) = OrderID (heap st p) → q = p)
    as Hinj.
  { intros q Hq Hqi. by apply (NoDup_ids_inj (heap st) (filed (book st))). }
  set (st1 := (execute_trade st b0 s0).2) in *.
  set (m := min (Quantity (heap st b0)) (Quantity (heap st s0))) in *.
  assert (Quantity (heap st1 p) =
          (Quantity (heap st p)
           - (if involves (OrderID (heap st p)) (execute_trade st b0 s0).1 then m else 0))%Qc)
    as Hstep.
  { rewrite execute_trade_trade. unfold involves. simpl.
    destruct (decide (p = b0)) as [->|Hpb].
    { by rewrite bool_decide_eq_true_2. }
    destruct (decide (p = s0)) as [->|Hps].
    { rewrite (bool_decide_eq_true_2 (OrderID (heap st s0) = _)) by done.
      by rewrite orb_true_r. }
    rewrite !bool_decide_eq_false_2, Hoth, Qcminus_0_r; try done.
    - intros Hi. by apply Hps; symmetry; apply Hinj.
    - intros Hi. by apply Hpb; symmetry; apply Hinj. }
  assert (OrderID (heap st1 p) = OrderID (heap st p)) as Hidp
    by apply execute_trade_static.
  assert (Quantity (heap st1' p) =
          (Quantity (heap st1 p) - filled_quantity (OrderID (heap st p)) ts1)%Qc) as Hrest.
  { destruct (decide (p ∈ filed (book st1))) as [Hin|Hout].
    - rewrite <- Hidp. by apply (IH st1 ts1).
    - rewrite (MatchOrders_unfiled fuel st1 ts1 st1' p) by done.
      rewrite (MatchOrders_unfiled_id fuel st1 ts1 st1'); [by rewrite Qcminus_0_r|done..|].
      intros (q & Hqi & Hq)%list_elem_of_fmap. apply Hout.
      assert (q ∈ filed (book st)) as Hq0.
      { rewrite Hperm. apply elem_of_app. right. apply elem_of_app. by right. }
      rewrite (Hinj q) in Hq; [done|done|].
      rewrite Hqi. symmetry. apply execute_trade_static. }
  assert (TradeQuantity (execute_trade st b0 s0).1 = m) as Htq
    by (by rewrite execute_trade_trade).
  rewrite Hrest, Hstep.
  change (filled_quantity ?i (?t :: ?ts))
    with (if involves i t then (TradeQuantity t + filled_quantity i ts)%Qc
          else filled_quantity i ts).
  rewrite Htq. destruct (involves _ _); ring.
Qed.

Lemma MatchOrders_fills_add_up_witness :
  ∃ trades st', MatchOrders 3 main_added = Returned trades st' ∧
    filled_quantity "S2" trades = Qc_of_Z 8 ∧
    Quantity (heap st' S2) = (Quantity (heap main_added S2) - filled_quantity "S2" trades)%Qc.
Proof.
  destruct (MatchOrders 3 main_added) as [trades st'| |] eqn:E; [|by vm_compute in E..].
  exists trades, st'. split_and!; [done| |].
  - assert (Returned trades st' = MatchOrders 3 main_added) as E' by done.
    vm_compute in E'. injection E' as -> _. apply Qc_eq_this. by vm_compute.
  - apply (MatchOrders_fills_add_up 3 main_added trades st' "S2" S2
             main_added_consistent E). by vm_compute.
Defined.

(** ** [removeOrder] after any sequence of calls *)

(** X17. After any sequence of calls with prices that are finite numbers
    (the model's; a NaN price is excluded), [removeOrder] finds the order
    to take out by side, price and identifier, not by the pointer it is
    given.  Either no order carrying the identifier is in the level at the
    order's price on the order's side, and the call changes nothing; or
    the first order carrying the identifier leaves that level (and the
    level leaves the index when nothing is left in it), whether or not it
    is the order given.  No other level, and nothing else of the state, is
    touched. *)
Theorem removeOrder_finds_by_identifier (st : State) (order : loc) :
  reachable any_call st →
  let buy := is_buy (Side (heap st order)) in
  let same_id q := OrderID (heap st q) = OrderID (heap st order) in
  (removeOrder st order = st ∧
   ∀ L, L ∈ tree_of buy (book st) → LevelPrice L = Price (heap st order) →
        Forall (λ q, ¬ same_id q) (LevelOrders L)) ∨
  (∃ t1 L t2 l1 q l2,
     tree_of buy (book st) = t1 ++ L :: t2 ∧ LevelPrice L = Price (heap st order) ∧
     LevelOrders L = l1 ++ q :: l2 ∧ same_id q ∧ Forall (λ q', ¬ same_id q') l1 ∧
     removeOrder st order =
       mkState (heap st) (set_tree buy (t1 ++ level_without L (l1 ++ l2) ++ t2) (book st))).
Proof.
  intros Hr buy same_id. apply removeOrder_cases. by eapply reachable_trees_ok.
Qed.

Lemma removeOrder_finds_by_identifier_witness :
  removeOrder dup_added 3%nat =
    mkState (heap dup_added)
      (set_tree true [mkPriceLevel (Qc_of_Z 100) [2%nat] "buy"] (book dup_added)).
Proof.
  destruct (removeOrder_finds_by_identifier dup_added 3%nat dup_added_reachable)
    as [[E _]|(t1 & L & t2 & l1 & q & l2 & _ & _ & _ & _ & _ & _)].
  - by vm_compute in E.
  - by vm_compute.
Defined.

(** ** The display *)

Lemma order_lines_orders_of h t : order_lines h t = line_of h <$> orders_of t.
Proof.
  unfold order_lines, orders_of, btree.Ascend.
  induction t as [|L t IH]; [done|].
  by rewrite !fmap_cons, !concat_cons, fmap_app, IH.
Qed.

Lemma DisplayOrderBook_lines st l :
  l ∈ DisplayOrderBook st ↔
  l ∈ [Println "Order Book:"; Println "Buy Orders:"; Println "Sell Orders:";
       Println "------------------------------"] ∨
  l ∈ line_of (heap st) <$> filed (book st).
Proof.
  unfold DisplayOrderBook, filed. rewrite !order_lines_orders_of, fmap_app.
  rewrite !elem_of_app, !elem_of_cons, !elem_of_nil. tauto.
Qed.

Lemma omap_line_of h (l : list loc) :
  omap line_id (line_of h <$> l) = (λ p, OrderID (h p)) <$> l.
Proof. induction l as [|p l IH]; [done|]. simpl. f_equal. exact IH. Qed.

Lemma DisplayOrderBook_ids st :
  omap line_id (DisplayOrderBook st) = ids (heap st) (filed (book st)).
Proof.
  unfold DisplayOrderBook, filed, ids. rewrite !order_lines_orders_of.
  rewrite !omap_app, !omap_line_of, fmap_app. simpl. by rewrite app_nil_r.
Qed.

(** X18. On a consistent book [DisplayOrderBook] writes one line for each
    order the id-lookup map holds and no other order line: the identifiers
    on the lines are all different, and a line with an identifier, a price
    and a quantity is written exactly when the map leads from the
    identifier to an order with that price and that quantity. *)
Theorem DisplayOrderBook_shows_the_registered_orders (st : State) :
  consistent st →
  NoDup (omap line_id (DisplayOrderBook st)) ∧
  ∀ id price quantity,
    OrderLine id price quantity ∈ DisplayOrderBook st ↔
    ∃ p, Orders (book st) !! id = Some p ∧
         Price (heap st p) = price ∧ Quantity (heap st p) = quantity.
Proof.
  intros Hc. split.
  - rewrite DisplayOrderBook_ids. apply Hc.
  - intros id price quantity. rewrite DisplayOrderBook_lines, list_elem_of_fmap. split.
    + intros [Hh|(p & [= -> -> ->] & Hp)].
      * repeat (apply elem_of_cons in Hh as [?|Hh]; [done|]). by apply elem_of_nil in Hh.
      * exists p. split; [|done]. by apply Hc.
    + intros (p & Hp & <- & <-). right. exists p. apply Hc in Hp as [? <-]. done.
Qed.

Lemma DisplayOrderBook_shows_the_registered_orders_witness :
  OrderLine "B2" (Qc_of_Z 102) (Qc_of_Z 7) ∈ DisplayOrderBook main_added.
Proof.
  apply (DisplayOrderBook_shows_the_registered_orders main_added main_added_consistent).
  exists B2. split_and!; by vm_compute.
Defined.

Lemma StronglySorted_weaken {A} (R R' : A → A → Prop) l :
  (∀ a b, R a b → R' a b) → StronglySorted R l → StronglySorted R' l.
Proof.
  intros HR. induction 1 as [|a l _ IH Hall]; constructor; [done|].
  eapply Forall_impl; [exact Hall|]. apply HR.
Qed.

Lemma order_lines_sorted h buy t :
  index_ok h buy t →
  StronglySorted (λ a b, line_price a = line_price b ∨ before buy (line_price a) (line_price b))
                 (order_lines h t).
Proof.
  rewrite order_lines_orders_of. intros [Hok Hlv].
  induction t as [|L t IH]; [constructor|].
  apply tree_ok_cons in Hok as (HsL & Hbef & Hok).
  apply Forall_cons in Hlv as [[_ HL] Hlv].
  specialize (IH Hok Hlv). rewrite orders_of_cons, fmap_app.
  assert (Forall (λ b, before buy (LevelPrice L) (line_price b)) (line_of h <$> orders_of t))
    as Hrest.
  { apply Forall_fmap, Forall_forall. intros q (L' & HL' & Hq)%elem_of_orders_of. simpl.
    rewrite Forall_forall in Hlv. destruct (Hlv L' HL') as [_ HLq].
    rewrite Forall_forall in HLq. destruct (HLq q Hq) as [-> _].
    rewrite Forall_forall in Hbef. by apply Hbef. }
  induction HL as [|q l [Hq _] Hl IHl]; [done|]. simpl. constructor; [done|].
  apply Forall_app. split.
  - apply Forall_fmap. eapply Forall_impl; [exact Hl|].
    intros q' [Hq' _]. simpl. left. by rewrite Hq, Hq'.
  - eapply Forall_impl; [exact Hrest|]. intros b Hb. simpl. right. by rewrite Hq.
Qed.

(** X19. On a consistent book [DisplayOrderBook] writes the two headings,
    the bids best first (the price never goes up from one line to the
    next), the heading of the asks, the asks best first (the price never
    goes down) and the closing rule. *)
Theorem DisplayOrderBook_is_best_first (st : State) :
  consistent st →
  ∃ bids asks,
    DisplayOrderBook st =
      [Println "Order Book:"; Println "Buy Orders:"] ++ bids
      ++ [Println "Sell Orders:"] ++ asks ++ [Println "------------------------------"] ∧
    StronglySorted (λ a b, (line_price b ≤ line_price a)%Qc) bids ∧
    StronglySorted (λ a b, (line_price a ≤ line_price b)%Qc) asks.
Proof.
  intros [[Hidx _] _].
  exists (order_lines (heap st) (BuyTree (book st))),
         (order_lines (heap st) (SellTree (book st))).
  split; [done|]. split.
  - eapply StronglySorted_weaken; [|exact (order_lines_sorted _ true _ (Hidx true))].
    intros a b [->|H]; [apply Qcle_refl|by apply Qclt_le_weak].
  - eapply StronglySorted_weaken; [|exact (order_lines_sorted _ false _ (Hidx false))].
    intros a b [->|H]; [apply Qcle_refl|by apply Qclt_le_weak].
Qed.

Lemma DisplayOrderBook_is_best_first_witness :
  ∃ bids asks,
    DisplayOrderBook main_added =
      [Println "Order Book:"; Println "Buy Orders:"] ++ bids
      ++ [Println "Sell Orders:"] ++ asks ++ [Println "------------------------------"] ∧
    StronglySorted (λ a b, (line_price b ≤ line_price a)%Qc) bids ∧
    StronglySorted (λ a b, (line_price a ≤ line_price b)%Qc) asks.
Proof.
  apply (DisplayOrderBook_is_best_first main_added main_added_consistent).
Defined.

(** ** Price-time priority on submission *)

(** X20. After any sequence of calls with prices that are finite numbers
    (the model's; a NaN price is excluded), [AddOrder] files the order
    behind every order of the level at its price on its side, and leaves
    every other level and the order of the levels as they are.  When the
    side has no level at that price, a level holding the order alone opens
    at the place the best-first order of the prices gives it. *)
Theorem AddOrder_joins_at_the_back (st : State) (order : loc) :
  reachable any_call st →
  let o := heap st order in
  let buy := is_buy (Side o) in
  let tree := tree_of buy (book st) in
  let tree' := tree_of buy (book (AddOrder st order)) in
  (∃ t1 L t2,
     tree = t1 ++ L :: t2 ∧ LevelPrice L = Price o ∧
     tree' = t1 ++ set_LevelOrders (LevelOrders L ++ [order]) L :: t2) ∨
  (Forall (λ L, LevelPrice L ≠ Price o) tree ∧
   ∃ t1 t2,
     tree = t1 ++ t2 ∧
     tree' = t1 ++ mkPriceLevel (Price o) [order] (Side o) :: t2 ∧
     tree_ok buy tree').
Proof.
  intros Hr o buy tree tree'.
  pose proof (reachable_trees_ok _ _ Hr buy) as Htok. fold tree in Htok.
  destruct (Get_cases buy tree (mkPriceLevel (Price o) [] (Side o)) Htok eq_refl)
    as [(t1 & L & t2 & Ht & E & _)|(_ & Hne & _)]; simpl in *.
  - left. exists t1, L, t2. split_and!; [done..|].
    unfold tree'. rewrite (AddOrder_existing st order t1 L t2) by done.
    simpl. by rewrite tree_of_set_tree.
  - right. split; [done|].
    destruct (AddOrder_new st order Htok Hne) as (t1 & t2 & Ht & Hok' & E).
    exists t1, t2. unfold tree'. rewrite E. simpl. by rewrite tree_of_set_tree.
Qed.

Lemma AddOrder_joins_at_the_back_witness :
  BuyTree (book (AddOrder dup_added 3%nat)) =
    [mkPriceLevel (Qc_of_Z 100) [1%nat; 2%nat; 3%nat] "buy"].
Proof.
  destruct (AddOrder_joins_at_the_back dup_added 3%nat dup_added_reachable)
    as [(t1 & L & t2 & _ & _ & _)|(_ & t1 & t2 & _ & _ & _)]; by vm_compute.
Defined.

(** ** The smaller quantity, the new book, and the end of [main] *)

(** X21. [min] returns one of its two arguments, and one that is at most
    the other. *)
Theorem min_is_the_lesser (a b : Qc) :
  (min a b = a ∨ min a b = b) ∧ (min a b ≤ a)%Qc ∧ (min a b ≤ b)%Qc.
Proof. split; [apply min_cases|apply min_le]. Qed.

(** X22. A new book is empty whatever the store holds: no side has a best
    price, there is no mid price and no market price, every cancellation
    and every modification with valid arguments answers that the order was
    not found, [MatchOrders] returns at its first pass without a trade and
    without a change, and the display shows the headings alone. *)
Theorem NewOrderBook_is_empty (h : loc → Order) :
  let st := mkState h NewOrderBook in
  GetBestBid (book st) = (0%Qc, false) ∧ GetBestAsk (book st) = (0%Qc, false) ∧
  GetMidPrice (book st) = (0%Qc, false) ∧
  GetCurrentMarketPrice (book st) = (0%Qc, false) ∧
  (∀ id, RemoveOrder st id = (st, ErrOrderNotFound)) ∧
  (∀ id price, ModifyOrderPrice st id price = (st, ErrOrderNotFound)) ∧
  (∀ id, ModifyOrderSide st id "buy" = (st, ErrOrderNotFound) ∧
         ModifyOrderSide st id "sell" = (st, ErrOrderNotFound)) ∧
  (∀ id quantity, ¬ (quantity < 0)%Qc →
                  ModifyOrderQuantity st id quantity = (st, ErrOrderNotFound)) ∧
  (∀ fuel, MatchOrders (S fuel) st = Returned [] st) ∧
  DisplayOrderBook st =
    [Println "Order Book:"; Println "Buy Orders:"; Println "Sell Orders:";
     Println "------------------------------"].
Proof.
  intros st. split_and!; try done.
  intros id quantity Hq. unfold ModifyOrderQuantity.
  by rewrite bool_decide_eq_false_2.
Qed.

Lemma MatchOrders_Break fuel st :
  MatchOrders_body st = Break → MatchOrders (S fuel) st = Returned [] st.
Proof. intros E. simpl. by rewrite E. Qed.

(** X23. The end of [main].  After the first [MatchOrders] the price
    change of B2 answers that the order was not found, since B2 was filled,
    and changes nothing; the side change of S1 and the quantity change of
    B1 to 0 return no error.  The book then shows S1 alone, as a bid at 105
    for 5, and no ask; the second [MatchOrders] returns at its first pass
    without a trade, and the market price is still the last traded price,
    99. *)
Theorem main_modifications :
  (∃ trades, MatchOrders 3 main_added = Returned trades main_matched) ∧
  ModifyOrderPrice main_matched "B2" (Qc_of_Z 98) = (main_matched, ErrOrderNotFound) ∧
  (ModifyOrderSide main_matched "S1" "buy").2 = None ∧
  (ModifyOrderQuantity (ModifyOrderSide main_matched "S1" "buy").1 "B1" 0%Qc).2 = None ∧
  DisplayOrderBook main_modified =
    [Println "Order Book:"; Println "Buy Orders:";
     OrderLine "S1" (Qc_of_Z 105) (Qc_of_Z 5);
     Println "Sell Orders:"; Println "------------------------------"] ∧
  Orders (book main_modified) = {[ "S1" := S1 ]} ∧
  (∀ fuel, MatchOrders (S fuel) main_modified = Returned [] main_modified) ∧
  GetCurrentMarketPrice (book main_modified) = (Qc_of_Z 99, true).
Proof.
  split_and!.
  - unfold main_matched.
    destruct (MatchOrders 3 main_added) as [trades st'| |] eqn:E; [|by vm_compute in E..].
    by exists trades.
  - by vm_compute.
  - by vm_compute.
  - by vm_compute.
  - by vm_compute.
  - by vm_compute.
  - intros fuel. apply MatchOrders_Break. by vm_compute.
  - by vm_compute.
Qed.
